(** * hireprep-ultimate: streaming client, biometric analysis and orchestrator

    A shallow embedding of
      - [src/services/analysisService.ts]  (class [AnalysisService]),
      - [src/services/geminiService.ts]    (class [GeminiLiveClient]),
      - the [InterviewGraph] class kept in the same file,
      - the aggregates of the feedback page ([src/unnamed/part_000]) and
        [processFile] of the file service,
    and the properties the design document states about them.

    Conventions of the embedding
      - A JavaScript [number] is a rational ([Q]); [Date.now()] readings and
        array lengths are integers ([Z], [nat]).  Rounding of IEEE doubles is
        not modelled: arithmetic is exact.  Where the exact value lies
        halfway between the two candidates of a rounding, the double the
        source rounds may lie on either side of it: there the direction
        the embedding rounds in need not be the program's.  [NaN] and the
        infinities have no counterpart; every division of the source that
        can meet a zero divisor is guarded in the source and the guard is
        kept.
      - [Math.sqrt] and [Math.log10] are not rational functions: where the
        source calls them the embedding takes them as Section variables.
      - [null]/[undefined] is [None]; a thrown exception is an explicit
        result ([None] of an option, or the branch of the enclosing
        [try]/[catch]).
      - Objects that the source shares by reference (the live metrics
        object, script-processor nodes) live in explicit stores. *)

From Stdlib Require Import ZArith QArith Qround Qminmax Qabs Lqa Lia Bool.
From Stdlib Require Import String Ascii.
From stdpp Require Import base option list gmap.

Local Open Scope Z_scope.
Local Open Scope Q_scope.

(** ** JavaScript primitives used by the services *)

Module JS.

Definition Qlt_bool (x y : Q) : bool := negb (Qle_bool y x).

(** [Math.round]: the nearest integer, halves towards +infinity. *)
Definition Math_round (x : Q) : Q := inject_Z (Qfloor (x + (1 # 2))).

Definition Math_floor (x : Q) : Z := Qfloor x.

Definition Math_max (x y : Q) : Q := if Qlt_bool x y then y else x.
Definition Math_min (x y : Q) : Q := if Qlt_bool y x then y else x.

(** [Number(x.toFixed(1))]: one decimal, the larger candidate on a tie;
    [toFixed] formats the sign apart. *)
Definition toFixed1 (x : Q) : Q :=
  if Qlt_bool x 0
  then - Qred (Qfloor ((- x) * 10 + (1 # 2)) # 10)
  else Qred (Qfloor (x * 10 + (1 # 2)) # 10).

(** Truthiness of a possibly missing string: [undefined] and the empty
    string are falsy. *)
Definition truthy (s : option string) : bool :=
  match s with
  | Some EmptyString => false
  | Some _ => true
  | None => false
  end.

(** [a || b] on possibly missing strings. *)
Definition or_else (a b : option string) : option string :=
  if truthy a then a else b.

(** [a || "literal"]. *)
Definition or_lit (a : option string) (b : string) : string :=
  match a with
  | Some s => if truthy a then s else b
  | None => b
  end.

(** [Number(x) || d] for a numeric field that may be missing; [0] and
    [NaN] (a missing field) are falsy. *)
Definition num_or (a : option Q) (d : Q) : Q :=
  match a with
  | Some q => if Qeq_bool q 0 then d else q
  | None => d
  end.

(** White space removed by [String.prototype.trim], restricted to the
    one-byte code points. *)
Definition is_space (c : ascii) : bool :=
  let n := nat_of_ascii c in
  (Nat.eqb n 32 || Nat.eqb n 9 || Nat.eqb n 10 || Nat.eqb n 11
   || Nat.eqb n 12 || Nat.eqb n 13 || Nat.eqb n 160)%bool.

Fixpoint trim_start (s : string) : string :=
  match s with
  | EmptyString => EmptyString
  | String c s' => if is_space c then trim_start s' else s
  end.

(** Drops the trailing white space: [None] stands for a suffix made of
    white space only. *)
Fixpoint trim_end_aux (s : string) : option string :=
  match s with
  | EmptyString => None
  | String c s' =>
      match trim_end_aux s' with
      | Some t => Some (String c t)
      | None => if is_space c then None else Some (String c EmptyString)
      end
  end.

Definition trim_end (s : string) : string :=
  match trim_end_aux s with Some t => t | None => EmptyString end.

Definition trim (s : string) : string := trim_end (trim_start s).

(** Conversion of a number stored into an [Int16Array]: truncation
    towards zero, then wrap-around modulo 2^16 into [-32768, 32767]. *)
Definition Qtrunc (x : Q) : Z :=
  if Qlt_bool x 0 then (- Qfloor (- x))%Z else Qfloor x.

Definition ToInt16 (x : Q) : Z :=
  let m := (Qtrunc x mod 65536)%Z in
  if (32768 <=? m)%Z then (m - 65536)%Z else m.

End JS.

(** ** The biometric analysis engine ([AnalysisService]) *)

Module Analysis.

(** [AnalysisMetrics] of [types.ts].  The object the service creates
    has no [audioLevel] property until the first audio tick writes it. *)
Record AnalysisMetrics := mkMetrics {
  speechRate : Q;
  pauseRatio : Q;
  volumeStability : Q;
  eyeContact : Q;
  confidence : Q;
  clarity : Q;
  audioLevel : option Q
}.

Definition set_speechRate (v : Q) (m : AnalysisMetrics) :=
  mkMetrics v (pauseRatio m) (volumeStability m) (eyeContact m)
            (confidence m) (clarity m) (audioLevel m).
Definition set_pauseRatio (v : Q) (m : AnalysisMetrics) :=
  mkMetrics (speechRate m) v (volumeStability m) (eyeContact m)
            (confidence m) (clarity m) (audioLevel m).
Definition set_volumeStability (v : Q) (m : AnalysisMetrics) :=
  mkMetrics (speechRate m) (pauseRatio m) v (eyeContact m)
            (confidence m) (clarity m) (audioLevel m).
Definition set_eyeContact (v : Q) (m : AnalysisMetrics) :=
  mkMetrics (speechRate m) (pauseRatio m) (volumeStability m) v
            (confidence m) (clarity m) (audioLevel m).
Definition set_confidence (v : Q) (m : AnalysisMetrics) :=
  mkMetrics (speechRate m) (pauseRatio m) (volumeStability m)
            (eyeContact m) v (clarity m) (audioLevel m).
Definition set_audioLevel (v : Q) (m : AnalysisMetrics) :=
  mkMetrics (speechRate m) (pauseRatio m) (volumeStability m)
            (eyeContact m) (confidence m) (clarity m) (Some v).

(** The object literal assigned to [currentMetrics]. *)
Definition initialMetrics : AnalysisMetrics :=
  mkMetrics 0 0 10 100 100 8 None.

(** One entry of [speechHistory]. *)
Record SpeechFrame := mkFrame { time : Z; isSpeech : bool }.

(** The private fields of the service.  Device handles carry no data the
    service reads back, so only their presence is kept.  The field
    [currentMetrics] is a reference to an object that is mutated in
    place: the functions below take and return the content of that
    object next to the service. *)
Record AnalysisService := mkService {
  audioContext : bool;
  analyser : bool;
  dataArray : bool;
  speechHistory : list SpeechFrame;
  rmsValues : list Q;
  lastSpeechTimestamp : Z;
  gazeHistory : list bool;
  isRunning : bool
}.

Definition initialService : AnalysisService :=
  mkService false false false [] [] 0%Z [] false.

(** [initAudio] up to its call of [processAudioLoop]: the context, the
    analyser and the data array exist and the service runs. *)
Definition opened (s : AnalysisService) : AnalysisService :=
  mkService true true true (speechHistory s) (rmsValues s)
            (lastSpeechTimestamp s) (gazeHistory s) true.

(** [initVideo] once the face mesh is loaded and the video is ready: the
    frame loop starts and the service runs. *)
Definition initVideo (s : AnalysisService) : AnalysisService :=
  mkService (audioContext s) (analyser s) (dataArray s) (speechHistory s)
            (rmsValues s) (lastSpeechTimestamp s) (gazeHistory s) true.

(** [stop]. *)
Definition stop (s : AnalysisService) : AnalysisService :=
  mkService false (analyser s) (dataArray s) [] [] 0%Z [] false.

(** *** Audio *)

(** What one run of [processAudioLoop] reads from outside: the analyser's
    byte frequency data and the two readings of [Date.now()], the first
    in [processAudioLoop], the second in [calculateAudioMetrics]. *)
Record AudioTick := mkTick {
  data : list Z;
  now : Z;
  now2 : Z
}.

Definition SILENCE_THRESHOLD : Q := 15.
Definition WINDOW_MS : Z := 500.
Definition SILENCE_TIMEOUT : Z := 500.

(** The [while] loop that shifts the entries older than the window off
    the front of the history. *)
Fixpoint prune (now : Z) (h : list SpeechFrame) : list SpeechFrame :=
  match h with
  | [] => []
  | f :: h' => if (WINDOW_MS <? now - time f)%Z then prune now h' else h
  end.

Definition sum_squares (d : list Z) : Z :=
  fold_left (fun acc x => (acc + x * x)%Z) d 0%Z.

Definition Qsum (l : list Q) : Q := fold_left Qplus l 0.

Definition speechFrames (h : list SpeechFrame) : nat :=
  length (filter (fun f => isSpeech f = true) h).

Definition Qnat (n : nat) : Q := inject_Z (Z.of_nat n).

Section Math.

Variables Math_sqrt Math_log10 : Q -> Q.

Definition rms_of (d : list Z) : Q :=
  Math_sqrt (inject_Z (sum_squares d) / Qnat (length d)).

(** [calculateAudioMetrics], reading the clock as [clock]. *)
Definition calculateAudioMetrics (clock : Z)
    (s : AnalysisService) (m : AnalysisMetrics) : AnalysisMetrics :=
  (* 1. Stability *)
  let stability :=
    if (1 <? length (rmsValues s))%nat then
      let n := Qnat (length (rmsValues s)) in
      let mean := Qsum (rmsValues s) / n in
      let variance :=
        Qsum (map (fun b => (b - mean) * (b - mean)) (rmsValues s)) / n in
      JS.Math_max 0 (10 - Math_sqrt variance / 5)
    else 10 in
  let m := set_volumeStability (JS.toFixed1 stability) m in
  (* 2. Strict WPM logic *)
  let timeSinceSpeech := (clock - lastSpeechTimestamp s)%Z in
  let isActuallySpeaking := (timeSinceSpeech <? SILENCE_TIMEOUT)%Z in
  if negb isActuallySpeaking then
    set_pauseRatio 100 (set_speechRate 0 m)
  else
    let sf := speechFrames (speechHistory s) in
    let totalFrames := length (speechHistory s) in
    let windowSeconds :=
      if (0 <? totalFrames)%nat then Qnat totalFrames / 60 else 1 # 2 in
    let activeSeconds := Qnat sf / 60 in
    let estimatedWords := activeSeconds * (5 # 2) in
    let wpm :=
      if JS.Qlt_bool 0 windowSeconds
      then (estimatedWords * 60) / windowSeconds else 0 in
    let m := set_speechRate (JS.Math_round wpm) m in
    set_pauseRatio
      (if (0 <? totalFrames)%nat
       then JS.toFixed1 ((1 - Qnat sf / Qnat totalFrames) * 100)
       else 0) m.

(** [processAudioLoop]: one tick.  The [requestAnimationFrame] at its
    end asks for the next tick, which arrives as the next event. *)
Definition processAudioLoop (t : AudioTick)
    (s : AnalysisService) (m : AnalysisMetrics)
  : AnalysisService * AnalysisMetrics :=
  if negb (isRunning s) || negb (analyser s) || negb (dataArray s)
  then (s, m)
  else
    let rms := rms_of (data t) in
    let safe := rms + 1 in
    let level := (Math_log10 safe / Math_log10 200) * 100 in
    let m :=
      set_audioLevel (JS.Math_max 0 (JS.Math_min 100 (JS.Math_round level))) m in
    let rmsV :=
      if JS.Qlt_bool 5 rms then
        let pushed := rmsValues s ++ [rms] in
        if (5 <? length pushed)%nat then tail pushed else pushed
      else rmsValues s in
    let isSp := JS.Qlt_bool SILENCE_THRESHOLD rms in
    let last := if isSp then now t else lastSpeechTimestamp s in
    let hist := prune (now t) (speechHistory s ++ [mkFrame (now t) isSp]) in
    let s' := mkService (audioContext s) (analyser s) (dataArray s)
                        hist rmsV last (gazeHistory s) (isRunning s) in
    (s', calculateAudioMetrics (now2 t) s' m).

(** [initAudio]: a second call while the context exists does nothing;
    the first call runs the first tick itself. *)
Definition initAudio (t : AudioTick)
    (s : AnalysisService) (m : AnalysisMetrics)
  : AnalysisService * AnalysisMetrics :=
  if audioContext s then (s, m) else processAudioLoop t (opened s) m.

(** Whether the energy a tick reads is above the speech threshold. *)
Definition aboveThreshold (t : AudioTick) : bool :=
  JS.Qlt_bool SILENCE_THRESHOLD (rms_of (data t)).

(** Ticks that follow one another. *)
Definition audioTicks (ts : list AudioTick)
    (sm : AnalysisService * AnalysisMetrics)
  : AnalysisService * AnalysisMetrics :=
  fold_left (fun sm t => processAudioLoop t (fst sm) (snd sm)) ts sm.

End Math.

(** The service of a first [initAudio] as its first tick finds it. *)
Definition started : AnalysisService := opened initialService.

(** The clock never goes back: the readings of the ticks, in the order
    they are taken, starting at or after [c]. *)
Fixpoint clockOrdered (c : Z) (ts : list AudioTick) : Prop :=
  match ts with
  | [] => True
  | t :: rest => (c <= now t)%Z /\ (now t <= now2 t)%Z /\ clockOrdered (now2 t) rest
  end.

(** *** Video *)

Record Landmark := mkLandmark { x : Q; y : Q; z : Q }.

(** The inner function [getRatio] of [checkGaze]. *)
Definition getRatio (inner outer iris : Landmark) : Q :=
  let eyeWidth := Qabs (x outer - x inner) in
  let irisPos := Qabs (x iris - x inner) in
  if JS.Qlt_bool 0 eyeWidth then irisPos / eyeWidth else 1 # 2.

(** The band test applied to each eye's ratio. *)
Definition centered (r : Q) : bool :=
  JS.Qlt_bool (2 # 5) r && JS.Qlt_bool r (3 # 5).

(** [checkGaze].  Reading [.x] of a missing landmark throws a
    [TypeError]: the result is then [None].  The landmarks are read in
    the order of the source, so a head turned away answers [false]
    before any eye landmark is touched. *)
Definition checkGaze (landmarks : list Landmark) : option bool :=
  nose ← landmarks !! 1%nat;
  if JS.Qlt_bool (x nose) (2 # 5) || JS.Qlt_bool (3 # 5) (x nose)
  then Some false
  else
    rInner ← landmarks !! 33%nat;
    rOuter ← landmarks !! 133%nat;
    rIris ← landmarks !! 468%nat;
    let rightEyeRatio := getRatio rInner rOuter rIris in
    lInner ← landmarks !! 362%nat;
    lOuter ← landmarks !! 263%nat;
    lIris ← landmarks !! 473%nat;
    let leftEyeRatio := getRatio lInner lOuter lIris in
    Some (centered rightEyeRatio && centered leftEyeRatio).

Definition THRESHOLD : Q := 3 # 4.

Definition lookingCount (h : list bool) : nat :=
  length (filter (fun b => b = true) h).

(** The score before [Math.round]. *)
Definition eyeContactScore (h : list bool) : Q :=
  let frac := Qnat (lookingCount h) / Qnat (length h) in
  let score := frac * 100 in
  if JS.Qlt_bool frac THRESHOLD then score * frac else score.

(** The adaptive confidence computed after the eye contact. *)
Definition adaptConfidence (m : AnalysisMetrics) : AnalysisMetrics :=
  let isSpeaking := JS.Qlt_bool 0 (speechRate m) in
  if isSpeaking then
    let paceScore := 100 in
    let paceScore := if JS.Qlt_bool 180 (speechRate m) then 70 else paceScore in
    let paceScore := if JS.Qlt_bool (speechRate m) 80 then 60 else paceScore in
    let stabilityScore := volumeStability m * 10 in
    set_confidence
      (JS.Math_round (eyeContact m * (2 # 5) + stabilityScore * (3 # 10)
                      + paceScore * (3 # 10))) m
  else set_confidence (eyeContact m) m.

(** [onFaceResults].  [results.multiFaceLandmarks] may be missing or
    empty; [None] as a result is the exception of [checkGaze] leaving
    the callback, before anything was written. *)
Definition onFaceResults (multiFaceLandmarks : option (list (list Landmark)))
    (s : AnalysisService) (m : AnalysisMetrics)
  : option (AnalysisService * AnalysisMetrics) :=
  match multiFaceLandmarks with
  | Some (landmarks :: _) =>
      isLooking ← checkGaze landmarks;
      let pushed := gazeHistory s ++ [isLooking] in
      let hist := if (20 <? length pushed)%nat then tail pushed else pushed in
      let m := set_eyeContact (JS.Math_round (eyeContactScore hist)) m in
      Some (mkService (audioContext s) (analyser s) (dataArray s)
                      (speechHistory s) (rmsValues s) (lastSpeechTimestamp s)
                      hist (isRunning s),
            adaptConfidence m)
  | _ => Some (s, set_confidence 0 (set_eyeContact 0 m))
  end.

End Analysis.

(** ** The streaming session channel ([GeminiLiveClient]) *)

Module Live.

Definition INPUT_SAMPLE_RATE : Q := 16000.
Definition OUTPUT_SAMPLE_RATE : Q := 24000.

(** [WebSocket.readyState]. *)
Inductive ReadyState := CONNECTING | OPEN | CLOSING | CLOSED.

Definition is_OPEN (r : ReadyState) : bool :=
  match r with OPEN => true | _ => false end.

Record AudioContext := mkContext { contextId : nat; sampleRate : Q }.

(** The argument of [session.sendRealtimeInput].  A media payload is
    kept as the samples of its [Int16Array]; [toBase64] only encodes
    them. *)
Inductive RealtimeInput :=
| Media (mimeType : string) (pcm16 : list Z)
| Content (text : string).

(** The methods of the SDK session object. *)
Inductive SessionCall :=
| sendRealtimeInput (input : RealtimeInput)
| sendToolResponse (name id : string)
| close.

(** One [source.start(when)] of the playback path; [clock] is the value
    of [audioContext.currentTime] read just before. *)
Record Scheduled := mkScheduled {
  source : nat;
  startTime : Q;
  duration : Q;
  clock : Q
}.

(** What the client acts on outside itself:
    - [processors]: one entry per [ScriptProcessorNode] ever created,
      [true] while its [onaudioprocess] handler is set;
    - [calls]: the calls made on session objects, oldest first, each with
      the session it was made on;
    - [playback]: the [start] calls on buffer sources, oldest first;
    - [stopped]: the [stop] calls on buffer sources;
    - [closedContexts]: the audio contexts [close] was called on. *)
Record Devices := mkDevices {
  processors : list bool;
  calls : list (nat * SessionCall);
  playback : list Scheduled;
  stopped : list nat;
  closedContexts : list nat
}.

Definition noDevices : Devices := mkDevices [] [] [] [] [].

(** The private fields of the class, in the order of the source. *)
Record GeminiLiveClient := mkClient {
  session : option nat;
  audioContext : option AudioContext;
  inputProcessor : option nat;
  inputSource : option nat;
  lastSpeechTime : Z;
  isSpeaking : bool;
  nextStartTime : Q;
  audioQueue : list nat;
  isSessionOpen : bool;
  ws : option nat
}.

(** The field initialisers. *)
Definition newClient : GeminiLiveClient :=
  mkClient None None None None 0%Z false 0 [] false None.

Definition is_realtime (c : nat * SessionCall) : bool :=
  match snd c with sendRealtimeInput _ => true | _ => false end.

Definition is_toolResponse (c : nat * SessionCall) : bool :=
  match snd c with sendToolResponse _ _ => true | _ => false end.

(** The number of times the transmit path [session.sendRealtimeInput]
    was entered. *)
Definition transmitted (d : Devices) : nat :=
  length (List.filter is_realtime (calls d)).

Definition log_call (s : nat) (k : SessionCall) (d : Devices) : Devices :=
  mkDevices (processors d) (calls d ++ [(s, k)]) (playback d) (stopped d)
            (closedContexts d).

(** [safeSend].  [ready] is [this.ws.readyState] as the call finds it.
    The [catch] around the SDK call only logs. *)
Definition safeSend (ready : ReadyState) (data : RealtimeInput)
    (c : GeminiLiveClient) (d : Devices) : Devices :=
  match isSessionOpen c, session c, ws c with
  | true, Some s, Some _ =>
      if negb (is_OPEN ready) then d
      else log_call s (sendRealtimeInput data) d
  | _, _, _ => d
  end.

(** [sendControlMessage]. *)
Definition sendControlMessage (ready : ReadyState) (text : string)
    (c : GeminiLiveClient) (d : Devices) : Devices :=
  safeSend ready (Content ("[SYSTEM]: " ++ text)%string) c d.

(** [stopAudioInput]: the handler of the node the client holds is
    cleared, and both fields are reset. *)
Definition stopAudioInput (c : GeminiLiveClient) (d : Devices)
  : GeminiLiveClient * Devices :=
  let d' :=
    match inputProcessor c with
    | Some p => mkDevices (<[p := false]> (processors d)) (calls d)
                          (playback d) (stopped d) (closedContexts d)
    | None => d
    end in
  (mkClient (session c) (audioContext c) None None (lastSpeechTime c)
            (isSpeaking c) (nextStartTime c) (audioQueue c)
            (isSessionOpen c) (ws c),
   d').

(** [disconnect] is an [async] method with two [await]s.  A call runs to
    the first [await] it meets; what is left runs when the awaited
    promise settles.  The phases name the [await] a call is parked on. *)
Inductive DisconnectPhase := AwaitSessionClose | AwaitContextClose.

(** After [await this.audioContext.close()]. *)
Definition disconnect_after_context (c : GeminiLiveClient) : GeminiLiveClient :=
  mkClient (session c) None (inputProcessor c) (inputSource c)
           (lastSpeechTime c) (isSpeaking c) (nextStartTime c)
           (audioQueue c) (isSessionOpen c) (ws c).

(** From [this.session = null] to the second [await]. *)
Definition disconnect_after_session (c : GeminiLiveClient) (d : Devices)
  : option DisconnectPhase * GeminiLiveClient * Devices :=
  let c1 := mkClient None (audioContext c) (inputProcessor c) (inputSource c)
                     (lastSpeechTime c) (isSpeaking c) (nextStartTime c)
                     [] (isSessionOpen c) None in
  let d1 := mkDevices (processors d) (calls d) (playback d)
                      (stopped d ++ audioQueue c) (closedContexts d) in
  match audioContext c with
  | Some ctx =>
      (Some AwaitContextClose, c1,
       mkDevices (processors d1) (calls d1) (playback d1) (stopped d1)
                 (closedContexts d1 ++ [contextId ctx]))
  | None => (None, c1, d1)
  end.

(** The call itself, up to its first [await]. *)
Definition disconnect_start (c : GeminiLiveClient) (d : Devices)
  : option DisconnectPhase * GeminiLiveClient * Devices :=
  let '(c1, d1) := stopAudioInput c d in
  let c2 := mkClient (session c1) (audioContext c1) (inputProcessor c1)
                     (inputSource c1) (lastSpeechTime c1) (isSpeaking c1)
                     (nextStartTime c1) (audioQueue c1) false (ws c1) in
  match session c2 with
  | Some s => (Some AwaitSessionClose, c2, log_call s close d1)
  | None => disconnect_after_session c2 d1
  end.

(** A parked call resumes. *)
Definition disconnect_resume (ph : DisconnectPhase)
    (c : GeminiLiveClient) (d : Devices)
  : option DisconnectPhase * GeminiLiveClient * Devices :=
  match ph with
  | AwaitSessionClose => disconnect_after_session c d
  | AwaitContextClose => (None, disconnect_after_context c, d)
  end.

(** [await client.disconnect()] with nothing else running in between:
    a call has at most two [await]s. *)
Definition disconnect (c : GeminiLiveClient) (d : Devices)
  : GeminiLiveClient * Devices :=
  match disconnect_start c d with
  | (None, c1, d1) => (c1, d1)
  | (Some ph, c1, d1) =>
      match disconnect_resume ph c1 d1 with
      | (None, c2, d2) => (c2, d2)
      | (Some ph', c2, d2) =>
          let '(_, c3, d3) := disconnect_resume ph' c2 d2 in (c3, d3)
      end
  end.

(** [connect], up to [await this.ai.live.connect(...)].  The call
    [this.disconnect()] is not awaited: its first stretch runs, the rest
    stays parked.  [ctx] names the new audio context. *)
Definition connect_begin (ctx : nat) (c : GeminiLiveClient) (d : Devices)
  : option DisconnectPhase * GeminiLiveClient * Devices :=
  let '(ph, c1, d1) := disconnect_start c d in
  (ph,
   mkClient (session c1) (Some (mkContext ctx OUTPUT_SAMPLE_RATE))
            (inputProcessor c1) (inputSource c1) (lastSpeechTime c1)
            (isSpeaking c1) (nextStartTime c1) (audioQueue c1)
            (isSessionOpen c1) (ws c1),
   d1).

(** The connection promise resolved: [liveConn] is session [s], and
    [liveConn.websocket] is [w]. *)
Definition connect_resolved (s : nat) (w : option nat) (c : GeminiLiveClient)
  : GeminiLiveClient :=
  mkClient (Some s) (audioContext c) (inputProcessor c) (inputSource c)
           (lastSpeechTime c) (isSpeaking c) (nextStartTime c)
           (audioQueue c) (isSessionOpen c) w.

(** What the callbacks [onopen], [onclose] and [onerror] do to the
    client before they notify the owner. *)
Definition set_open (b : bool) (c : GeminiLiveClient) : GeminiLiveClient :=
  mkClient (session c) (audioContext c) (inputProcessor c) (inputSource c)
           (lastSpeechTime c) (isSpeaking c) (nextStartTime c)
           (audioQueue c) b (ws c).

(** [startAudioInput]: a new processor node with its handler set. *)
Definition startAudioInput (c : GeminiLiveClient) (d : Devices)
  : GeminiLiveClient * Devices :=
  match audioContext c with
  | None => (c, d)
  | Some _ =>
      let p := length (processors d) in
      (mkClient (session c) (audioContext c) (Some p) (Some p)
                (lastSpeechTime c) (isSpeaking c) (nextStartTime c)
                (audioQueue c) (isSessionOpen c) (ws c),
       mkDevices (processors d ++ [true]) (calls d) (playback d)
                 (stopped d) (closedContexts d))
  end.

(** [downsample]: the sample at [floor(i * compression)] for each output
    index, scaled and stored into an [Int16Array].  An index past the
    end reads [undefined], which the array stores as 0. *)
Definition downsample (buffer : list Q) (inputRate outputRate : Q) : list Z :=
  let compression := inputRate / outputRate in
  let length := Qfloor (inject_Z (Z.of_nat (length buffer)) / compression) in
  map (fun i : nat =>
         match buffer !! Z.to_nat (Qfloor (inject_Z (Z.of_nat i) * compression)) with
         | Some s =>
             JS.ToInt16 (if JS.Qlt_bool s 0 then s * 32768 else s * 32767)
         | None => 0%Z
         end)
      (seq 0 (Z.to_nat length)).

(** [new Int16Array(320).fill(0)]. *)
Definition silence : list Z := repeat 0%Z 320.

Definition mean_square (input : list Q) : Q :=
  fold_left (fun acc v => acc + v * v) input 0
  / inject_Z (Z.of_nat (length input)).

(** What a capture tick reads from outside. *)
Record CaptureTick := mkCapture {
  input : list Q;
  now : Z;
  ready : ReadyState
}.

(** The body of the [onaudioprocess] handler installed by
    [startAudioInput].  The test [rms > 0.02] on
    [rms = Math.sqrt(sum / input.length)] is taken on the squares.
    With no audio context the read of [sampleRate] throws inside the
    [try]: the VAD fields keep their new values and nothing is sent. *)
Definition onaudioprocess (t : CaptureTick)
    (c : GeminiLiveClient) (d : Devices) : GeminiLiveClient * Devices :=
  match isSessionOpen c, session c with
  | true, Some _ =>
      let speech := JS.Qlt_bool (1 # 2500) (mean_square (input t)) in
      let speaking1 := if speech then true else isSpeaking c in
      let last := if speech then now t else lastSpeechTime c in
      let speaking2 := if (1200 <? now t - last)%Z then false else speaking1 in
      let c' := mkClient (session c) (audioContext c) (inputProcessor c)
                         (inputSource c) last speaking2 (nextStartTime c)
                         (audioQueue c) (isSessionOpen c) (ws c) in
      let pcm16 :=
        if speaking2 then
          match audioContext c with
          | Some ctx => Some (downsample (input t) (sampleRate ctx) INPUT_SAMPLE_RATE)
          | None => None
          end
        else Some silence in
      match pcm16 with
      | Some frame =>
          (c', safeSend (ready t) (Media "audio/pcm;rate=16000" frame) c' d)
      | None => (c', d)
      end
  | _, _ => (c, d)
  end.

(** A capture tick of processor node [p]: the browser calls the handler
    of that node if one is set. *)
Definition capture (p : nat) (t : CaptureTick)
    (c : GeminiLiveClient) (d : Devices) : GeminiLiveClient * Devices :=
  match processors d !! p with
  | Some true => onaudioprocess t c d
  | _ => (c, d)
  end.

(** The [data] of an inline audio part after [atob]: the bytes, or
    [Invalid] when [atob] throws. *)
Inductive Base64 := Bytes (bytes : list Z) | Invalid.

(** [fromBase64] then [createAudioBuffer], as far as the scheduling
    reads them: the duration of the buffer.  An odd byte count makes the
    [Int16Array] constructor throw, an empty buffer makes [createBuffer]
    throw. *)
Definition bufferDuration (data : Base64) : option Q :=
  match data with
  | Invalid => None
  | Bytes bytes =>
      let n := length bytes in
      if Nat.even n && negb (Nat.eqb n 0)
      then Some (inject_Z (Z.of_nat (Nat.div2 n)) / OUTPUT_SAMPLE_RATE)
      else None
  end.

(** [queueAudio]; [t] is [audioContext.currentTime].  An exception in
    the [try] leaves the client as it was. *)
Definition queueAudio (data : Base64) (t : Q)
    (c : GeminiLiveClient) (d : Devices) : GeminiLiveClient * Devices :=
  match audioContext c, isSessionOpen c with
  | Some _, true =>
      match bufferDuration data with
      | None => (c, d)
      | Some dur =>
          let src := length (playback d) in
          let next := if JS.Qlt_bool (nextStartTime c) t then t
                      else nextStartTime c in
          (mkClient (session c) (audioContext c) (inputProcessor c)
                    (inputSource c) (lastSpeechTime c) (isSpeaking c)
                    (next + dur) (audioQueue c ++ [src])
                    (isSessionOpen c) (ws c),
           mkDevices (processors d) (calls d)
                     (playback d ++ [mkScheduled src next dur t])
                     (stopped d) (closedContexts d))
      end
  | _, _ => (c, d)
  end.

(** The [onended] handler of buffer source [src]. *)
Definition onended (src : nat) (c : GeminiLiveClient) : GeminiLiveClient :=
  mkClient (session c) (audioContext c) (inputProcessor c) (inputSource c)
           (lastSpeechTime c) (isSpeaking c) (nextStartTime c)
           (List.filter (fun s => negb (Nat.eqb s src)) (audioQueue c))
           (isSessionOpen c) (ws c).

(** *** Calls of [disconnect] that overlap *)

(** How far a call of [disconnect] has come. *)
Inductive CallState :=
| NotStarted
| Parked (ph : DisconnectPhase)
| Finished.

Definition call_state (ph : option DisconnectPhase) : CallState :=
  match ph with Some p => Parked p | None => Finished end.

(** The call runs its next stretch. *)
Definition advance (k : CallState) (c : GeminiLiveClient) (d : Devices)
  : CallState * GeminiLiveClient * Devices :=
  match k with
  | NotStarted =>
      let '(ph, c', d') := disconnect_start c d in (call_state ph, c', d')
  | Parked p =>
      let '(ph, c', d') := disconnect_resume p c d in (call_state ph, c', d')
  | Finished => (Finished, c, d)
  end.

(** Two calls; the schedule says which of them runs next ([true]: the
    first). *)
Fixpoint turns (schedule : list bool) (k1 k2 : CallState)
    (c : GeminiLiveClient) (d : Devices)
  : CallState * CallState * GeminiLiveClient * Devices :=
  match schedule with
  | [] => (k1, k2, c, d)
  | true :: rest =>
      let '(k1', c', d') := advance k1 c d in turns rest k1' k2 c' d'
  | false :: rest =>
      let '(k2', c', d') := advance k2 c d in turns rest k1 k2' c' d'
  end.

(** *** What follows a call of [disconnect] *)

(** After the call: capture ticks of any processor node, and the parked
    call resuming. *)
Inductive Activity :=
| Tick (p : nat) (t : CaptureTick)
| Settle.

Fixpoint carry_on (acts : list Activity) (k : CallState)
    (c : GeminiLiveClient) (d : Devices) : GeminiLiveClient * Devices :=
  match acts with
  | [] => (c, d)
  | Tick p t :: rest =>
      let '(c', d') := capture p t c d in carry_on rest k c' d'
  | Settle :: rest =>
      let '(k', c', d') := advance k c d in carry_on rest k' c' d'
  end.

(** Capture ticks alone. *)
Definition captures (ticks : list (nat * CaptureTick))
    (c : GeminiLiveClient) (d : Devices) : GeminiLiveClient * Devices :=
  fold_left (fun cd pt => capture (fst pt) (snd pt) (fst cd) (snd cd))
            ticks (c, d).

(** *** The playback schedule *)

(** Each start time is the later of the clock read when the buffer was
    scheduled and the end of the buffer before it ([prevEnd], 0 before
    the first buffer). *)
Fixpoint chained (prevEnd : Q) (l : list Scheduled) : Prop :=
  match l with
  | [] => True
  | e :: rest =>
      startTime e == Qmax (clock e) prevEnd
      /\ chained (startTime e + duration e) rest
  end.

(** The end of the last scheduled buffer. *)
Definition lastEnd (l : list Scheduled) : Q :=
  fold_left (fun _ e => startTime e + duration e) l 0.

End Live.

(** ** The conversation orchestrator ([InterviewGraph]) *)

Module Graph.

Import Analysis Live.

(** The arguments of a [save_assessment] call, typed [any] in the
    source: every field may be missing.  ([feedback] and [strengths] are
    also fields of [QuestionAnalysis], hence the prefix.) *)
Record ToolArgs := mkArgs {
  full_question_text : option string;
  question_topic : option string;
  user_answer_summary : option string;
  content_score : option Q;
  delivery_score : option Q;
  arg_feedback : option string;
  arg_strengths : option (list string);
  areas_for_improvement : option (list string)
}.

Definition noArgs : ToolArgs :=
  mkArgs None None None None None None None None.

Inductive Role := ai | user.

(** [Message] of [types.ts]. *)
Record Message := mkMessage {
  role : Role;
  text : string;
  timestamp : Z
}.

(** [QuestionAnalysis] of [types.ts].  [metrics] is a reference to a
    metrics object in the store. *)
Record QuestionAnalysis := mkAnalysis {
  questionId : nat;
  questionText : string;
  userAnswer : string;
  metrics : nat;
  contentScore : Q;
  deliveryScore : Q;
  feedback : string;
  strengths : list string;
  weaknesses : list string
}.

(** [LiveConnectionState]; ['CONNECTING'] has an underscore here because
    [WebSocket.CONNECTING] has the name. *)
Inductive LiveConnectionState :=
| DISCONNECTED | CONNECTING_ | CONNECTED | ERROR.

(** [InterviewConfig]: the fields the orchestrator reads. *)
Record InterviewConfig := mkConfig {
  industry : string;
  roleTitle : option string;
  duration : Q;
  jdText : string;
  resumeText : string
}.

(** [InterviewState] of [types.ts]. *)
Record InterviewState := mkState {
  connectionState : LiveConnectionState;
  config : InterviewConfig;
  transcript : list Message;
  analyses : list QuestionAnalysis;
  currentQuestionIndex : nat;
  totalQuestions : nat;
  currentQuestionText : string;
  realtimeInputText : string;
  realtimeOutputText : string
}.

(** The private fields of the class next to [state]; [onEnd] and
    [recognition] keep whether the callback was given and whether the
    browser has a speech recogniser.  The [listeners] only observe. *)
Record InterviewGraph := mkGraph {
  state : InterviewState;
  onEnd : bool;
  recognition : bool;
  aiTextBuffer : string;
  userTranscriptBuffer : string
}.

(** The orchestrator with what it owns and shares:
    - its streaming client and the devices the client acts on, with the
      [disconnect] calls parked on an [await];
    - the analysis service singleton, the store of metrics objects and
      the reference [analysisService.currentMetrics] into it;
    - the delays of the pending [setTimeout] callbacks;
    - the states the completion callback was called in, oldest first. *)
Record World := mkWorld {
  graph : InterviewGraph;
  liveClient : GeminiLiveClient;
  devices : Devices;
  parked : list DisconnectPhase;
  analysisService : AnalysisService;
  currentMetrics : nat;
  heap : gmap nat AnalysisMetrics;
  timers : list Z;
  onEndCalls : list InterviewState
}.

Definition with_graph (g : InterviewGraph) (w : World) : World :=
  mkWorld g (liveClient w) (devices w) (parked w) (analysisService w)
          (currentMetrics w) (heap w) (timers w) (onEndCalls w).

Definition with_live (cd : GeminiLiveClient * Devices) (w : World) : World :=
  mkWorld (graph w) (fst cd) (snd cd) (parked w) (analysisService w)
          (currentMetrics w) (heap w) (timers w) (onEndCalls w).

Definition with_parked (p : list DisconnectPhase) (w : World) : World :=
  mkWorld (graph w) (liveClient w) (devices w) p (analysisService w)
          (currentMetrics w) (heap w) (timers w) (onEndCalls w).

Definition with_analysis (s : AnalysisService) (h : gmap nat AnalysisMetrics)
    (w : World) : World :=
  mkWorld (graph w) (liveClient w) (devices w) (parked w) s
          (currentMetrics w) h (timers w) (onEndCalls w).

Definition with_timers (t : list Z) (w : World) : World :=
  mkWorld (graph w) (liveClient w) (devices w) (parked w) (analysisService w)
          (currentMetrics w) (heap w) t (onEndCalls w).

Definition with_onEndCalls (l : list InterviewState) (w : World) : World :=
  mkWorld (graph w) (liveClient w) (devices w) (parked w) (analysisService w)
          (currentMetrics w) (heap w) (timers w) l.

Definition with_state (s : InterviewState) (g : InterviewGraph) : InterviewGraph :=
  mkGraph s (onEnd g) (recognition g) (aiTextBuffer g) (userTranscriptBuffer g).

(** The content of a metrics object. *)
Definition deref (h : gmap nat AnalysisMetrics) (l : nat) : AnalysisMetrics :=
  default initialMetrics (h !! l).

(** The breakpoints of the constructor. *)
Definition totalQs (duration : Q) : nat :=
  if Qle_bool 30 duration then 7%nat
  else if Qle_bool 20 duration then 5%nat
  else 3%nat.

(** [new InterviewGraph(config, onEnd)] in a page that has just loaded
    the analysis service module and has an API key (the client's
    constructor throws without one). *)
Definition newGraph (cfg : InterviewConfig) (onEnd recognition : bool) : World :=
  mkWorld
    (mkGraph
       (mkState DISCONNECTED cfg [] [] 0 (totalQs (duration cfg))
                "Waiting for interviewer..." "" "")
       onEnd recognition "" "")
    newClient noDevices []
    initialService 0%nat {[ 0%nat := initialMetrics ]}
    [] [].

(** [updateState({ connectionState })]. *)
Definition set_connectionState (cs : LiveConnectionState) (w : World) : World :=
  let st := state (graph w) in
  with_graph
    (with_state
       (mkState cs (config st) (transcript st) (analyses st)
                (currentQuestionIndex st) (totalQuestions st)
                (currentQuestionText st) (realtimeInputText st)
                (realtimeOutputText st))
       (graph w)) w.

(** The [onTranscript] handler. *)
Definition onTranscript (text : string) (isUser isFinal : bool) (w : World) : World :=
  if isUser then w
  else
    let g := graph w in
    let st := state g in
    let buf := (aiTextBuffer g ++ text)%string in
    with_graph
      (mkGraph
         (mkState (connectionState st) (config st) (transcript st)
                  (analyses st) (currentQuestionIndex st) (totalQuestions st)
                  buf (realtimeInputText st) (realtimeOutputText st))
         (onEnd g) (recognition g) buf (userTranscriptBuffer g)) w.

(** The [onresult] handler of the speech recogniser; [results] are the
    entries from [event.resultIndex] on, each with its [isFinal] flag. *)
Definition onresult (results : list (bool * string)) (w : World) : World :=
  let g := graph w in
  let st := state g in
  let buf :=
    fold_left (fun (b : string) (r : bool * string) =>
                 if fst r then (b ++ snd r ++ " ")%string else b)
              results (userTranscriptBuffer g) in
  let interim :=
    fold_left (fun (b : string) (r : bool * string) =>
                 if fst r then b else (b ++ snd r)%string)
              results ""%string in
  let st' :=
    if JS.truthy (Some interim)
    then mkState (connectionState st) (config st) (transcript st)
                 (analyses st) (currentQuestionIndex st) (totalQuestions st)
                 (currentQuestionText st) interim (realtimeOutputText st)
    else st in
  with_graph (mkGraph st' (onEnd g) (recognition g) (aiTextBuffer g) buf) w.

(** The question text and the answer [handleAssessment] records. *)
Definition realQuestion (args : ToolArgs) (st : InterviewState) : string :=
  JS.or_lit
    (JS.or_else
       (JS.or_else (full_question_text args) (Some (currentQuestionText st)))
       (question_topic args))
    "Interview Question".

Definition rawUserAnswer (args : ToolArgs) (g : InterviewGraph) : string :=
  if (0 <? String.length (JS.trim (userTranscriptBuffer g)))%nat
  then JS.trim (userTranscriptBuffer g)
  else JS.or_lit (user_answer_summary args) "(No audio response detected)".

(** [handleAssessment]; [now] is [Date.now()], read for both transcript
    entries within one expression.  The spread
    [{ ...analysisService.currentMetrics }] allocates a new object. *)
Definition handleAssessment (args : ToolArgs) (now : Z) (w : World) : World :=
  let g := graph w in
  let st := state g in
  let copy := fresh (dom (heap w)) in
  let h := <[ copy := deref (heap w) (currentMetrics w) ]> (heap w) in
  let q := realQuestion args st in
  let a := rawUserAnswer args g in
  let newAnalysis :=
    mkAnalysis (length (analyses st) + 1) q a copy
               (JS.num_or (content_score args) 5)
               (JS.num_or (delivery_score args) 5)
               (JS.or_lit (arg_feedback args) "No feedback provided")
               (default [] (arg_strengths args))
               (default [] (areas_for_improvement args)) in
  let st' :=
    mkState (connectionState st) (config st)
            (transcript st ++ [mkMessage ai q now; mkMessage user a now])
            (analyses st ++ [newAnalysis])
            (currentQuestionIndex st) (totalQuestions st)
            (currentQuestionText st) (realtimeInputText st)
            (realtimeOutputText st) in
  with_analysis (analysisService w) h (with_graph (with_state st' g) w).

Definition WRAP_UP : string :=
  "We have reached the target number of questions. Please give a brief closing statement and say goodbye.".

Definition GRACE_DELAY : Z := 6000.

(** What a handler reads from outside while it runs. *)
Record Readings := mkReadings {
  readyState : ReadyState;
  currentTime : Q;
  dateNow : Z
}.

(** The [onToolCall] handler.  A call may come without [args]:
    [handleAssessment] then throws on its first read of a field, before
    it has written anything, and the client logs the rejection.  The
    handler runs without a break; the state [handleAssessment] has
    published to the listeners on the way is that of [w1]. *)
Definition onToolCall (name : string) (args : option ToolArgs) (r : Readings)
    (w : World) : World :=
  if String.eqb name "save_assessment" then
    match args with
    | None => w
    | Some args =>
        let w1 := handleAssessment args (dateNow r) w in
        let g := graph w1 in
        let st := state g in
        let st' :=
          mkState (connectionState st) (config st) (transcript st) (analyses st)
                  (currentQuestionIndex st + 1) (totalQuestions st)
                  (currentQuestionText st) "" (realtimeOutputText st) in
        let w2 := with_graph (mkGraph st' (onEnd g) (recognition g) "" "") w1 in
        if (totalQuestions st' <=? currentQuestionIndex st')%nat then
          let d := sendControlMessage (readyState r) WRAP_UP
                                      (liveClient w2) (devices w2) in
          with_timers (timers w2 ++ [GRACE_DELAY])
                      (with_live (liveClient w2, d) w2)
        else w2
    end
  else w.

(** [stopSession].  [disconnect()] is called without [await]: what it
    leaves for later is parked. *)
Definition stopSession (w : World) : World :=
  let '(ph, c, d) := disconnect_start (liveClient w) (devices w) in
  let w1 := with_live (c, d) w in
  let w2 := match ph with
            | Some p => with_parked (parked w1 ++ [p]) w1
            | None => w1
            end in
  let w3 := with_analysis (Analysis.stop (analysisService w2)) (heap w2) w2 in
  set_connectionState DISCONNECTED w3.

(** The callback given to [setTimeout] by the wrap-up. *)
Definition wrapUpTimeout (w : World) : World :=
  let w1 := stopSession w in
  if onEnd (graph w1)
  then with_onEndCalls (onEndCalls w1 ++ [state (graph w1)]) w1
  else w1.

(** The inbound message, as far as the client reads it. *)
Record Part := mkPart {
  inlineData : option Base64;
  partText : option string
}.

Record FunctionCall := mkCall {
  callName : string;
  callId : string;
  callArgs : option ToolArgs
}.

Record LiveServerMessage := mkServerMessage {
  parts : option (list Part);
  toolCall : option (list FunctionCall)
}.

Definition handlePart (r : Readings) (w : World) (p : Part) : World :=
  let w1 :=
    match inlineData p with
    | Some data =>
        with_live (queueAudio data (currentTime r) (liveClient w) (devices w)) w
    | None => w
    end in
  match partText p with
  | Some t => if JS.truthy (Some t) then onTranscript t false false w1 else w1
  | None => w1
  end.

(** [safeHandleMessage], with the orchestrator's handlers as [events]. *)
Definition safeHandleMessage (m : LiveServerMessage) (r : Readings)
    (w : World) : World :=
  if negb (isSessionOpen (liveClient w)) then w
  else
    let w1 := fold_left (handlePart r) (default [] (parts m)) w in
    fold_left (fun w c => onToolCall (callName c) (callArgs c) r w)
              (default [] (toolCall m)) w1.

(** The callbacks [onopen], [onclose] and [onerror] of the connection. *)
Definition onopen (w : World) : World :=
  set_connectionState CONNECTED
    (with_live (set_open true (liveClient w), devices w) w).

Definition onclose (w : World) : World :=
  set_connectionState DISCONNECTED
    (with_live (set_open false (liveClient w), devices w) w).

Definition onerror (w : World) : World :=
  set_connectionState ERROR
    (with_live (set_open false (liveClient w), devices w) w).

(** A parked [disconnect] call resumes. *)
Definition resume (i : nat) (w : World) : World :=
  match parked w !! i with
  | None => w
  | Some ph =>
      let '(ph', c, d) := disconnect_resume ph (liveClient w) (devices w) in
      let rest := take i (parked w) ++ drop (S i) (parked w) in
      with_parked (match ph' with Some p => rest ++ [p] | None => rest end)
                  (with_live (c, d) w)
  end.

(** [liveClient.connect(config)] up to its [await]. *)
Definition connecting (ctx : nat) (w : World) : World :=
  let '(ph, c, d) := connect_begin ctx (liveClient w) (devices w) in
  let w1 := with_live (c, d) w in
  match ph with
  | Some p => with_parked (parked w1 ++ [p]) w1
  | None => w1
  end.

(** [nextTopic]. *)
Definition nextTopic (r : ReadyState) (w : World) : World :=
  with_live
    (liveClient w,
     sendControlMessage r "Please move on to the next topic immediately."
                        (liveClient w) (devices w)) w.

(** [toggleMic]. *)
Definition toggleMic (muted : bool) (w : World) : World :=
  if muted then with_live (stopAudioInput (liveClient w) (devices w)) w
  else w.

(** The oldest pending timeout fires. *)
Definition timeout (w : World) : World :=
  match timers w with
  | [] => w
  | _ :: rest => wrapUpTimeout (with_timers rest w)
  end.

Section Math.

Variables Math_sqrt Math_log10 : Q -> Q.

(** An audio tick of the analysis service writes the live metrics
    object in place. *)
Definition audioFrame (t : AudioTick) (w : World) : World :=
  let '(s, m) :=
    processAudioLoop Math_sqrt Math_log10 t (analysisService w)
                     (deref (heap w) (currentMetrics w)) in
  with_analysis s (<[ currentMetrics w := m ]> (heap w)) w.

(** So does a landmark frame, unless [checkGaze] throws. *)
Definition faceResults (r : option (list (list Landmark))) (w : World) : World :=
  match onFaceResults r (analysisService w)
                      (deref (heap w) (currentMetrics w)) with
  | Some (s, m) => with_analysis s (<[ currentMetrics w := m ]> (heap w)) w
  | None => w
  end.

(** [startSession] between its [await]s: the state goes to
    CONNECTING; the analysis service is initialised; the client
    connects; the capture starts. *)
Definition sessionStarting (w : World) : World :=
  set_connectionState CONNECTING_ w.

Definition audioInitialised (t : AudioTick) (w : World) : World :=
  let '(s, m) :=
    initAudio Math_sqrt Math_log10 t (analysisService w)
              (deref (heap w) (currentMetrics w)) in
  with_analysis s (<[ currentMetrics w := m ]> (heap w)) w.

(** What can happen to a running orchestrator: the stretches of
    [startSession], the callbacks of the connection, of the audio
    nodes, of the timers, of the speech recogniser and of the analysis
    service, and the calls of the page. *)
Inductive Event :=
| SessionStarting
| AudioInitialised (t : AudioTick)
| Connecting (ctx : nat)
| Connected (s : nat) (w : option nat)
| ConnectFailed
| AudioInputStarted
| Inbound (m : LiveServerMessage) (r : Readings)
| Capture (p : nat) (t : CaptureTick)
| SocketOpen
| SocketClose
| SocketError
| SourceEnded (src : nat)
| Resume (i : nat)
| Timeout
| SpeechResult (results : list (bool * string))
| AudioFrame (t : AudioTick)
| FaceResults (r : option (list (list Landmark)))
| StopSession
| NextTopic (r : ReadyState)
| MicMuted
| VideoInitialised.

Definition step (w : World) (e : Event) : World :=
  match e with
  | SessionStarting => sessionStarting w
  | AudioInitialised t => audioInitialised t w
  | Connecting ctx => connecting ctx w
  | Connected s k =>
      with_live (connect_resolved s k (liveClient w), devices w) w
  | ConnectFailed => set_connectionState ERROR w
  | AudioInputStarted =>
      with_live (startAudioInput (liveClient w) (devices w)) w
  | Inbound m r => safeHandleMessage m r w
  | Capture p t => with_live (capture p t (liveClient w) (devices w)) w
  | SocketOpen => onopen w
  | SocketClose => onclose w
  | SocketError => onerror w
  | SourceEnded src => with_live (onended src (liveClient w), devices w) w
  | Resume i => resume i w
  | Timeout => timeout w
  | SpeechResult rs => onresult rs w
  | AudioFrame t => audioFrame t w
  | FaceResults r => faceResults r w
  | StopSession => stopSession w
  | NextTopic r => nextTopic r w
  | MicMuted => toggleMic true w
  | VideoInitialised =>
      with_analysis (initVideo (analysisService w)) (heap w) w
  end.

Definition run (w : World) (es : list Event) : World := fold_left step es w.

End Math.

End Graph.

(** ** The feedback report ([FeedbackPage]) *)

Module Feedback.

Import Analysis Graph.

(** [x || 0] on a number. *)
Definition or_zero (x : Q) : Q := if Qeq_bool x 0 then 0 else x.

(** [analyses.reduce((acc, curr) => acc + f(curr), 0)]. *)
Definition sumOf {A} (f : A -> Q) (l : list A) : Q :=
  fold_left (fun acc curr => acc + f curr) l 0.

(** The aggregates the page computes before it renders. *)
Record Report := mkReport {
  avgContent : Q;
  avgDelivery : Q;
  avgEyeContact : Q;
  avgVolumeStab : Q;
  avgSpeechRate : Q;
  avgPauseRatio : Q;
  avgConfidence : Q;
  speechRateNorm : Q;
  pauseRatioNorm : Q;
  fluencyScore : Q;
  volStabNorm : Q;
  confidenceMetric : Q;
  overallScore : Q;
  currentTotal : Q
}.

(** The aggregate calculations of [FeedbackPage]; an assessment is given
    with the content of its metrics snapshot. *)
Definition report (analyses : list (QuestionAnalysis * AnalysisMetrics))
  : Report :=
  let totalQuestions := Qnat (Nat.max 1 (length analyses)) in
  let avgContent :=
    or_zero (JS.Math_round
               (sumOf (fun curr => contentScore (fst curr)) analyses
                / totalQuestions)) in
  let avgDelivery :=
    or_zero (JS.Math_round
               (sumOf (fun curr => deliveryScore (fst curr)) analyses
                / totalQuestions)) in
  let avgEyeContact :=
    or_zero (JS.Math_round
               (sumOf (fun curr => eyeContact (snd curr)) analyses
                / totalQuestions)) in
  let avgVolumeStab :=
    or_zero (sumOf (fun curr => volumeStability (snd curr)) analyses
             / totalQuestions) in
  let avgSpeechRate :=
    or_zero (sumOf (fun curr => speechRate (snd curr)) analyses
             / totalQuestions) in
  let avgPauseRatio :=
    or_zero (sumOf (fun curr => pauseRatio (snd curr)) analyses
             / totalQuestions) in
  let avgConfidence :=
    or_zero (JS.Math_round
               (sumOf (fun curr => confidence (snd curr)) analyses
                / totalQuestions)) in
  let speechRateNorm := JS.Math_min 100 ((avgSpeechRate / 150) * 100) in
  let pauseRatioNorm := JS.Math_max 0 (100 - avgPauseRatio * (5 # 2)) in
  let fluencyScore :=
    JS.Math_round ((3 # 5) * speechRateNorm + (2 # 5) * pauseRatioNorm) in
  let volStabNorm := avgVolumeStab * 10 in
  let confidenceMetric :=
    if JS.Qlt_bool 0 avgConfidence then avgConfidence
    else JS.Math_round ((9 # 20) * avgEyeContact + (7 # 20) * volStabNorm
                        + (1 # 5) * fluencyScore) in
  let overallScore :=
    JS.Math_round (((avgContent + avgDelivery + (1 # 10) * confidenceMetric) / 3)
                   * 10) in
  let currentTotal :=
    JS.Math_round ((avgContent * 10 + avgDelivery * 10) / 2) in
  mkReport avgContent avgDelivery avgEyeContact avgVolumeStab avgSpeechRate
           avgPauseRatio avgConfidence speechRateNorm pauseRatioNorm
           fluencyScore volStabNorm confidenceMetric overallScore currentTotal.

(** The session the interview page hands over when the interview ends:
    the assessments of the session state, each with the content its
    metrics snapshot has in the store. *)
Definition handedOver (w : World) : list (QuestionAnalysis * AnalysisMetrics) :=
  map (fun a => (a, deref (heap w) (metrics a))) (analyses (state (graph w))).

End Feedback.

(** ** Document processing ([fileService]) *)

Module Files.

(** [text.replace(/\s+/g, ' ')]: every maximal run of white space
    becomes one space; [in_run] tells that the character before was
    white space. *)
Fixpoint collapse_from (in_run : bool) (s : string) : string :=
  match s with
  | EmptyString => EmptyString
  | String c s' =>
      if JS.is_space c then
        if in_run then collapse_from true s'
        else String " " (collapse_from true s')
      else String c (collapse_from false s')
  end.

Definition collapse (s : string) : string := collapse_from false s.

(** [text.replace(/\s+/g, ' ').trim()]. *)
Definition clean (text : string) : string := JS.trim (collapse text).

(** [Math.ceil(n / 4)]. *)
Definition ceil4 (n : nat) : nat := Nat.div (n + 3) 4.

Record ParsedDocument := mkDocument {
  fileName : string;
  text : string;
  tokens : nat
}.

(** [processFile]; [read] is what reading the file gave, the text or the
    message of the error that was thrown. *)
Definition processFile (name : string) (read : string + string)
  : ParsedDocument + string :=
  match read with
  | inl text =>
      let cleanedText := clean text in
      inl (mkDocument name cleanedText (ceil4 (String.length cleanedText)))
  | inr message =>
      inr ("Failed to parse " ++ name ++ ": " ++ message)%string
  end.

End Files.

(** ** The listeners of the orchestrator ([subscribe], [updateState]) *)

Module Observers.

Import Graph.

(** [Partial<InterviewState>]: the fields an update gives. *)
Record Partial := mkPartial {
  connectionState' : option LiveConnectionState;
  config' : option InterviewConfig;
  transcript' : option (list Message);
  analyses' : option (list QuestionAnalysis);
  currentQuestionIndex' : option nat;
  totalQuestions' : option nat;
  currentQuestionText' : option string;
  realtimeInputText' : option string;
  realtimeOutputText' : option string
}.

(** [{ ...state, ...partial }]. *)
Definition merge (st : InterviewState) (p : Partial) : InterviewState :=
  mkState (default (connectionState st) (connectionState' p))
          (default (config st) (config' p))
          (default (transcript st) (transcript' p))
          (default (analyses st) (analyses' p))
          (default (currentQuestionIndex st) (currentQuestionIndex' p))
          (default (totalQuestions st) (totalQuestions' p))
          (default (currentQuestionText st) (currentQuestionText' p))
          (default (realtimeInputText st) (realtimeInputText' p))
          (default (realtimeOutputText st) (realtimeOutputText' p)).

(** The state of the orchestrator with its listeners.  A callback is
    known by its identity, as [l !== callback] compares it; [delivered]
    lists the calls made on the callbacks, oldest first, each with the
    state it was given.  The callbacks themselves call nothing back. *)
Record Store := mkStore {
  current : InterviewState;
  listeners : list nat;
  delivered : list (nat * InterviewState)
}.

(** [subscribe]. *)
Definition subscribe (callback : nat) (o : Store) : Store :=
  mkStore (current o) (listeners o ++ [callback])
          (delivered o ++ [(callback, current o)]).

(** The function [subscribe] returns. *)
Definition unsubscribe (callback : nat) (o : Store) : Store :=
  mkStore (current o)
          (List.filter (fun l => negb (Nat.eqb l callback)) (listeners o))
          (delivered o).

(** [updateState]. *)
Definition updateState (partial : Partial) (o : Store) : Store :=
  let st := merge (current o) partial in
  mkStore st (listeners o) (delivered o ++ map (fun l => (l, st)) (listeners o)).

Inductive Call :=
| Subscribe (callback : nat)
| Unsubscribe (callback : nat)
| UpdateState (partial : Partial).

Definition call (o : Store) (k : Call) : Store :=
  match k with
  | Subscribe cb => subscribe cb o
  | Unsubscribe cb => unsubscribe cb o
  | UpdateState p => updateState p o
  end.

Definition calls (ks : list Call) (o : Store) : Store := fold_left call ks o.

(** The states callback [l] was given, oldest first. *)
Definition seenBy (l : nat) (o : Store) : list InterviewState :=
  map snd (List.filter (fun d => Nat.eqb (fst d) l) (delivered o)).

End Observers.

(** ** What runs between [connect] and the end of its [disconnect] call *)

Module Reconnect.

Import JS Live.

(** What follows [connect] up to the end of its [disconnect] call: the
    connection promise resolves with session [s] and socket [w], or the
    parked [disconnect] call runs its next stretch. *)
Inductive ConnectStep :=
| Resolved (s : nat) (w : option nat)
| Settled.

Fixpoint after_connect (steps : list ConnectStep) (k : CallState)
    (c : GeminiLiveClient) (d : Devices)
  : CallState * GeminiLiveClient * Devices :=
  match steps with
  | [] => (k, c, d)
  | Resolved s w :: rest => after_connect rest k (connect_resolved s w c) d
  | Settled :: rest =>
      let '(k', c', d') := advance k c d in after_connect rest k' c' d'
  end.

End Reconnect.

(** ** What the orchestrator hears between two assessments *)

Module Turns.

Import JS Analysis Live Graph.

(** What reaches the orchestrator between two assessments: a text
    fragment of the agent, or results of the speech recogniser. *)
Inductive Heard :=
| AgentText (t : string)
| Speech (results : list (bool * string)).

Definition hear (r : Readings) (w : World) (h : Heard) : World :=
  match h with
  | AgentText t => handlePart r w (mkPart None (Some t))
  | Speech results => onresult results w
  end.

End Turns.

(** ** Stand-ins and closed inputs used by the examples *)

Module Samples.

Import Analysis.

(** Closed examples need closed functions for [Math.sqrt] and
    [Math.log10]: the integer parts, exact on the inputs used below
    (perfect squares; the level is a ratio of logarithms, so the base
    does not matter). *)
Definition sqrt_floor (q : Q) : Q := inject_Z (Z.sqrt (Qfloor q)).
Definition log_floor (q : Q) : Q := inject_Z (Z.log2 (Qfloor q)).

(** Analyser data of 256 bins: every bin at full scale, every bin at
    rest. *)
Definition loud : list Z := repeat 255%Z 256.
Definition quiet : list Z := repeat 0%Z 256.

(** A landmark frame of 478 points, all on the vertical centre line: the
    nose is in the band and both eyes have width 0. *)
Definition facing : list Landmark := repeat (mkLandmark (1 # 2) 0 0) 478.

(** The same frame with every point at the left edge: the head is
    turned away. *)
Definition away : list Landmark := repeat (mkLandmark 0 0 0) 478.

Definition face (l : list Landmark) : option (list (list Landmark)) := Some [l].

(** A client that is connected (audio context 0 at 24 kHz, session 1
    with its socket) after [onopen], capturing with processor node 0. *)
Definition connectedClient : Live.GeminiLiveClient * Live.Devices :=
  let '(_, c, d) := Live.connect_begin 0 Live.newClient Live.noDevices in
  Live.startAudioInput (Live.set_open true (Live.connect_resolved 1 (Some 1%nat) c)) d.

(** A capture buffer of 4096 samples of silence, and one at full
    scale, read with the socket open. *)
Definition silentCapture : Live.CaptureTick :=
  Live.mkCapture (repeat 0 4096) 1000000 Live.OPEN.

Definition voicedCapture : Live.CaptureTick :=
  Live.mkCapture (repeat 1 4096) 1000000 Live.OPEN.

(** A ten-minute interview. *)
Definition config10 : Graph.InterviewConfig :=
  Graph.mkConfig "Technology" (Some "Software Engineer"%string) 10 "" "".

(** The events of a session start that succeeds: audio context 0,
    session 1 with its socket, then [onopen]. *)
Definition opening : list Graph.Event :=
  [Graph.SessionStarting; Graph.Connecting 0; Graph.Connected 1 (Some 1%nat);
   Graph.SocketOpen; Graph.AudioInputStarted].

(** What a handler reads: the socket open, the playback clock at 5 s. *)
Definition readings : Graph.Readings :=
  Graph.mkReadings Live.OPEN 5 1700000000000.

(** Inbound messages: a [save_assessment] tool call, a text fragment, and
    two audio fragments of 2400 samples each. *)
Definition saveCall (id : string) (a : Graph.ToolArgs) : Graph.LiveServerMessage :=
  Graph.mkServerMessage None (Some [Graph.mkCall "save_assessment" id (Some a)]).

Definition agentText (t : string) : Graph.LiveServerMessage :=
  Graph.mkServerMessage (Some [Graph.mkPart None (Some t)]) None.

Definition agentAudio : Graph.LiveServerMessage :=
  Graph.mkServerMessage
    (Some [Graph.mkPart (Some (Live.Bytes (repeat 0%Z 4800))) None;
           Graph.mkPart (Some (Live.Bytes (repeat 0%Z 4800))) None])
    None.

(** An audio tick at [ms] milliseconds, both clock readings equal. *)
Definition at_ms (ms : Z) (d : list Z) : AudioTick := mkTick d ms ms.

(** One loud tick, then two quiet ones at a 60 Hz cadence. *)
Definition three : list AudioTick :=
  [at_ms 0 loud; at_ms 16 quiet; at_ms 33 quiet].

(** One loud tick, then a quiet tick every millisecond up to 300 ms. *)
Definition dense : list AudioTick :=
  at_ms 0 loud :: map (fun k => at_ms (Z.of_nat k) quiet) (seq 1 300).

(** Landmark frames fed to a service one after the other. *)
Definition watch (frames : list (list Landmark))
    (sm : AnalysisService * AnalysisMetrics)
  : option (AnalysisService * AnalysisMetrics) :=
  fold_left
    (fun acc l => match acc with
                  | Some (s, m) => onFaceResults (face l) s m
                  | None => None
                  end)
    frames (Some sm).

End Samples.

(** ** The properties as the design document words them *)

Module Spec.

(** "eyeContact = lookingFrameCount/totalFrames x 100, with an
    additional penalty multiplier (x lookingFraction) applied whenever
    the fraction is below a 75% threshold". *)
Definition eyeContact (lookingFrameCount totalFrames : nat) : Q :=
  let lookingFraction :=
    inject_Z (Z.of_nat lookingFrameCount) / inject_Z (Z.of_nat totalFrames) in
  if JS.Qlt_bool lookingFraction (75 # 100)
  then lookingFraction * 100 * lookingFraction
  else lookingFraction * 100.

(** "pauseRatio = (1 - speechFraction) x 100". *)
Definition pauseRatio (speechFrames totalFrames : nat) : Q :=
  (1 - inject_Z (Z.of_nat speechFrames) / inject_Z (Z.of_nat totalFrames)) * 100.

(** "in priority order, the tool-supplied question text else the scratch
    buffer else a generic placeholder". *)
Definition questionText (toolText : option string) (scratch : string) : string :=
  match toolText with
  | Some (String c t) => String c t
  | _ => match scratch with
         | String c t => String c t
         | EmptyString => "Interview Question"%string
         end
  end.

(** "the candidate-answer scratch buffer (trimmed) if non-empty else the
    tool-supplied paraphrase, else a literal no-response marker". *)
Definition userAnswer (scratch : string) (paraphrase : option string) : string :=
  match JS.trim scratch with
  | String c t => String c t
  | EmptyString =>
      match paraphrase with
      | Some (String c t) => String c t
      | _ => "(No audio response detected)"%string
      end
  end.

(** The first of the candidates that is there and not empty, else the
    placeholder. *)
Fixpoint firstGiven (candidates : list (option string)) (placeholder : string)
  : string :=
  match candidates with
  | [] => placeholder
  | Some (String c t) :: _ => String c t
  | _ :: rest => firstGiven rest placeholder
  end.

End Spec.

(** * Properties *)

(** ** Facts about the JavaScript primitives *)

Module JSFacts.

Import JS.

Lemma Qlt_bool_iff x y : Qlt_bool x y = true <-> x < y.
Proof.
  unfold Qlt_bool. rewrite negb_true_iff.
  split; intros H.
  - apply Qnot_le_lt. intros Hle. apply Qle_bool_iff in Hle. congruence.
  - destruct (Qle_bool y x) eqn:E; [|reflexivity].
    apply Qle_bool_iff in E. exfalso. exact (Qlt_not_le _ _ H E).
Qed.

Lemma Qlt_bool_false x y : Qlt_bool x y = false <-> y <= x.
Proof.
  unfold Qlt_bool. rewrite negb_false_iff. apply Qle_bool_iff.
Qed.

#[export] Instance Qlt_bool_comp : Proper (Qeq ==> Qeq ==> eq) Qlt_bool.
Proof.
  intros a b Hab c d Hcd. unfold Qlt_bool. now rewrite Hab, Hcd.
Qed.

#[export] Instance Math_round_comp : Proper (Qeq ==> eq) Math_round.
Proof.
  intros a b Hab. unfold Math_round. now rewrite Hab.
Qed.

Lemma Math_round_Z (n : Z) : Math_round (inject_Z n) = inject_Z n.
Proof.
  unfold Math_round. f_equal.
  assert (H : (n <= Qfloor (inject_Z n + (1 # 2)))%Z).
  { rewrite <- (Qfloor_Z n) at 1. apply Qfloor_resp_le. lra. }
  assert (H' : (Qfloor (inject_Z n + (1 # 2)) < n + 1)%Z).
  { rewrite Zlt_Qlt. eapply Qle_lt_trans; [apply Qfloor_le|].
    rewrite inject_Z_plus. change (inject_Z 1) with 1. lra. }
  lia.
Qed.

Lemma Math_round_lower (x : Q) (n : Z) :
  inject_Z n - (1 # 2) <= x -> inject_Z n <= Math_round x.
Proof.
  intros H. unfold Math_round. rewrite <- Zle_Qle.
  rewrite <- (Qfloor_Z n). apply Qfloor_resp_le. lra.
Qed.

Lemma Math_round_upper (x : Q) (n : Z) :
  x < inject_Z n + (1 # 2) -> Math_round x <= inject_Z n.
Proof.
  intros H. unfold Math_round. rewrite <- Zle_Qle.
  assert (Hlt : (Qfloor (x + (1 # 2)) < n + 1)%Z).
  { rewrite Zlt_Qlt. eapply Qle_lt_trans; [apply Qfloor_le|].
    rewrite inject_Z_plus. change (inject_Z 1) with 1. lra. }
  lia.
Qed.

(** [toFixed1] on a non-negative number, up to [==]. *)
Lemma toFixed1_nonneg (x : Q) :
  0 <= x -> toFixed1 x == inject_Z (Qfloor (x * 10 + (1 # 2))) / 10.
Proof.
  intros H. unfold toFixed1.
  apply Qlt_bool_false in H. rewrite H.
  rewrite Qred_correct. unfold Qeq, Qdiv, Qmult, Qinv, inject_Z. simpl. lia.
Qed.

#[export] Instance toFixed1_comp : Proper (Qeq ==> Qeq) toFixed1.
Proof.
  intros a b Hab. unfold toFixed1. rewrite Hab.
  destruct (Qlt_bool b 0); rewrite !Qred_correct.
  - assert (E : Qfloor (- a * 10 + (1 # 2)) = Qfloor (- b * 10 + (1 # 2)))
      by now rewrite Hab.
    now rewrite E.
  - assert (E : Qfloor (a * 10 + (1 # 2)) = Qfloor (b * 10 + (1 # 2)))
      by now rewrite Hab.
    now rewrite E.
Qed.

(** [p] is [x] to one decimal: a whole number of tenths, at most half a
    tenth away from [x].  Where [x] lies halfway between two tenths,
    both neighbours qualify. *)
Definition toOneDecimal (x p : Q) : Prop :=
  (exists k : Z, p == inject_Z k / 10) /\ Qabs (p - x) <= 1 # 20.

Lemma toFixed1_toOneDecimal (x : Q) : toOneDecimal x (toFixed1 x).
Proof.
  unfold toOneDecimal, toFixed1.
  destruct (Qlt_bool x 0).
  - set (k := Qfloor (- x * 10 + (1 # 2))).
    assert (E : - Qred (k # 10) == inject_Z (- k) / 10).
    { rewrite Qred_correct.
      unfold Qeq, Qdiv, Qmult, Qinv, Qopp, inject_Z. simpl. lia. }
    split; [exists (- k)%Z; exact E|].
    rewrite E, inject_Z_opp.
    pose proof (Qfloor_le (- x * 10 + (1 # 2))) as Hl.
    pose proof (Qlt_floor (- x * 10 + (1 # 2))) as Hu.
    fold k in Hl, Hu. rewrite inject_Z_plus in Hu.
    change (inject_Z 1) with 1 in Hu.
    change (- inject_Z k / 10) with (- inject_Z k * (1 # 10)).
    apply Qabs_Qle_condition. split; lra.
  - set (k := Qfloor (x * 10 + (1 # 2))).
    assert (E : Qred (k # 10) == inject_Z k / 10).
    { rewrite Qred_correct.
      unfold Qeq, Qdiv, Qmult, Qinv, inject_Z. simpl. lia. }
    split; [exists k; exact E|].
    rewrite E.
    pose proof (Qfloor_le (x * 10 + (1 # 2))) as Hl.
    pose proof (Qlt_floor (x * 10 + (1 # 2))) as Hu.
    fold k in Hl, Hu. rewrite inject_Z_plus in Hu.
    change (inject_Z 1) with 1 in Hu.
    change (inject_Z k / 10) with (inject_Z k * (1 # 10)).
    apply Qabs_Qle_condition. split; lra.
Qed.

End JSFacts.

(** ** Gaze classification and eye contact *)

Module GazeFacts.

Import JS JSFacts Analysis.

(** *** Gaze classification *)

Lemma getRatio_degenerate (inner outer iris : Landmark) :
  x inner == x outer -> getRatio inner outer iris = 1 # 2.
Proof.
  intros H. unfold getRatio.
  assert (E : x outer - x inner == 0) by (rewrite H; ring).
  rewrite E. reflexivity.
Qed.

Lemma centered_half : centered (1 # 2) = true.
Proof. reflexivity. Qed.

Lemma lookup_long {A} (l : list A) (i n : nat) :
  (n < length l)%nat -> (i <= n)%nat -> exists a, l !! i = Some a.
Proof.
  intros Hn Hi. apply lookup_lt_is_Some_2. lia.
Qed.

(** The head-pose test of [checkGaze]. *)
Definition headInBand (nose : Landmark) : bool :=
  negb (Qlt_bool (x nose) (2 # 5) || Qlt_bool (3 # 5) (x nose)).

Lemma checkGaze_some (lm : list Landmark) nose rI rO rIris lI lO lIris :
  lm !! 1%nat = Some nose ->
  lm !! 33%nat = Some rI -> lm !! 133%nat = Some rO ->
  lm !! 468%nat = Some rIris ->
  lm !! 362%nat = Some lI -> lm !! 263%nat = Some lO ->
  lm !! 473%nat = Some lIris ->
  checkGaze lm =
    Some (headInBand nose
          && (centered (getRatio rI rO rIris) && centered (getRatio lI lO lIris))).
Proof.
  intros H1 H33 H133 H468 H362 H263 H473.
  unfold checkGaze, headInBand. rewrite H1. simpl.
  destruct (Qlt_bool (x nose) (2 # 5) || Qlt_bool (3 # 5) (x nose)); [reflexivity|].
  rewrite H33, H133, H468, H362, H263, H473. reflexivity.
Qed.


Lemma eyeContactScore_spec (h : list bool) :
  eyeContactScore h == Spec.eyeContact (lookingCount h) (length h).
Proof.
  unfold eyeContactScore, Spec.eyeContact, THRESHOLD, Qnat.
  assert (E : 3 # 4 == 75 # 100) by reflexivity.
  rewrite E.
  destruct (Qlt_bool _ _); reflexivity.
Qed.

Lemma onFaceResults_face (s : AnalysisService) (m : AnalysisMetrics)
    (lm : list Landmark) (rest : list (list Landmark)) (b : bool) :
  checkGaze lm = Some b ->
  let pushed := gazeHistory s ++ [b] in
  let hist := if (20 <? length pushed)%nat then tail pushed else pushed in
  onFaceResults (Some (lm :: rest)) s m =
    Some (mkService (audioContext s) (analyser s) (dataArray s)
                    (speechHistory s) (rmsValues s) (lastSpeechTimestamp s)
                    hist (isRunning s),
          adaptConfidence
            (set_eyeContact (Math_round (eyeContactScore hist)) m)).
Proof.
  intros H. unfold onFaceResults. rewrite H. reflexivity.
Qed.

Lemma eyeContact_adaptConfidence (m : AnalysisMetrics) :
  eyeContact (adaptConfidence m) = eyeContact m.
Proof.
  unfold adaptConfidence. destruct (Qlt_bool 0 (speechRate m)); reflexivity.
Qed.



(** C10.  Gaze classification is total on landmark frames that carry the
    points it reads, and an eye whose inner and outer corners have the
    same horizontal coordinate gets the ratio 1/2 instead of a division
    by zero: that eye passes the band test, and the result is decided by
    the head pose and the other eye. *)
Theorem C10_checkGaze_total_on_degenerate_eyes (lm : list Landmark) :
  (473 < length lm)%nat ->
  exists nose rInner rOuter rIris lInner lOuter lIris,
    lm !! 1%nat = Some nose /\
    lm !! 33%nat = Some rInner /\ lm !! 133%nat = Some rOuter /\
    lm !! 468%nat = Some rIris /\
    lm !! 362%nat = Some lInner /\ lm !! 263%nat = Some lOuter /\
    lm !! 473%nat = Some lIris /\
    checkGaze lm =
      Some (headInBand nose
            && (centered (getRatio rInner rOuter rIris)
                && centered (getRatio lInner lOuter lIris))) /\
    (x rInner == x rOuter ->
       getRatio rInner rOuter rIris = 1 # 2 /\
       centered (getRatio rInner rOuter rIris) = true /\
       checkGaze lm =
         Some (headInBand nose && centered (getRatio lInner lOuter lIris))) /\
    (x lInner == x lOuter ->
       getRatio lInner lOuter lIris = 1 # 2 /\
       centered (getRatio lInner lOuter lIris) = true /\
       checkGaze lm =
         Some (headInBand nose && centered (getRatio rInner rOuter rIris))).
Proof.
  intros Hlen.
  destruct (lookup_long lm 1 473 Hlen) as [nose H1]; [lia|].
  destruct (lookup_long lm 33 473 Hlen) as [rI H33]; [lia|].
  destruct (lookup_long lm 133 473 Hlen) as [rO H133]; [lia|].
  destruct (lookup_long lm 468 473 Hlen) as [rIris H468]; [lia|].
  destruct (lookup_long lm 362 473 Hlen) as [lI H362]; [lia|].
  destruct (lookup_long lm 263 473 Hlen) as [lO H263]; [lia|].
  destruct (lookup_long lm 473 473 Hlen) as [lIris H473]; [lia|].
  exists nose, rI, rO, rIris, lI, lO, lIris.
  pose proof (checkGaze_some lm _ _ _ _ _ _ _ H1 H33 H133 H468 H362 H263 H473) as Hg.
  repeat (split; [assumption|]).
  split; intros Hdeg.
  - rewrite Hg, (getRatio_degenerate _ _ _ Hdeg), centered_half.
    repeat split; reflexivity.
  - rewrite Hg, (getRatio_degenerate _ _ _ Hdeg), centered_half.
    repeat split. now rewrite andb_true_r.
Qed.

Lemma C10_witness :
  (473 < length Samples.facing)%nat /\ checkGaze Samples.facing = Some true.
Proof.
  split; [vm_compute; lia|].
  destruct (C10_checkGaze_total_on_degenerate_eyes Samples.facing)
    as (nose & rI & rO & rIris & lI & lO & lIris
        & H1 & H33 & H133 & H468 & H362 & H263 & H473 & _ & Hr & _);
    [vm_compute; lia|].
  vm_compute in H1, H33, H133. 
  injection H1 as <-. injection H33 as <-. injection H133 as <-.
  destruct Hr as (_ & _ & Hr); [reflexivity|].
  rewrite Hr. vm_compute in H362, H263, H473.
  injection H362 as <-. injection H263 as <-. injection H473 as <-.
  reflexivity.
Defined.

(** C8 (amended).  After a landmark frame with a face, the gaze history
    holds the last 20 classifications at most and eyeContact is the
    value of the design document (looking frames over total frames times
    100, multiplied once more by that fraction when it is below 75%)
    rounded to the nearest integer; 10 looking frames out of 20 give 25. *)
Theorem C8_eyeContact_rounded_penalty (s : AnalysisService) (m : AnalysisMetrics)
    (lm : list Landmark) (rest : list (list Landmark)) (b : bool) :
  checkGaze lm = Some b ->
  exists s' m',
    onFaceResults (Some (lm :: rest)) s m = Some (s', m') /\
    gazeHistory s' =
      (if (20 <? length (gazeHistory s ++ [b]))%nat
       then tail (gazeHistory s ++ [b]) else gazeHistory s ++ [b]) /\
    eyeContact m' =
      Math_round (Spec.eyeContact (lookingCount (gazeHistory s'))
                                  (length (gazeHistory s'))) /\
    (length (gazeHistory s') = 20%nat ->
     lookingCount (gazeHistory s') = 10%nat -> eyeContact m' = 25).
Proof.
  intros Hg. rewrite (onFaceResults_face s m lm rest b Hg). cbv zeta.
  eexists _, _. split; [reflexivity|]. simpl gazeHistory.
  split; [reflexivity|].
  rewrite eyeContact_adaptConfidence. simpl eyeContact.
  rewrite eyeContactScore_spec. split; [reflexivity|].
  intros Hlen Hcount. rewrite Hlen, Hcount. reflexivity.
Qed.

Lemma C8_witness :
  exists s' m',
    onFaceResults (Samples.face Samples.facing) Analysis.initialService
                  Analysis.initialMetrics = Some (s', m') /\
    eyeContact m' = 100.
Proof.
  destruct (C8_eyeContact_rounded_penalty Analysis.initialService
              Analysis.initialMetrics Samples.facing [] true)
    as (s' & m' & Hr & Hh & He & _); [reflexivity|].
  exists s', m'. split; [exact Hr|].
  rewrite He, Hh. reflexivity.
Defined.

(** C8 as worded fails: with 13 looking frames out of 20 the service
    reports 42, the worded value is 42.25. *)
Lemma C8_counterexample :
  exists s m,
    Samples.watch (repeat Samples.facing 13 ++ repeat Samples.away 7)
                  (Analysis.initialService, Analysis.initialMetrics)
      = Some (s, m) /\
    length (gazeHistory s) = 20%nat /\
    lookingCount (gazeHistory s) = 13%nat /\
    eyeContact m = 42 /\
    ~ eyeContact m == Spec.eyeContact 13 20.
Proof.
  eexists _, _. split; [vm_compute; reflexivity|].
  repeat split. intros H. vm_compute in H. discriminate H.
Qed.

End GazeFacts.

(** ** The audio metrics *)

Module AudioFacts.

Import JS JSFacts Analysis.

Definition running (s : AnalysisService) : Prop :=
  isRunning s = true /\ analyser s = true /\ dataArray s = true.

Lemma started_running : running started.
Proof. repeat split. Qed.

Lemma speechFrames_app (h1 h2 : list SpeechFrame) :
  speechFrames (h1 ++ h2) = (speechFrames h1 + speechFrames h2)%nat.
Proof. unfold speechFrames. now rewrite filter_app, length_app. Qed.

Lemma speechFrames_cons (f : SpeechFrame) (h : list SpeechFrame) :
  speechFrames (f :: h) =
    ((if isSpeech f then 1 else 0) + speechFrames h)%nat.
Proof.
  unfold speechFrames. rewrite filter_cons.
  case_decide as E; destruct (isSpeech f); simpl; congruence.
Qed.

Lemma prune_keep (now : Z) (f : SpeechFrame) (h : list SpeechFrame) :
  (now - time f <= WINDOW_MS)%Z -> prune now (f :: h) = f :: h.
Proof.
  intros H. simpl. destruct (Z.ltb_spec WINDOW_MS (now - time f)); [lia|reflexivity].
Qed.

Lemma prune_speechFrames_0 (now : Z) (h : list SpeechFrame) :
  speechFrames h = 0%nat -> speechFrames (prune now h) = 0%nat.
Proof.
  induction h as [|f h IH]; [reflexivity|].
  intros H. simpl. destruct (WINDOW_MS <? now - time f)%Z; [|exact H].
  apply IH. rewrite speechFrames_cons in H. lia.
Qed.

(** The frame a tick pushes is never pruned by that tick. *)
Lemma prune_push_nonempty (now : Z) (b : bool) (h : list SpeechFrame) :
  prune now (h ++ [mkFrame now b]) <> [].
Proof.
  induction h as [|f h IH]; simpl.
  - destruct (Z.ltb_spec WINDOW_MS (now - now)); [unfold WINDOW_MS in *; lia|discriminate].
  - destruct (WINDOW_MS <? now - time f)%Z; [exact IH|discriminate].
Qed.

Local Arguments audioTicks : simpl never.
Local Arguments prune : simpl never.

Section Audio.

Variables Math_sqrt Math_log10 : Q -> Q.

Abbreviation tick := (processAudioLoop Math_sqrt Math_log10).
Abbreviation above := (aboveThreshold Math_sqrt).

Lemma tick_running (t : AudioTick) (s : AnalysisService) (m : AnalysisMetrics) :
  running s ->
  running (fst (tick t s m)) /\
  lastSpeechTimestamp (fst (tick t s m)) =
    (if above t then now t else lastSpeechTimestamp s) /\
  speechHistory (fst (tick t s m)) =
    prune (now t) (speechHistory s ++ [mkFrame (now t) (above t)]) /\
  exists m1,
    snd (tick t s m) = calculateAudioMetrics Math_sqrt (now2 t) (fst (tick t s m)) m1.
Proof.
  intros (Hr & Ha & Hd). unfold processAudioLoop.
  rewrite Hr, Ha, Hd. simpl.
  repeat split; try assumption. eexists. reflexivity.
Qed.

(** The two branches of the speech part of [calculateAudioMetrics]. *)
Lemma metrics_forced (clock : Z) (s : AnalysisService) (m : AnalysisMetrics) :
  (SILENCE_TIMEOUT <= clock - lastSpeechTimestamp s)%Z ->
  speechRate (calculateAudioMetrics Math_sqrt clock s m) = 0 /\
  pauseRatio (calculateAudioMetrics Math_sqrt clock s m) = 100.
Proof.
  intros H. unfold calculateAudioMetrics.
  destruct (Z.ltb_spec (clock - lastSpeechTimestamp s) SILENCE_TIMEOUT); [lia|].
  simpl. split; reflexivity.
Qed.

Lemma metrics_speaking (clock : Z) (s : AnalysisService) (m : AnalysisMetrics) :
  (clock - lastSpeechTimestamp s < SILENCE_TIMEOUT)%Z ->
  speechHistory s <> [] ->
  let sf := speechFrames (speechHistory s) in
  let total := length (speechHistory s) in
  speechRate (calculateAudioMetrics Math_sqrt clock s m) ==
    Math_round (150 * Qnat sf / Qnat total) /\
  pauseRatio (calculateAudioMetrics Math_sqrt clock s m) =
    toFixed1 (Spec.pauseRatio sf total).
Proof.
  intros H Hne sf total. unfold calculateAudioMetrics.
  destruct (Z.ltb_spec (clock - lastSpeechTimestamp s) SILENCE_TIMEOUT); [|lia].
  assert (Hpos : (0 < total)%nat).
  { subst total. destruct (speechHistory s); [congruence|simpl; lia]. }
  fold total. fold sf.
  destruct (Nat.ltb_spec 0 total) as [_|]; [|lia].
  simpl. split; [|reflexivity].
  assert (Hq : 0 < Qnat total).
  { unfold Qnat. change 0 with (inject_Z 0). rewrite <- Zlt_Qlt. lia. }
  assert (Hw : 0 < Qnat total / 60).
  { apply Qlt_shift_div_l; lra. }
  apply Qlt_bool_iff in Hw. rewrite Hw.
  assert (E : Qnat sf / 60 * (5 # 2) * 60 / (Qnat total / 60)
              == 150 * Qnat sf / Qnat total).
  { field. intros Hz. rewrite Hz in Hq. exact (Qlt_irrefl _ Hq). }
  now rewrite E.
Qed.

(** After any ticks of a started service: either no tick was above the
    threshold, the timestamp still has its initial value and the window
    holds no speech frame, or the timestamp is the time of a tick that
    was above the threshold. *)
Definition tracked (ts : list AudioTick) (s : AnalysisService) : Prop :=
  (lastSpeechTimestamp s = 0%Z /\ speechFrames (speechHistory s) = 0%nat)
  \/ (exists u, In u ts /\ above u = true /\ lastSpeechTimestamp s = now u).

Lemma audioTicks_single (t : AudioTick) s m :
  audioTicks Math_sqrt Math_log10 [t] (s, m) = tick t s m.
Proof. reflexivity. Qed.

Lemma audioTicks_snoc (ts : list AudioTick) (t : AudioTick) sm :
  audioTicks Math_sqrt Math_log10 (ts ++ [t]) sm =
    tick t (fst (audioTicks Math_sqrt Math_log10 ts sm))
           (snd (audioTicks Math_sqrt Math_log10 ts sm)).
Proof. unfold audioTicks. now rewrite fold_left_app. Qed.

Lemma audioTicks_tracked (ts : list AudioTick) (m : AnalysisMetrics) :
  let s := fst (audioTicks Math_sqrt Math_log10 ts (started, m)) in
  running s /\ tracked ts s.
Proof.
  induction ts as [|t ts IH] using rev_ind.
  - split; [exact started_running|]. left. split; reflexivity.
  - rewrite audioTicks_snoc.
    destruct IH as [Hrun Htr].
    destruct (tick_running t _ (snd (audioTicks Math_sqrt Math_log10 ts (started, m))) Hrun)
      as (Hrun' & Hlast & Hhist & _).
    split; [exact Hrun'|].
    destruct (above t) eqn:Ea.
    + right. exists t. split; [apply in_or_app; right; left; reflexivity|].
      split; [exact Ea|exact Hlast].
    + destruct Htr as [[H0 Hsf]|(u & Hin & Hu & Hl)].
      * left. split; [congruence|].
        rewrite Hhist. apply prune_speechFrames_0.
        rewrite speechFrames_app, Hsf. reflexivity.
      * right. exists u. split; [apply in_or_app; left; exact Hin|].
        split; [exact Hu|congruence].
Qed.

Lemma Qnat_pos (n : nat) : (0 < n)%nat -> 0 < Qnat n.
Proof.
  intros H. unfold Qnat. change 0 with (inject_Z 0). rewrite <- Zlt_Qlt. lia.
Qed.

Lemma pauseRatio_no_speech (total : nat) :
  (0 < total)%nat -> toFixed1 (Spec.pauseRatio 0 total) == 100.
Proof.
  intros H. apply Qnat_pos in H.
  assert (E : Spec.pauseRatio 0 total == 100).
  { unfold Spec.pauseRatio. fold (Qnat total). fold (Qnat 0).
    change (Qnat 0) with 0. field.
    intros Hz. rewrite Hz in H. exact (Qlt_irrefl _ H). }
  rewrite E. reflexivity.
Qed.

Lemma speechRate_no_speech (total : nat) :
  (0 < total)%nat -> Math_round (150 * Qnat 0 / Qnat total) == 0.
Proof.
  intros H. apply Qnat_pos in H.
  assert (E : 150 * Qnat 0 / Qnat total == 0).
  { change (Qnat 0) with 0. field.
    intros Hz. rewrite Hz in H. exact (Qlt_irrefl _ H). }
  rewrite E. reflexivity.
Qed.

(** No tick above the threshold within the last 500 ms: both metrics
    are at their silent values after the tick. *)
Lemma forced_when_quiet (ts : list AudioTick) (t : AudioTick) (m : AnalysisMetrics) :
  (forall u, In u (ts ++ [t]) -> above u = true ->
             (SILENCE_TIMEOUT <= now2 t - now u)%Z) ->
  let m' := snd (audioTicks Math_sqrt Math_log10 (ts ++ [t]) (started, m)) in
  speechRate m' == 0 /\ pauseRatio m' == 100.
Proof.
  intros Hq.
  destruct (audioTicks_tracked (ts ++ [t]) m) as [_ Htr].
  destruct (audioTicks_tracked ts m) as [Hrun _].
  rewrite audioTicks_snoc in *. cbv zeta.
  destruct (tick_running t _ (snd (audioTicks Math_sqrt Math_log10 ts (started, m))) Hrun)
    as (_ & _ & Hhist & m1 & Hm).
  rewrite Hm.
  set (s' := fst (tick t _ _)) in *.
  destruct (Z_lt_le_dec (now2 t - lastSpeechTimestamp s') SILENCE_TIMEOUT) as [Hlt|Hge].
  - destruct Htr as [[H0 Hsf]|(u & Hin & Hu & Hl)].
    + assert (Hne : speechHistory s' <> []).
      { rewrite Hhist. apply prune_push_nonempty. }
      destruct (metrics_speaking (now2 t) s' m1 Hlt Hne) as [Hs Hp].
      rewrite Hs, Hp, Hsf.
      assert (Hpos : (0 < length (speechHistory s'))%nat).
      { destruct (speechHistory s'); [congruence|simpl; lia]. }
      split; [apply speechRate_no_speech | apply pauseRatio_no_speech]; exact Hpos.
    + specialize (Hq u Hin Hu). rewrite Hl in Hlt. lia.
  - destruct (metrics_forced (now2 t) s' m1 Hge) as [Hs Hp].
    rewrite Hs, Hp. split; reflexivity.
Qed.

(** The frames of the ticks that are still in the window. *)
Definition frames (ts : list AudioTick) : list SpeechFrame :=
  map (fun u => mkFrame (now u) (above u)) ts.

Lemma speechFrames_quiet (ts : list AudioTick) :
  Forall (fun u => above u = false) ts -> speechFrames (frames ts) = 0%nat.
Proof.
  induction 1 as [|u ts Hu _ IH]; [reflexivity|].
  simpl. rewrite speechFrames_cons. simpl. rewrite Hu, IH. reflexivity.
Qed.

Lemma clockOrdered_app (c : Z) (ts : list AudioTick) (t : AudioTick) :
  clockOrdered c (ts ++ [t]) ->
  clockOrdered c ts /\ (c <= now t)%Z /\ (now t <= now2 t)%Z /\
  (forall u, In u ts -> (now u <= now t)%Z).
Proof.
  revert c. induction ts as [|v ts IH]; intros c H; simpl in *.
  - destruct H as (H1 & H2 & _). repeat split; try assumption. intros u [].
  - destruct H as (H1 & H2 & H3).
    destruct (IH _ H3) as (I1 & I2 & I3 & I4).
    repeat split; try assumption; try lia.
    intros u [->|Hin]; [lia|]. now apply I4.
Qed.

(** One tick above the threshold, then ticks below it: the timestamp
    stays at the first tick. *)
Lemma after_speech_last (t0 : AudioTick) (ts : list AudioTick) (m : AnalysisMetrics) :
  above t0 = true ->
  Forall (fun u => above u = false) ts ->
  let s := fst (audioTicks Math_sqrt Math_log10 (t0 :: ts) (started, m)) in
  running s /\ lastSpeechTimestamp s = now t0.
Proof.
  intros H0. induction ts as [|t ts IH] using rev_ind; intros Hq.
  - rewrite audioTicks_single. cbv zeta.
    destruct (tick_running t0 started m started_running) as (Hr & Hl & _).
    rewrite H0 in Hl. split; assumption.
  - apply Forall_app in Hq as [Hq Ht]. apply Forall_inv in Ht.
    destruct (IH Hq) as [Hr Hl].
    rewrite app_comm_cons, audioTicks_snoc. cbv zeta.
    destruct (tick_running t _ (snd (audioTicks Math_sqrt Math_log10 (t0 :: ts) (started, m))) Hr)
      as (Hr' & Hl' & _).
    rewrite Ht in Hl'. split; [assumption|congruence].
Qed.

(** While every tick so far is within the window of the first one,
    nothing is pruned. *)
Lemma after_speech_window (t0 : AudioTick) (ts : list AudioTick) (m : AnalysisMetrics) :
  above t0 = true ->
  Forall (fun u => above u = false) ts ->
  (forall u, In u ts -> (now t0 <= now u <= now t0 + WINDOW_MS)%Z) ->
  let s := fst (audioTicks Math_sqrt Math_log10 (t0 :: ts) (started, m)) in
  speechHistory s = frames (t0 :: ts).
Proof.
  intros H0. induction ts as [|t ts IH] using rev_ind; intros Hq Hw.
  - rewrite audioTicks_single. cbv zeta.
    destruct (tick_running t0 started m started_running) as (_ & _ & Hh & _).
    rewrite Hh. simpl.
    apply prune_keep. unfold WINDOW_MS. simpl. lia.
  - apply Forall_app in Hq as [Hq Ht]. apply Forall_inv in Ht.
    assert (Hw' : forall u, In u ts -> (now t0 <= now u <= now t0 + WINDOW_MS)%Z).
    { intros u Hu. apply Hw. apply in_or_app. now left. }
    specialize (IH Hq Hw').
    destruct (after_speech_last t0 ts m H0 Hq) as [Hr _].
    rewrite app_comm_cons, audioTicks_snoc. cbv zeta.
    destruct (tick_running t _ (snd (audioTicks Math_sqrt Math_log10 (t0 :: ts) (started, m))) Hr)
      as (_ & _ & Hh & _).
    rewrite Hh. cbv zeta in IH. rewrite IH.
    unfold frames. rewrite !map_app. simpl.
    assert (Hin : In t (ts ++ [t])) by (apply in_or_app; right; now left).
    specialize (Hw t Hin).
    apply prune_keep. simpl. lia.
Qed.

Lemma clockOrdered_lower (c : Z) (ts : list AudioTick) :
  clockOrdered c ts -> forall u, In u ts -> (c <= now u)%Z.
Proof.
  revert c. induction ts as [|v ts IH]; intros c H u Hin; [destruct Hin|].
  simpl in H. destruct H as (H1 & H2 & H3).
  destruct Hin as [->|Hin]; [exact H1|].
  specialize (IH _ H3 u Hin). lia.
Qed.

Lemma speechRate_one_frame (total : nat) :
  (0 < total < 300)%nat -> 1 <= Math_round (150 * Qnat 1 / Qnat total).
Proof.
  intros [Hpos Hlt].
  apply (Math_round_lower _ 1).
  assert (Hq : 0 < Qnat total) by now apply Qnat_pos.
  assert (Hu : Qnat total <= 300).
  { unfold Qnat. change 300 with (inject_Z 300). rewrite <- Zle_Qle. lia. }
  change (inject_Z 1) with 1. change (Qnat 1) with 1.
  apply Qle_shift_div_l; [exact Hq|]. lra.
Qed.

Lemma pauseRatio_one_frame (total : nat) :
  (0 < total < 2000)%nat -> toFixed1 (Spec.pauseRatio 1 total) < 100.
Proof.
  intros [Hpos Hlt].
  assert (Hq : 1 <= Qnat total).
  { unfold Qnat. change 1 with (inject_Z 1). rewrite <- Zle_Qle. lia. }
  assert (Hu : Qnat total < 2000).
  { unfold Qnat. change 2000 with (inject_Z 2000). rewrite <- Zlt_Qlt. lia. }
  assert (Hinv : 1 # 2000 < / Qnat total).
  { apply Qlt_shift_inv_l; lra. }
  assert (Hinv1 : / Qnat total <= 1).
  { apply Qle_shift_inv_r; lra. }
  unfold Spec.pauseRatio. fold (Qnat 1). fold (Qnat total).
  change (Qnat 1) with 1. unfold Qdiv. rewrite Qmult_1_l.
  rewrite toFixed1_nonneg by lra.
  apply Qlt_shift_div_r; [lra|].
  eapply Qle_lt_trans; [apply Qfloor_le|]. lra.
Qed.

(** The hangover: one tick above the threshold at [now t0], then only
    ticks below it, the last of them [t]. *)
Lemma hangover (t0 : AudioTick) (ts : list AudioTick) (t : AudioTick)
    (m : AnalysisMetrics) :
  above t0 = true ->
  Forall (fun u => above u = false) (ts ++ [t]) ->
  clockOrdered (now t0) (t0 :: ts ++ [t]) ->
  let m' := snd (audioTicks Math_sqrt Math_log10 (t0 :: ts ++ [t]) (started, m)) in
  let total := (length ts + 2)%nat in
  ((SILENCE_TIMEOUT <= now2 t - now t0)%Z ->
     speechRate m' = 0 /\ pauseRatio m' = 100) /\
  ((now2 t - now t0 < SILENCE_TIMEOUT)%Z ->
     speechRate m' == Math_round (150 * Qnat 1 / Qnat total) /\
     pauseRatio m' = toFixed1 (Spec.pauseRatio 1 total) /\
     ((total < 300)%nat -> 1 <= speechRate m') /\
     ((total < 2000)%nat -> pauseRatio m' < 100)).
Proof.
  intros H0 Hq Hord m' total.
  destruct (after_speech_last t0 (ts ++ [t]) m H0 Hq) as [_ Hlast].
  assert (Hq' : Forall (fun u => above u = false) ts).
  { apply Forall_app in Hq. tauto. }
  destruct (after_speech_last t0 ts m H0 Hq') as [Hrun _].
  subst m'. revert Hlast.
  rewrite app_comm_cons, audioTicks_snoc.
  destruct (tick_running t _ (snd (audioTicks Math_sqrt Math_log10 (t0 :: ts) (started, m))) Hrun)
    as (_ & _ & _ & m1 & Hm).
  rewrite Hm. clear Hm.
  pose proof (after_speech_window t0 (ts ++ [t]) m H0 Hq) as Hwin.
  cbv zeta in Hwin. rewrite app_comm_cons, audioTicks_snoc in Hwin.
  set (s' := fst (tick t _ _)) in *.
  intros Hlast. split.
  - intros Hge. apply metrics_forced. rewrite Hlast. exact Hge.
  - intros Hlt.
    simpl in Hord. destruct Hord as (_ & H02 & Hord).
    pose proof (clockOrdered_lower _ _ Hord) as Hlow.
    destruct (clockOrdered_app _ _ _ Hord) as (_ & _ & Ht2 & Hup).
    assert (Hh : speechHistory s' = frames (t0 :: ts ++ [t])).
    { apply Hwin. intros u Hu. specialize (Hlow u Hu).
      unfold WINDOW_MS, SILENCE_TIMEOUT in *.
      apply in_app_or in Hu as [Hu|[<-|[]]].
      - specialize (Hup u Hu). lia.
      - lia. }
    assert (Hne : speechHistory s' <> []) by (rewrite Hh; discriminate).
    assert (Hlt' : (now2 t - lastSpeechTimestamp s' < SILENCE_TIMEOUT)%Z)
      by (rewrite Hlast; exact Hlt).
    destruct (metrics_speaking (now2 t) s' m1 Hlt' Hne) as [Hs Hp].
    assert (Hsf : speechFrames (speechHistory s') = 1%nat).
    { rewrite Hh. simpl. rewrite speechFrames_cons. simpl. rewrite H0.
      fold (frames (ts ++ [t])). now rewrite speechFrames_quiet. }
    assert (Hlen : length (speechHistory s') = total).
    { rewrite Hh. unfold frames. rewrite length_map. simpl.
      rewrite length_app. simpl. subst total. lia. }
    rewrite Hsf, Hlen in Hs, Hp.
    split; [exact Hs|]. split; [exact Hp|]. split.
    + intros Hrate. rewrite Hs. apply speechRate_one_frame. subst total. lia.
    + intros Hrate. rewrite Hp. apply pauseRatio_one_frame. subst total. lia.
Qed.

(** C7 (amended).  For the audio ticks of a started service:
    (1) if no tick was above the speech threshold within the last
        500 ms, the tick leaves speechRate at 0 and pauseRatio at 100;
    (2) after one tick above the threshold at [now t0] and only ticks
        below it since, with a clock that never goes back: from 500 ms
        on both metrics are at 0 and 100; before that pauseRatio is
        (1 - speechFraction) x 100 to one decimal, speechRate is at
        least 1 while fewer than 300 ticks have run and pauseRatio is
        below 100 while fewer than 2000 have;
    (3) at any tick within 500 ms of the last tick above the
        threshold, pauseRatio is (1 - speechFraction) x 100 over the
        frames in the window, to one decimal: a whole number of tenths
        at most 0.05 away from it.  Which of the two neighbours a value
        halfway between them goes to is left open: the source rounds
        the double it has computed, which need not lie on the side the
        exact value would go to. *)
Theorem C7_silence_forced_after_hangover
    (ts : list AudioTick) (t : AudioTick) (m : AnalysisMetrics) :
  let after l := audioTicks Math_sqrt Math_log10 l (started, m) in
  ((forall u, In u (ts ++ [t]) -> above u = true ->
              (500 <= now2 t - now u)%Z) ->
   speechRate (snd (after (ts ++ [t]))) == 0 /\
   pauseRatio (snd (after (ts ++ [t]))) == 100) /\
  (forall t0 : AudioTick,
     above t0 = true ->
     Forall (fun u => above u = false) (ts ++ [t]) ->
     clockOrdered (now t0) (t0 :: ts ++ [t]) ->
     let m' := snd (after (t0 :: ts ++ [t])) in
     let total := (length ts + 2)%nat in
     ((500 <= now2 t - now t0)%Z ->
        speechRate m' = 0 /\ pauseRatio m' = 100) /\
     ((now2 t - now t0 < 500)%Z ->
        toOneDecimal (Spec.pauseRatio 1 total) (pauseRatio m') /\
        ((total < 300)%nat -> 1 <= speechRate m') /\
        ((total < 2000)%nat -> pauseRatio m' < 100))) /\
  (let s' := fst (after (ts ++ [t])) in
   (now2 t - lastSpeechTimestamp s' < 500)%Z ->
   toOneDecimal (Spec.pauseRatio (speechFrames (speechHistory s'))
                                 (length (speechHistory s')))
                (pauseRatio (snd (after (ts ++ [t]))))).
Proof.
  intros after. split; [|split].
  - intros Hq. exact (forced_when_quiet ts t m Hq).
  - intros t0 H0 Hq Hord m' total.
    destruct (hangover t0 ts t m H0 Hq Hord) as [Hlate Hearly].
    split; [exact Hlate|].
    intros Hlt. destruct (Hearly Hlt) as (_ & Hp & Hrate & Hpause).
    split; [|split; [exact Hrate|exact Hpause]].
    exact (eq_ind_r (toOneDecimal _) (toFixed1_toOneDecimal _) Hp).
  - subst after. cbv beta zeta. rewrite audioTicks_snoc.
    destruct (audioTicks_tracked ts m) as [Hrun _].
    destruct (tick_running t _ (snd (audioTicks Math_sqrt Math_log10 ts (started, m))) Hrun)
      as (_ & _ & Hhist & m1 & Hm).
    rewrite Hm. intros Hlt.
    match goal with
    | |- toOneDecimal _ (pauseRatio (calculateAudioMetrics _ ?k ?s ?m)) =>
        destruct (metrics_speaking k s m) as [_ Hp]
    end; [exact Hlt|rewrite Hhist; apply prune_push_nonempty|].
    exact (eq_ind_r (toOneDecimal _) (toFixed1_toOneDecimal _) Hp).
Qed.

End Audio.

Import Samples.

Lemma C7_witness :
  let m' := snd (audioTicks sqrt_floor log_floor three (started, initialMetrics)) in
  1 <= speechRate m' /\ pauseRatio m' < 100.
Proof.
  destruct (C7_silence_forced_after_hangover sqrt_floor log_floor
              [at_ms 16 quiet] (at_ms 33 quiet) initialMetrics)
    as (_ & H & _).
  destruct (H (at_ms 0 loud)) as [_ Hearly].
  - vm_compute. reflexivity.
  - repeat constructor.
  - simpl. lia.
  - destruct Hearly as (_ & Hrate & Hpause); [simpl; lia|].
    split; [apply Hrate|apply Hpause]; simpl; lia.
Defined.

(** C7 as worded fails twice.  While speaking, pauseRatio is rounded:
    one speech frame out of three gives 66.7, not 200/3.  And speechRate
    is already 0 at 300 ms, before the 500 ms have elapsed, when a tick
    ran every millisecond. *)
Lemma C7_counterexample :
  let after l := snd (audioTicks sqrt_floor log_floor l (started, initialMetrics)) in
  (pauseRatio (after three) = 667 # 10 /\
   ~ pauseRatio (after three) == Spec.pauseRatio 1 3) /\
  (aboveThreshold sqrt_floor (at_ms 0 loud) = true /\
   forallb (fun u => negb (aboveThreshold sqrt_floor u)) (tail dense) = true /\
   forallb (fun u => (now2 u <? 500)%Z) dense = true /\
   speechRate (after dense) = 0).
Proof.
  cbv zeta. split; [split|].
  - vm_compute. reflexivity.
  - intros H. vm_compute in H. discriminate H.
  - repeat split; vm_compute; reflexivity.
Qed.

End AudioFacts.

(** ** The streaming client *)

Module LiveFacts.

Import JS JSFacts Live.

(** *** [disconnect] *)

(** The client [disconnect] leaves: everything released, the VAD fields
    and the playback cursor as they were. *)
Definition closed (c : GeminiLiveClient) : GeminiLiveClient :=
  mkClient None None None None (lastSpeechTime c) (isSpeaking c)
           (nextStartTime c) [] false None.

Lemma disconnect_closed (c : GeminiLiveClient) (d : Devices) :
  fst (disconnect c d) = closed c.
Proof.
  destruct c as [s ctx ip isrc lt sp nx q o w].
  destruct s, ctx; reflexivity.
Qed.

Lemma disconnect_of_closed (c : GeminiLiveClient) (d : Devices) :
  disconnect (closed c) d = (closed c, d).
Proof.
  destruct d. unfold disconnect, disconnect_start, stopAudioInput. simpl.
  unfold disconnect_after_session. simpl. now rewrite app_nil_r.
Qed.

Lemma disconnect_releases (c : GeminiLiveClient) (d : Devices) :
  (forall ctx : AudioContext,
     audioContext c = Some ctx ->
     In (contextId ctx) (closedContexts (snd (disconnect c d))))
  /\ (forall src : nat,
        In src (audioQueue c) -> In src (stopped (snd (disconnect c d)))).
Proof.
  destruct c as [s ctx ip isrc lt sp nx q o w]. simpl.
  split.
  - intros a ->. destruct s, ip; simpl; apply in_or_app; right; now left.
  - intros src Hin.
    destruct s, ctx, ip; simpl; apply in_or_app; right; exact Hin.
Qed.

(** What a call has reset for good once it is parked or finished. *)
Definition reset_by (k : CallState) (c : GeminiLiveClient) : Prop :=
  match k with
  | NotStarted => True
  | Parked AwaitSessionClose =>
      inputProcessor c = None /\ inputSource c = None /\ isSessionOpen c = false
  | Parked AwaitContextClose =>
      inputProcessor c = None /\ inputSource c = None /\ isSessionOpen c = false
      /\ session c = None /\ ws c = None /\ audioQueue c = []
  | Finished =>
      inputProcessor c = None /\ inputSource c = None /\ isSessionOpen c = false
      /\ session c = None /\ ws c = None /\ audioQueue c = []
      /\ audioContext c = None
  end.

(** The fields no stretch of [disconnect] writes. *)
Definition same_cursor (c c' : GeminiLiveClient) : Prop :=
  lastSpeechTime c' = lastSpeechTime c /\ isSpeaking c' = isSpeaking c
  /\ nextStartTime c' = nextStartTime c.

Lemma advance_own (k : CallState) (c : GeminiLiveClient) (d : Devices) :
  reset_by k c ->
  reset_by (fst (fst (advance k c d))) (snd (fst (advance k c d)))
  /\ same_cursor c (snd (fst (advance k c d))).
Proof.
  destruct c as [s ctx ip isrc lt sp nx q o w].
  destruct k as [|[|]|]; simpl; intros H.
  - destruct s, ctx; simpl; repeat split.
  - destruct ctx; simpl; repeat split; tauto.
  - repeat split; tauto.
  - repeat split; tauto.
Qed.

Lemma advance_other (k k2 : CallState) (c : GeminiLiveClient) (d : Devices) :
  reset_by k2 c -> reset_by k2 (snd (fst (advance k c d))).
Proof.
  destruct c as [s ctx ip isrc lt sp nx q o w].
  destruct k as [|[|]|], k2 as [|[|]|]; simpl; intros H;
    try exact I; try exact H;
    try (destruct s, ctx; simpl; tauto);
    try (destruct ctx; simpl; tauto);
    tauto.
Qed.

Lemma turns_reset (schedule : list bool) (k1 k2 : CallState)
    (c0 c : GeminiLiveClient) (d : Devices) :
  reset_by k1 c -> reset_by k2 c -> same_cursor c0 c ->
  let '(k1', k2', c', _) := turns schedule k1 k2 c d in
  reset_by k1' c' /\ reset_by k2' c' /\ same_cursor c0 c'.
Proof.
  revert k1 k2 c d.
  induction schedule as [|b rest IH]; intros k1 k2 c d H1 H2 Hc.
  - simpl. auto.
  - destruct b; simpl.
    + pose proof (advance_own k1 c d H1) as [Ho Hs].
      pose proof (advance_other k1 k2 c d H2) as Hx.
      destruct (advance k1 c d) as [[k1' c'] d']. simpl in *.
      apply IH; try assumption.
      destruct Hc as (A & B & C), Hs as (A' & B' & C').
      repeat split; congruence.
    + pose proof (advance_own k2 c d H2) as [Ho Hs].
      pose proof (advance_other k2 k1 c d H1) as Hx.
      destruct (advance k2 c d) as [[k2' c'] d']. simpl in *.
      apply IH; try assumption.
      destruct Hc as (A & B & C), Hs as (A' & B' & C').
      repeat split; congruence.
Qed.

(** C9.  [disconnect] ends with the session cleared, the open flag
    false, the playback queue empty and the audio context released,
    whatever the client was: the context it held was closed and every
    queued source was stopped.  A second call right after the first leaves
    the client and the devices as the first left them; and two calls
    whose stretches overlap in any order end in that same client. *)
Theorem C9_disconnect_idempotent (c : GeminiLiveClient) (d : Devices) :
  fst (disconnect c d) =
    mkClient None None None None (lastSpeechTime c) (isSpeaking c)
             (nextStartTime c) [] false None
  /\ (forall ctx : AudioContext,
        audioContext c = Some ctx ->
        In (contextId ctx) (closedContexts (snd (disconnect c d))))
  /\ (forall src : nat,
        In src (audioQueue c) -> In src (stopped (snd (disconnect c d))))
  /\ disconnect (fst (disconnect c d)) (snd (disconnect c d)) = disconnect c d
  /\ (forall (schedule : list bool) (c' : GeminiLiveClient) (d' : Devices),
        turns schedule NotStarted NotStarted c d = (Finished, Finished, c', d') ->
        c' = fst (disconnect c d)).
Proof.
  split; [apply disconnect_closed|].
  split; [apply disconnect_releases|]. split; [apply disconnect_releases|].
  split.
  - rewrite (surjective_pairing (disconnect c d)) at 3.
    rewrite disconnect_closed. apply disconnect_of_closed.
  - intros schedule c' d' H.
    pose proof (turns_reset schedule NotStarted NotStarted c c d I I) as Ht.
    rewrite H in Ht.
    destruct Ht as [Hf [_ Hs]]; [repeat split|].
    rewrite disconnect_closed. unfold closed.
    destruct c' as [s ctx ip isrc lt sp nx q o w]. simpl in *.
    destruct Hf as (-> & -> & -> & -> & -> & -> & ->).
    destruct Hs as (A & B & C). simpl in A, B, C. subst. reflexivity.
Qed.

Lemma C9_witness :
  exists c' d',
    turns [true; false; true; false; true; false] NotStarted NotStarted
          (fst Samples.connectedClient) (snd Samples.connectedClient)
      = (Finished, Finished, c', d')
    /\ c' = fst (disconnect (fst Samples.connectedClient)
                            (snd Samples.connectedClient)).
Proof.
  destruct (C9_disconnect_idempotent (fst Samples.connectedClient)
                                     (snd Samples.connectedClient))
    as (_ & _ & _ & _ & H).
  eexists _, _. split; [vm_compute; reflexivity|].
  eapply (H [true; false; true; false; true; false]).
  vm_compute. reflexivity.
Defined.

(** *** The transmit path *)

Lemma transmitted_log_close (s : nat) (d : Devices) :
  transmitted (log_call s close d) = transmitted d.
Proof.
  unfold transmitted, log_call. simpl.
  rewrite List.filter_app, length_app. simpl. lia.
Qed.

Lemma capture_closed (p : nat) (t : CaptureTick)
    (c : GeminiLiveClient) (d : Devices) :
  isSessionOpen c = false -> capture p t c d = (c, d).
Proof.
  intros H. unfold capture, onaudioprocess. rewrite H.
  destruct (processors d !! p) as [[|]|]; reflexivity.
Qed.

Lemma advance_closed (k : CallState) (c : GeminiLiveClient) (d : Devices) :
  isSessionOpen c = false ->
  isSessionOpen (snd (fst (advance k c d))) = false
  /\ transmitted (snd (advance k c d)) = transmitted d.
Proof.
  intros H. destruct c as [s ctx ip isrc lt sp nx q o w]. simpl in H. subst o.
  destruct k as [|[|]|]; simpl.
  - destruct s, ctx, ip; simpl; split; try reflexivity;
      rewrite transmitted_log_close; reflexivity.
  - destruct ctx; simpl; split; reflexivity.
  - split; reflexivity.
  - split; reflexivity.
Qed.

Lemma carry_on_closed (acts : list Activity) (k : CallState)
    (c : GeminiLiveClient) (d : Devices) :
  isSessionOpen c = false ->
  transmitted (snd (carry_on acts k c d)) = transmitted d.
Proof.
  revert k c d. induction acts as [|a acts IH]; intros k c d H; [reflexivity|].
  destruct a as [p t|]; simpl.
  - rewrite (capture_closed p t c d H). now apply IH.
  - pose proof (advance_closed k c d H) as [Ho Ht].
    destruct (advance k c d) as [[k' c'] d']. simpl in *.
    rewrite <- Ht. now apply IH.
Qed.

Lemma disconnect_start_closed (c : GeminiLiveClient) (d : Devices) :
  isSessionOpen (snd (fst (disconnect_start c d))) = false
  /\ transmitted (snd (disconnect_start c d)) = transmitted d.
Proof.
  pose proof (advance_own NotStarted c d I) as [Hr _].
  pose proof (advance_closed NotStarted c d) as Ha.
  unfold advance in *.
  destruct (disconnect_start c d) as [[ph c1] d1] eqn:E. simpl in *.
  split.
  - destruct ph as [[|]|]; simpl in Hr; tauto.
  - destruct c as [s ctx ip isrc lt sp nx q o w].
    unfold disconnect_start, stopAudioInput in E. simpl in E.
    destruct s, ctx, ip; simpl in E; injection E as <- <- <-;
      try reflexivity; rewrite transmitted_log_close; reflexivity.
Qed.

(** No processor node has its handler set. *)
Definition detached (d : Devices) : Prop :=
  forall q, processors d !! q <> Some true.

Lemma capture_detached (p : nat) (t : CaptureTick)
    (c : GeminiLiveClient) (d : Devices) :
  detached d -> capture p t c d = (c, d).
Proof.
  intros H. unfold capture. specialize (H p).
  destruct (processors d !! p) as [[|]|]; congruence.
Qed.

Lemma captures_detached (ticks : list (nat * CaptureTick))
    (c : GeminiLiveClient) (d : Devices) :
  detached d -> captures ticks c d = (c, d).
Proof.
  intros H. unfold captures.
  induction ticks as [|[p t] ticks IH]; [reflexivity|].
  simpl. rewrite (capture_detached p t c d H). exact IH.
Qed.

Lemma stopAudioInput_detached (c : GeminiLiveClient) (d : Devices) :
  (forall q, processors d !! q = Some true -> inputProcessor c = Some q) ->
  detached (snd (stopAudioInput c d))
  /\ calls (snd (stopAudioInput c d)) = calls d.
Proof.
  intros Hsole. unfold stopAudioInput, detached.
  destruct (inputProcessor c) as [p|] eqn:E; cbn [snd processors calls].
  - split; [|reflexivity]. intros q Hq.
    destruct (decide (p = q)) as [->|Hne].
    + pose proof (lookup_lt_Some _ _ _ Hq) as Hlt.
      rewrite length_insert in Hlt.
      rewrite list_lookup_insert_eq in Hq by exact Hlt. discriminate.
    + rewrite list_lookup_insert_ne in Hq by exact Hne.
      specialize (Hsole q Hq). congruence.
  - split; [|reflexivity]. intros q Hq. specialize (Hsole q Hq). discriminate.
Qed.

(** The processor the client holds is the only one with a handler. *)
Definition sole_processor (c : GeminiLiveClient) (d : Devices) : Prop :=
  forall q, processors d !! q = Some true -> inputProcessor c = Some q.

(** [startAudioInput] keeps that when the client holds no processor,
    which is how [connect] leaves it. *)
Lemma sole_processor_start (c : GeminiLiveClient) (d : Devices) :
  inputProcessor c = None -> sole_processor c d ->
  sole_processor (fst (startAudioInput c d)) (snd (startAudioInput c d)).
Proof.
  intros Hn Hs q. unfold startAudioInput.
  destruct (audioContext c); simpl; [|apply Hs].
  intros Hq.
  destruct (decide (q < length (processors d))%nat) as [Hlt|Hge].
  - rewrite lookup_app_l in Hq by exact Hlt.
    specialize (Hs q Hq). congruence.
  - apply lookup_lt_Some in Hq. rewrite length_app in Hq. simpl in Hq.
    f_equal. lia.
Qed.

Lemma captures_handler_cleared (p : nat) (ticks : list CaptureTick)
    (c : GeminiLiveClient) (d : Devices) :
  processors d !! p <> Some true ->
  captures (map (pair p) ticks) c d = (c, d).
Proof.
  intros H. unfold captures.
  induction ticks as [|t ticks IH]; [reflexivity|].
  simpl. unfold capture at 2.
  destruct (processors d !! p) as [[|]|]; [congruence|exact IH|exact IH].
Qed.

Lemma stopAudioInput_clears (p : nat) (c : GeminiLiveClient) (d : Devices) :
  inputProcessor c = Some p ->
  processors (snd (stopAudioInput c d)) !! p <> Some true
  /\ calls (snd (stopAudioInput c d)) = calls d.
Proof.
  intros E. unfold stopAudioInput. rewrite E. cbn [snd processors calls].
  split; [|reflexivity]. intros Hq.
  pose proof (lookup_lt_Some _ _ _ Hq) as Hlt.
  rewrite length_insert in Hlt.
  rewrite list_lookup_insert_eq in Hq by exact Hlt. discriminate.
Qed.

(** C1 (amended).  Once [disconnect()] has been called, no capture tick
    of any processor node enters the transmit path, whatever the order
    of the ticks and of the stretches the call still has to run: the open
    flag is false and the count of transmitted frames stays what it was.
    Once [stopAudioInput()] has been called, no capture tick of the
    processor the client held enters the transmit path; and when that
    processor was the only one with a handler, no capture tick at all
    does. *)
Theorem C1_no_transmit_after_close (c : GeminiLiveClient) (d : Devices) :
  (forall acts : list Activity,
     let '(ph, c1, d1) := disconnect_start c d in
     isSessionOpen c1 = false
     /\ transmitted (snd (carry_on acts (call_state ph) c1 d1)) = transmitted d)
  /\ (forall (p : nat) (ticks : list CaptureTick),
        inputProcessor c = Some p ->
        let '(c1, d1) := stopAudioInput c d in
        transmitted (snd (captures (map (pair p) ticks) c1 d1)) = transmitted d)
  /\ (sole_processor c d ->
      forall ticks : list (nat * CaptureTick),
        let '(c1, d1) := stopAudioInput c d in
        transmitted (snd (captures ticks c1 d1)) = transmitted d).
Proof.
  split; [|split].
  - intros acts.
    pose proof (disconnect_start_closed c d) as [Ho Ht].
    destruct (disconnect_start c d) as [[ph c1] d1]. simpl in *.
    split; [exact Ho|].
    rewrite <- Ht. now apply carry_on_closed.
  - intros p ticks E.
    pose proof (stopAudioInput_clears p c d E) as [Hp Hc].
    destruct (stopAudioInput c d) as [c1 d1]. simpl in *.
    rewrite (captures_handler_cleared p ticks c1 d1 Hp). simpl.
    unfold transmitted. now rewrite Hc.
  - intros Hsole ticks.
    pose proof (stopAudioInput_detached c d Hsole) as [Hd Hc].
    destruct (stopAudioInput c d) as [c1 d1]. simpl in *.
    rewrite (captures_detached ticks c1 d1 Hd). simpl.
    unfold transmitted. now rewrite Hc.
Qed.

(** On the connected sample client a capture tick transmits one frame;
    after [stopAudioInput] the same ticks transmit none. *)
Lemma C1_witness :
  let c := fst Samples.connectedClient in
  let d := snd Samples.connectedClient in
  transmitted (snd (capture 0 Samples.voicedCapture c d)) = 1%nat
  /\ inputProcessor c = Some 0%nat
  /\ sole_processor c d
  /\ transmitted
       (snd (captures (map (pair 0%nat) [Samples.voicedCapture; Samples.silentCapture])
               (fst (stopAudioInput c d)) (snd (stopAudioInput c d))))
     = 0%nat
  /\ transmitted
       (snd (captures [(0%nat, Samples.voicedCapture); (1%nat, Samples.silentCapture)]
               (fst (stopAudioInput c d)) (snd (stopAudioInput c d))))
     = 0%nat.
Proof.
  cbv zeta.
  assert (Hs : sole_processor (fst Samples.connectedClient)
                              (snd Samples.connectedClient)).
  { intros [|q] Hq; [reflexivity|].
    vm_compute in Hq. destruct q; discriminate Hq. }
  split; [vm_compute; reflexivity|]. split; [reflexivity|]. split; [exact Hs|].
  destruct (C1_no_transmit_after_close (fst Samples.connectedClient)
                                       (snd Samples.connectedClient))
    as (_ & Hheld & Hall).
  specialize (Hheld 0%nat [Samples.voicedCapture; Samples.silentCapture] eq_refl).
  specialize (Hall Hs [(0%nat, Samples.voicedCapture); (1%nat, Samples.silentCapture)]).
  destruct (stopAudioInput (fst Samples.connectedClient)
                           (snd Samples.connectedClient)) as [c1 d1].
  split; [exact Hheld|exact Hall].
Defined.

(** C1 as worded fails for [stopAudioInput()].  [startAudioInput] called
    on a client that is capturing installs a second processor node and
    leaves the handler of the first in place; [stopAudioInput] clears the
    node the client holds, the second, and leaves the open flag as it
    is.  A capture tick of the first node then transmits a frame: on
    the client alone, and in the orchestrator after a second
    [startAudioInput] and a muted microphone. *)
Lemma C1_counterexample :
  let c := fst Samples.connectedClient in
  let d := snd Samples.connectedClient in
  let again := startAudioInput c d in
  let muted := stopAudioInput (fst again) (snd again) in
  let w := Graph.run Samples.sqrt_floor Samples.log_floor
             (Graph.newGraph Samples.config10 true true)
             (Samples.opening ++ [Graph.AudioInputStarted; Graph.MicMuted]) in
  (inputProcessor (fst muted) = None
   /\ transmitted (snd muted) = 0%nat
   /\ transmitted (snd (capture 0 Samples.voicedCapture (fst muted) (snd muted)))
      = 1%nat)
  /\ (inputProcessor (Graph.liveClient w) = None
      /\ transmitted (Graph.devices w) = 0%nat
      /\ transmitted
           (Graph.devices
              (Graph.step Samples.sqrt_floor Samples.log_floor w
                          (Graph.Capture 0 Samples.voicedCapture)))
         = 1%nat).
Proof. cbv zeta. repeat split; vm_compute; reflexivity. Qed.

(** *** The captured frame *)

(** What a capture tick sends on an open, connected client. *)
Lemma capture_frame (t : CaptureTick) (c : GeminiLiveClient) (d : Devices)
    (s k : nat) (ctx : AudioContext) :
  isSessionOpen c = true -> session c = Some s -> ws c = Some k ->
  audioContext c = Some ctx -> ready t = OPEN ->
  calls (snd (onaudioprocess t c d)) =
    calls d ++
    [(s, sendRealtimeInput
           (Media "audio/pcm;rate=16000"
                  (if isSpeaking (fst (onaudioprocess t c d))
                   then downsample (input t) (sampleRate ctx) INPUT_SAMPLE_RATE
                   else repeat 0%Z 320)))].
Proof.
  intros Ho Hs Hw Hc Hr. unfold onaudioprocess.
  rewrite Ho, Hs, Hc. cbv zeta.
  match goal with
  | |- context [if (1200 <? ?a)%Z then false else ?b] =>
      set (sp := if (1200 <? a)%Z then false else b)
  end.
  destruct sp; cbn [fst snd isSpeaking];
    unfold safeSend; cbn [isSessionOpen session ws]; rewrite ?Ho, ?Hs, ?Hw, ?Hr;
    reflexivity.
Qed.

(** C3 at the failing input.  A connected client at 24 kHz captures a
    buffer of 4096 samples.  With speech in it the frame sent is the
    buffer decimated to 16 kHz, 2730 samples.  With silence in it the
    frame sent is 320 zero samples: 20 ms, not the 4096/24000 s of the
    captured buffer, whose equivalent at 16 kHz is 2730 samples. *)
Theorem C3_silent_frame_is_320_samples :
  let c := fst Samples.connectedClient in
  let d := snd Samples.connectedClient in
  calls (snd (capture 0 Samples.voicedCapture c d)) =
    [(1%nat, sendRealtimeInput
               (Media "audio/pcm;rate=16000"
                      (downsample (input Samples.voicedCapture) 24000 16000)))]
  /\ length (downsample (input Samples.voicedCapture) 24000 16000) = 2730%nat
  /\ calls (snd (capture 0 Samples.silentCapture c d)) =
       [(1%nat, sendRealtimeInput (Media "audio/pcm;rate=16000" (repeat 0%Z 320)))]
  /\ length (downsample (input Samples.silentCapture) 24000 16000) = 2730%nat
  /\ ~ inject_Z 320 / INPUT_SAMPLE_RATE
        == inject_Z (Z.of_nat (length (input Samples.silentCapture)))
           / OUTPUT_SAMPLE_RATE.
Proof.
  cbv zeta. repeat split; try (vm_compute; reflexivity).
  intros H. vm_compute in H. discriminate H.
Qed.

(** *** The playback schedule *)

Definition lastEndFrom (p : Q) (l : list Scheduled) : Q :=
  fold_left (fun _ e => startTime e + duration e) l p.

Lemma chained_snoc (p : Q) (l : list Scheduled) (e : Scheduled) :
  chained p l -> startTime e == Qmax (clock e) (lastEndFrom p l) ->
  chained p (l ++ [e]).
Proof.
  revert p. induction l as [|a l IH]; intros p Hc He; simpl in *.
  - split; [exact He|exact I].
  - destruct Hc as [Ha Hc]. split; [exact Ha|]. apply IH; assumption.
Qed.

Lemma later_is_max (next t : Q) :
  (if Qlt_bool next t then t else next) == Qmax t next.
Proof.
  destruct (Qlt_bool next t) eqn:E.
  - apply Qlt_bool_iff in E. symmetry. apply Q.max_l. now apply Qlt_le_weak.
  - apply Qlt_bool_false in E. symmetry. apply Q.max_r. exact E.
Qed.

(** The playback cursor is the end of the last scheduled buffer. *)
Definition gapless (c : GeminiLiveClient) (d : Devices) : Prop :=
  chained 0 (playback d) /\ nextStartTime c = lastEnd (playback d).

Lemma queueAudio_gapless (data : Base64) (t : Q)
    (c : GeminiLiveClient) (d : Devices) :
  gapless c d ->
  gapless (fst (queueAudio data t c d)) (snd (queueAudio data t c d)).
Proof.
  intros [Hc Hn]. unfold queueAudio.
  destruct (audioContext c), (isSessionOpen c); try (split; assumption).
  destruct (bufferDuration data) as [dur|]; [|split; assumption].
  unfold gapless. cbn [fst snd playback nextStartTime]. split.
  - apply chained_snoc; [exact Hc|]. cbn [startTime clock].
    change (lastEndFrom 0 (playback d)) with (lastEnd (playback d)).
    rewrite <- Hn. apply later_is_max.
  - unfold lastEnd. rewrite fold_left_app. reflexivity.
Qed.

Lemma chained_first (p : Q) (l : list Scheduled) (e : Scheduled) :
  chained p l -> l !! 0%nat = Some e -> startTime e == Qmax (clock e) p.
Proof.
  destruct l as [|a l]; [discriminate|].
  simpl. intros [H _] [= ->]. exact H.
Qed.

Lemma chained_consecutive (p : Q) (l : list Scheduled) (i : nat)
    (e1 e2 : Scheduled) :
  chained p l -> l !! i = Some e1 -> l !! S i = Some e2 ->
  startTime e2 == Qmax (clock e2) (startTime e1 + duration e1)
  /\ startTime e1 + duration e1 <= startTime e2.
Proof.
  revert p i. induction l as [|a l IH]; intros p i Hc H1 H2; [discriminate|].
  destruct Hc as [_ Hc]. destruct i as [|i].
  - injection H1 as ->. simpl in H2.
    pose proof (chained_first _ _ _ Hc H2) as H.
    split; [exact H|]. rewrite H. apply Q.le_max_r.
  - simpl in H1, H2. exact (IH _ _ Hc H1 H2).
Qed.

End LiveFacts.

(** ** The orchestrator *)

Module GraphFacts.

Import JS JSFacts Analysis Live LiveFacts Graph.

(** *** What the events leave alone *)

(** The acknowledgments sent so far. *)
Definition acks (d : Devices) : list (nat * SessionCall) :=
  List.filter is_toolResponse (calls d).

(** The step from [(c, d)] to [(c', d')] schedules no playback and sends
    no acknowledgment. *)
Definition keeps (c : GeminiLiveClient) (d : Devices)
    (cd' : GeminiLiveClient * Devices) : Prop :=
  nextStartTime (fst cd') = nextStartTime c
  /\ playback (snd cd') = playback d
  /\ acks (snd cd') = acks d.

Lemma acks_log (s : nat) (k : SessionCall) (d : Devices) :
  is_toolResponse (s, k) = false -> acks (log_call s k d) = acks d.
Proof.
  intros H. unfold acks, log_call. simpl.
  rewrite List.filter_app. simpl. rewrite H. apply app_nil_r.
Qed.

Lemma safeSend_keeps (r : ReadyState) (data : RealtimeInput)
    (c : GeminiLiveClient) (d : Devices) :
  keeps c d (c, safeSend r data c d).
Proof.
  unfold keeps, safeSend. simpl.
  destruct (isSessionOpen c), (session c), (ws c), (is_OPEN r);
    simpl; repeat split; apply acks_log; reflexivity.
Qed.

Lemma stopAudioInput_keeps (c : GeminiLiveClient) (d : Devices) :
  keeps c d (stopAudioInput c d).
Proof.
  unfold keeps, stopAudioInput. destruct (inputProcessor c); repeat split.
Qed.

Lemma disconnect_after_session_keeps (c : GeminiLiveClient) (d : Devices) :
  keeps c d (snd (fst (disconnect_after_session c d)),
             snd (disconnect_after_session c d)).
Proof.
  unfold keeps, disconnect_after_session.
  destruct (audioContext c); repeat split.
Qed.

Lemma disconnect_start_keeps (c : GeminiLiveClient) (d : Devices) :
  keeps c d (snd (fst (disconnect_start c d)), snd (disconnect_start c d)).
Proof.
  unfold keeps, disconnect_start, stopAudioInput, disconnect_after_session.
  destruct c as [s ctx ip isrc lt sp nx q o w].
  destruct s, ctx, ip; simpl; repeat split;
    try (rewrite acks_log by reflexivity); reflexivity.
Qed.

Lemma disconnect_resume_keeps (ph : DisconnectPhase)
    (c : GeminiLiveClient) (d : Devices) :
  keeps c d (snd (fst (disconnect_resume ph c d)), snd (disconnect_resume ph c d)).
Proof.
  destruct ph; simpl.
  - apply disconnect_after_session_keeps.
  - repeat split.
Qed.

Lemma connect_begin_keeps (ctx : nat) (c : GeminiLiveClient) (d : Devices) :
  keeps c d (snd (fst (connect_begin ctx c d)), snd (connect_begin ctx c d)).
Proof.
  pose proof (disconnect_start_keeps c d) as H.
  unfold connect_begin.
  destruct (disconnect_start c d) as [[ph c1] d1]. exact H.
Qed.

Lemma startAudioInput_keeps (c : GeminiLiveClient) (d : Devices) :
  keeps c d (startAudioInput c d).
Proof.
  unfold keeps, startAudioInput. destruct (audioContext c); repeat split.
Qed.

Lemma capture_keeps (p : nat) (t : CaptureTick)
    (c : GeminiLiveClient) (d : Devices) :
  keeps c d (capture p t c d).
Proof.
  unfold capture. destruct (processors d !! p) as [[|]|]; try (repeat split; fail).
  unfold onaudioprocess.
  destruct (isSessionOpen c) eqn:Ho, (session c) eqn:Hs; try (repeat split; fail).
  cbv zeta.
  match goal with
  | |- context [if (1200 <? ?a)%Z then false else ?b] =>
      set (sp := if (1200 <? a)%Z then false else b)
  end.
  destruct sp; [destruct (audioContext c)|]; try (repeat split; fail).
  - match goal with
    | |- keeps _ _ (?c', safeSend ?r ?data ?c' ?d) =>
        exact (safeSend_keeps r data c' d)
    end.
  - match goal with
    | |- keeps _ _ (?c', safeSend ?r ?data ?c' ?d) =>
        exact (safeSend_keeps r data c' d)
    end.
Qed.

(** The step from [w] to [w'] keeps the playback schedule chained and
    sends no acknowledgment. *)
Definition stable (w w' : World) : Prop :=
  (gapless (liveClient w) (devices w) -> gapless (liveClient w') (devices w'))
  /\ acks (devices w') = acks (devices w).

Lemma stable_refl (w : World) : stable w w.
Proof. split; [tauto|reflexivity]. Qed.

Lemma stable_trans (w1 w2 w3 : World) :
  stable w1 w2 -> stable w2 w3 -> stable w1 w3.
Proof. intros [A B] [C D]. split; [tauto|congruence]. Qed.

Lemma stable_keeps (w w' : World) :
  keeps (liveClient w) (devices w) (liveClient w', devices w') -> stable w w'.
Proof.
  intros (Hn & Hp & Ha). split; [|exact Ha].
  unfold gapless. simpl in *. rewrite Hn, Hp. tauto.
Qed.

Lemma stable_same (w w' : World) :
  liveClient w' = liveClient w -> devices w' = devices w -> stable w w'.
Proof. intros Hc Hd. unfold stable. rewrite Hc, Hd. split; [tauto|reflexivity]. Qed.

Lemma fold_stable {A} (f : World -> A -> World) (l : list A) (w : World) :
  (forall w a, stable w (f w a)) -> stable w (fold_left f l w).
Proof.
  intros H. revert w. induction l as [|a l IH]; intros w; simpl.
  - apply stable_refl.
  - eapply stable_trans; [apply H|apply IH].
Qed.

Lemma handlePart_stable (r : Readings) (w : World) (p : Part) :
  stable w (handlePart r w p).
Proof.
  unfold handlePart.
  set (w1 := match inlineData p with Some _ => _ | None => w end).
  assert (H1 : stable w w1).
  { subst w1. destruct (inlineData p) as [data|]; [|apply stable_refl].
    split; simpl.
    - apply queueAudio_gapless.
    - unfold queueAudio.
      destruct (audioContext (liveClient w)), (isSessionOpen (liveClient w));
        try reflexivity.
      destruct (bufferDuration data); reflexivity. }
  eapply stable_trans; [exact H1|].
  destruct (partText p) as [t|]; [|apply stable_refl].
  destruct (truthy (Some t)); [|apply stable_refl].
  apply stable_same; reflexivity.
Qed.

Lemma onToolCall_stable (name : string) (args : option ToolArgs) (r : Readings)
    (w : World) :
  stable w (onToolCall name args r w).
Proof.
  unfold onToolCall.
  destruct (String.eqb name "save_assessment"); [|apply stable_refl].
  destruct args as [args|]; [|apply stable_refl].
  cbv zeta.
  match goal with
  | |- context [if ?b then _ else _] => destruct b
  end.
  - apply stable_keeps. cbn [liveClient devices with_timers with_live with_graph
                             handleAssessment with_analysis fst snd].
    apply safeSend_keeps.
  - apply stable_same; reflexivity.
Qed.

Lemma safeHandleMessage_stable (m : LiveServerMessage) (r : Readings)
    (w : World) :
  stable w (safeHandleMessage m r w).
Proof.
  unfold safeHandleMessage.
  destruct (negb (isSessionOpen (liveClient w))); [apply stable_refl|].
  eapply stable_trans.
  - apply (fold_stable (handlePart r)). intros. apply handlePart_stable.
  - apply (fold_stable (fun w c => onToolCall (callName c) (callArgs c) r w)).
    intros. apply onToolCall_stable.
Qed.

Lemma stopSession_stable (w : World) : stable w (stopSession w).
Proof.
  unfold stopSession.
  pose proof (disconnect_start_keeps (liveClient w) (devices w)) as H.
  destruct (disconnect_start (liveClient w) (devices w)) as [[ph c] d].
  apply stable_keeps. destruct ph; exact H.
Qed.

Lemma timeout_stable (w : World) : stable w (timeout w).
Proof.
  unfold timeout. destruct (timers w) as [|t rest]; [apply stable_refl|].
  unfold wrapUpTimeout.
  eapply stable_trans; [|].
  - apply (stable_trans _ (with_timers rest w));
      [apply stable_same; reflexivity|apply stopSession_stable].
  - destruct (onEnd _); [apply stable_same; reflexivity|apply stable_refl].
Qed.

Lemma resume_stable (i : nat) (w : World) : stable w (resume i w).
Proof.
  unfold resume. destruct (parked w !! i) as [ph|]; [|apply stable_refl].
  pose proof (disconnect_resume_keeps ph (liveClient w) (devices w)) as H.
  destruct (disconnect_resume ph (liveClient w) (devices w)) as [[ph' c] d].
  apply stable_keeps. exact H.
Qed.

Lemma connecting_stable (ctx : nat) (w : World) : stable w (connecting ctx w).
Proof.
  unfold connecting.
  pose proof (connect_begin_keeps ctx (liveClient w) (devices w)) as H.
  destruct (connect_begin ctx (liveClient w) (devices w)) as [[ph c] d].
  apply stable_keeps. destruct ph; exact H.
Qed.

(** *** The [save_assessment] call *)

Lemma realQuestion_firstGiven (args : ToolArgs) (st : InterviewState) :
  realQuestion args st =
    Spec.firstGiven [full_question_text args; Some (currentQuestionText st);
                     question_topic args] "Interview Question".
Proof.
  unfold realQuestion.
  destruct (full_question_text args) as [[|c t]|],
           (currentQuestionText st) as [|c' t'],
           (question_topic args) as [[|c'' t'']|]; reflexivity.
Qed.

Lemma rawUserAnswer_spec (args : ToolArgs) (g : InterviewGraph) :
  rawUserAnswer args g =
    Spec.userAnswer (userTranscriptBuffer g) (user_answer_summary args).
Proof.
  unfold rawUserAnswer, Spec.userAnswer.
  destruct (trim (userTranscriptBuffer g)) as [|c t]; [|reflexivity].
  destruct (user_answer_summary args) as [[|c t]|]; reflexivity.
Qed.

Lemma fresh_unused (h : gmap nat AnalysisMetrics) : h !! fresh (dom h) = None.
Proof. apply not_elem_of_dom. apply is_fresh. Qed.

(** The object at [l] holds [m] and is not the live metrics object. *)
Definition frozen (l : nat) (m : AnalysisMetrics) (w : World) : Prop :=
  heap w !! l = Some m /\ l <> currentMetrics w.

Lemma frozen_same (l : nat) (m : AnalysisMetrics) (w w' : World) :
  heap w' = heap w -> currentMetrics w' = currentMetrics w ->
  frozen l m w -> frozen l m w'.
Proof. unfold frozen. intros -> ->. tauto. Qed.

Lemma frozen_live_write (l : nat) (m m' : AnalysisMetrics) (w w' : World) :
  heap w' = <[ currentMetrics w := m' ]> (heap w) ->
  currentMetrics w' = currentMetrics w ->
  frozen l m w -> frozen l m w'.
Proof.
  unfold frozen. intros -> -> [H Hne]. split; [|exact Hne].
  rewrite lookup_insert_ne by congruence. exact H.
Qed.

Lemma handleAssessment_frozen (l : nat) (m : AnalysisMetrics)
    (args : ToolArgs) (now : Z) (w : World) :
  frozen l m w -> frozen l m (handleAssessment args now w).
Proof.
  unfold frozen. intros [H Hne]. split; [|exact Hne].
  cbn [heap handleAssessment with_analysis].
  rewrite lookup_insert_ne; [exact H|].
  intros E. rewrite <- E, fresh_unused in H. discriminate.
Qed.

Lemma onToolCall_frozen (l : nat) (m : AnalysisMetrics)
    (name : string) (args : option ToolArgs) (r : Readings) (w : World) :
  frozen l m w -> frozen l m (onToolCall name args r w).
Proof.
  intros H. unfold onToolCall.
  destruct (String.eqb name "save_assessment"); [|exact H].
  destruct args as [args|]; [|exact H].
  apply (handleAssessment_frozen l m args (dateNow r)) in H.
  cbv zeta.
  match goal with
  | |- context [if ?b then _ else _] => destruct b
  end; (eapply frozen_same; [| |exact H]; reflexivity).
Qed.

Lemma fold_frozen {A} (l : nat) (m : AnalysisMetrics)
    (f : World -> A -> World) (xs : list A) (w : World) :
  (forall w a, frozen l m w -> frozen l m (f w a)) ->
  frozen l m w -> frozen l m (fold_left f xs w).
Proof.
  intros H. revert w. induction xs as [|a xs IH]; intros w Hw; simpl; auto.
Qed.

Lemma handlePart_frozen (l : nat) (m : AnalysisMetrics)
    (r : Readings) (w : World) (p : Part) :
  frozen l m w -> frozen l m (handlePart r w p).
Proof.
  intros H. unfold handlePart.
  eapply frozen_same; [| |exact H].
  - destruct (inlineData p), (partText p) as [t|]; try reflexivity;
      destruct (truthy (Some t)); reflexivity.
  - destruct (inlineData p), (partText p) as [t|]; try reflexivity;
      destruct (truthy (Some t)); reflexivity.
Qed.

Lemma safeHandleMessage_frozen (l : nat) (m : AnalysisMetrics)
    (msg : LiveServerMessage) (r : Readings) (w : World) :
  frozen l m w -> frozen l m (safeHandleMessage msg r w).
Proof.
  intros H. unfold safeHandleMessage.
  destruct (negb (isSessionOpen (liveClient w))); [exact H|].
  apply (fold_frozen l m (fun w c => onToolCall (callName c) (callArgs c) r w)).
  - intros. now apply onToolCall_frozen.
  - apply (fold_frozen l m (handlePart r)); [|exact H].
    intros. now apply handlePart_frozen.
Qed.

Lemma stopSession_heap (w : World) :
  heap (stopSession w) = heap w /\ currentMetrics (stopSession w) = currentMetrics w.
Proof.
  unfold stopSession.
  destruct (disconnect_start (liveClient w) (devices w)) as [[[ph|] c] d];
    split; reflexivity.
Qed.

Section Runs.

Variables Math_sqrt Math_log10 : Q -> Q.

Abbreviation step := (Graph.step Math_sqrt Math_log10).
Abbreviation run := (Graph.run Math_sqrt Math_log10).

Lemma step_stable (w : World) (e : Event) : stable w (step w e).
Proof.
  destruct e; simpl.
  - apply stable_same; reflexivity.
  - unfold audioInitialised. destruct (initAudio _ _ _ _ _).
    apply stable_same; reflexivity.
  - apply connecting_stable.
  - apply stable_keeps. repeat split.
  - apply stable_same; reflexivity.
  - apply stable_keeps. apply startAudioInput_keeps.
  - apply safeHandleMessage_stable.
  - apply stable_keeps. apply capture_keeps.
  - apply stable_keeps. repeat split.
  - apply stable_keeps. repeat split.
  - apply stable_keeps. repeat split.
  - apply stable_keeps. repeat split.
  - apply resume_stable.
  - apply timeout_stable.
  - apply stable_same; reflexivity.
  - unfold audioFrame. destruct (processAudioLoop _ _ _ _ _).
    apply stable_same; reflexivity.
  - unfold faceResults. destruct (onFaceResults _ _ _) as [[s m]|];
      [apply stable_same; reflexivity|apply stable_refl].
  - apply stopSession_stable.
  - apply stable_keeps. apply safeSend_keeps.
  - apply stable_keeps. apply stopAudioInput_keeps.
  - apply stable_same; reflexivity.
Qed.

Lemma run_stable (w : World) (es : list Event) : stable w (run w es).
Proof. apply fold_stable. apply step_stable. Qed.

Lemma newGraph_gapless (cfg : InterviewConfig) (e r : bool) :
  gapless (liveClient (newGraph cfg e r)) (devices (newGraph cfg e r)).
Proof. split; [exact I|reflexivity]. Qed.

(** C4.  In every state the orchestrator can reach, the buffers
    scheduled for playback are chained: the first starts at the later
    of the playback clock read when it was scheduled and 0, each next
    one at the later of the playback clock read when it was scheduled
    and the end of the one before; so no buffer starts before the
    previous one has ended. *)
Theorem C4_gapless_playback (cfg : InterviewConfig) (onEnd recognition : bool)
    (es : list Event) :
  let d := devices (run (newGraph cfg onEnd recognition) es) in
  (forall e : Scheduled,
     playback d !! 0%nat = Some e -> startTime e == Qmax (clock e) 0)
  /\ (forall (i : nat) (e1 e2 : Scheduled),
        playback d !! i = Some e1 -> playback d !! S i = Some e2 ->
        startTime e2 == Qmax (clock e2) (startTime e1 + Live.duration e1)
        /\ startTime e1 + Live.duration e1 <= startTime e2).
Proof.
  intros d.
  destruct (run_stable (newGraph cfg onEnd recognition) es) as [Hg _].
  destruct (Hg (newGraph_gapless cfg onEnd recognition)) as [Hc _].
  fold d in Hc. split.
  - intros e He. exact (chained_first _ _ _ Hc He).
  - intros i e1 e2 H1 H2. exact (chained_consecutive _ _ _ _ _ Hc H1 H2).
Qed.

(** No state the orchestrator can reach holds an acknowledgment sent to
    the remote agent, and handling one more inbound message sends none. *)
Lemma no_acknowledgment (cfg : InterviewConfig)
    (onEnd recognition : bool) (es : list Event)
    (m : LiveServerMessage) (r : Readings) :
  let w := run (newGraph cfg onEnd recognition) es in
  acks (devices w) = []
  /\ acks (devices (safeHandleMessage m r w)) = [].
Proof.
  intros w.
  destruct (run_stable (newGraph cfg onEnd recognition) es) as [_ Ha].
  fold w in Ha. split; [rewrite Ha; reflexivity|].
  destruct (safeHandleMessage_stable m r w) as [_ Hm].
  rewrite Hm, Ha. reflexivity.
Qed.

(** The question budget of the session state. *)
Definition budget (w : World) : nat := totalQuestions (state (graph w)).

Lemma fold_budget {A} (f : World -> A -> World) (xs : list A) (w : World) :
  (forall w a, budget (f w a) = budget w) -> budget (fold_left f xs w) = budget w.
Proof.
  intros H. revert w. induction xs as [|a xs IH]; intros w; simpl; [reflexivity|].
  rewrite IH. apply H.
Qed.

Lemma handlePart_budget (r : Readings) (w : World) (p : Part) :
  budget (handlePart r w p) = budget w.
Proof.
  unfold handlePart.
  destruct (inlineData p), (partText p) as [t|]; try reflexivity;
    destruct (truthy (Some t)); reflexivity.
Qed.

Lemma onToolCall_budget (name : string) (args : option ToolArgs)
    (r : Readings) (w : World) :
  budget (onToolCall name args r w) = budget w.
Proof.
  unfold onToolCall.
  destruct (String.eqb name "save_assessment"); [|reflexivity].
  destruct args as [args|]; [|reflexivity].
  cbv zeta.
  match goal with
  | |- context [if ?b then _ else _] => destruct b
  end; reflexivity.
Qed.

Lemma stopSession_budget (w : World) : budget (stopSession w) = budget w.
Proof.
  unfold stopSession.
  destruct (disconnect_start (liveClient w) (devices w)) as [[[ph|] c] d];
    reflexivity.
Qed.

Lemma step_budget (w : World) (e : Event) : budget (step w e) = budget w.
Proof.
  destruct e; simpl; try reflexivity.
  - unfold audioInitialised. destruct (initAudio _ _ _ _ _). reflexivity.
  - unfold connecting.
    destruct (connect_begin _ _ _) as [[[ph|] c] d]; reflexivity.
  - unfold safeHandleMessage.
    destruct (negb (isSessionOpen (liveClient w))); [reflexivity|].
    rewrite (fold_budget (fun w c => onToolCall (callName c) (callArgs c) r w)).
    + apply (fold_budget (handlePart r)). intros. apply handlePart_budget.
    + intros. apply onToolCall_budget.
  - unfold resume. destruct (parked w !! i) as [ph|]; [|reflexivity].
    destruct (disconnect_resume _ _ _) as [[ph' c] d]. reflexivity.
  - unfold timeout. destruct (timers w) as [|t rest]; [reflexivity|].
    unfold wrapUpTimeout.
    pose proof (stopSession_budget (with_timers rest w)) as H.
    destruct (onEnd _); exact H.
  - unfold onresult. destruct (truthy _); reflexivity.
  - unfold audioFrame. destruct (processAudioLoop _ _ _ _ _). reflexivity.
  - unfold faceResults. destruct (onFaceResults _ _ _) as [[s m]|]; reflexivity.
  - apply stopSession_budget.
Qed.

Lemma run_budget (w : World) (es : list Event) : budget (run w es) = budget w.
Proof. apply fold_budget. apply step_budget. Qed.

Lemma totalQs_breakpoints (d : Q) :
  (30 <= d -> totalQs d = 7%nat)
  /\ (20 <= d -> d < 30 -> totalQs d = 5%nat)
  /\ (d < 20 -> totalQs d = 3%nat).
Proof.
  unfold totalQs. repeat split.
  - intros H. apply Qle_bool_iff in H. now rewrite H.
  - intros H1 H2. apply Qle_bool_iff in H1. rewrite H1.
    destruct (Qle_bool 30 d) eqn:E; [|reflexivity].
    apply Qle_bool_iff in E. exfalso. exact (Qlt_not_le _ _ H2 E).
  - intros H.
    destruct (Qle_bool 30 d) eqn:E.
    { apply Qle_bool_iff in E. exfalso. apply (Qlt_not_le _ _ H). lra. }
    destruct (Qle_bool 20 d) eqn:E2; [|reflexivity].
    apply Qle_bool_iff in E2. exfalso. exact (Qlt_not_le _ _ H E2).
Qed.

(** C5.  The constructor sets the question budget from the duration
    by the breakpoints 30 and 20 minutes (7, 5, else 3), no event changes
    it afterwards, and a ten-minute configuration gets 3.  In a connected
    session with the socket open, the first
    two [save_assessment] calls send nothing and start no timer; the
    third sends the wrap-up control message and starts one timer of
    6000 ms; when that timer fires the session is stopped and the
    completion callback is called once, with an assessment log of
    length 3 and a transcript log of length 6, and no timer is left. *)
Theorem C5_three_questions_then_wrap_up
    (cfg : InterviewConfig) (recognition : bool) (ctx s k : nat)
    (a1 a2 a3 : ToolArgs) (id1 id2 id3 : string) (r1 r2 r3 : Readings) :
  Graph.duration cfg == 10 ->
  readyState r3 = OPEN ->
  let save id a :=
    mkServerMessage None (Some [mkCall "save_assessment" id (Some a)]) in
  let w0 := run (newGraph cfg true recognition)
                [Connecting ctx; Connected s (Some k); SocketOpen] in
  let w1 := step w0 (Inbound (save id1 a1) r1) in
  let w2 := step w1 (Inbound (save id2 a2) r2) in
  let w3 := step w2 (Inbound (save id3 a3) r3) in
  let w4 := step w3 Timeout in
  (forall d : Q,
     (30 <= d -> totalQs d = 7%nat)
     /\ (20 <= d -> d < 30 -> totalQs d = 5%nat)
     /\ (d < 20 -> totalQs d = 3%nat))
  /\ (forall es : list Event,
        totalQuestions (state (graph (run (newGraph cfg true recognition) es)))
        = 3%nat)
  /\ totalQuestions (state (graph w0)) = 3%nat
  /\ (calls (devices w1) = [] /\ timers w1 = [])
  /\ (calls (devices w2) = [] /\ timers w2 = [])
  /\ calls (devices w3) =
       [(s, sendRealtimeInput (Content ("[SYSTEM]: " ++ WRAP_UP)%string))]
  /\ timers w3 = [GRACE_DELAY]
  /\ onEndCalls w3 = []
  /\ (exists st : InterviewState,
        onEndCalls w4 = [st]
        /\ length (analyses st) = 3%nat
        /\ length (transcript st) = 6%nat
        /\ connectionState st = DISCONNECTED)
  /\ timers w4 = []
  /\ isSessionOpen (liveClient w4) = false.
Proof.
  intros Hd Hr.
  assert (Ht : totalQs (Graph.duration cfg) = 3%nat).
  { apply totalQs_breakpoints. rewrite Hd. reflexivity. }
  destruct r3 as [rs ct dn]. simpl in Hr. subst rs.
  cbv zeta. split; [exact totalQs_breakpoints|].
  split.
  { intros es. rewrite <- Ht.
    exact (run_budget (newGraph cfg true recognition) es). }
  unfold newGraph. rewrite Ht.
  split; [vm_compute; reflexivity|].
  split; [split; vm_compute; reflexivity|].
  split; [split; vm_compute; reflexivity|].
  split; [vm_compute; reflexivity|].
  split; [vm_compute; reflexivity|].
  split; [vm_compute; reflexivity|].
  split; [|split; vm_compute; reflexivity].
  eexists. split; [vm_compute; reflexivity|].
  repeat split; vm_compute; reflexivity.
Qed.

Lemma step_frozen (l : nat) (m : AnalysisMetrics) (w : World) (e : Event) :
  frozen l m w -> frozen l m (step w e).
Proof.
  intros H. destruct e; simpl.
  - eapply frozen_same; [| |exact H]; reflexivity.
  - unfold audioInitialised. destruct (initAudio _ _ _ _ _) as [s' m'].
    eapply frozen_live_write; [| |exact H]; reflexivity.
  - unfold connecting.
    destruct (connect_begin _ _ _) as [[[ph|] c] d];
      (eapply frozen_same; [| |exact H]; reflexivity).
  - eapply frozen_same; [| |exact H]; reflexivity.
  - eapply frozen_same; [| |exact H]; reflexivity.
  - eapply frozen_same; [| |exact H]; reflexivity.
  - now apply safeHandleMessage_frozen.
  - eapply frozen_same; [| |exact H]; reflexivity.
  - eapply frozen_same; [| |exact H]; reflexivity.
  - eapply frozen_same; [| |exact H]; reflexivity.
  - eapply frozen_same; [| |exact H]; reflexivity.
  - eapply frozen_same; [| |exact H]; reflexivity.
  - unfold resume. destruct (parked w !! i) as [ph|]; [|exact H].
    destruct (disconnect_resume _ _ _) as [[ph' c] d].
    eapply frozen_same; [| |exact H]; reflexivity.
  - unfold timeout. destruct (timers w) as [|t rest]; [exact H|].
    unfold wrapUpTimeout.
    destruct (stopSession_heap (with_timers rest w)) as [Hh Hc].
    destruct (onEnd _); (eapply frozen_same; [| |exact H]); assumption.
  - eapply frozen_same; [| |exact H]; reflexivity.
  - unfold audioFrame. destruct (processAudioLoop _ _ _ _ _) as [s' m'].
    eapply frozen_live_write; [| |exact H]; reflexivity.
  - unfold faceResults. destruct (onFaceResults _ _ _) as [[s' m']|]; [|exact H].
    eapply frozen_live_write; [| |exact H]; reflexivity.
  - destruct (stopSession_heap w) as [Hh Hc].
    eapply frozen_same; [| |exact H]; assumption.
  - eapply frozen_same; [| |exact H]; reflexivity.
  - eapply frozen_same; [| |exact H]; reflexivity.
  - eapply frozen_same; [| |exact H]; reflexivity.
Qed.

Lemma run_frozen (l : nat) (m : AnalysisMetrics) (w : World) (es : list Event) :
  frozen l m w -> frozen l m (run w es).
Proof. apply fold_frozen. intros. now apply step_frozen. Qed.

(** C6 (amended).  The assessment [handleAssessment] appends takes its
    question text from the first that is there and not empty of: the
    tool-supplied question text, the question text currently displayed
    in the session state, the tool-supplied topic; else the placeholder
    "Interview Question".  Its answer is the trimmed candidate-answer
    buffer if that is not empty, else the tool-supplied summary, else
    the marker "(No audio response detected)".  Its metrics are a new
    object holding what the live metrics object held at that moment,
    and no later event changes that object. *)
Theorem C6_assessment_sources (w : World) (args : ToolArgs) (now : Z)
    (es : list Event) :
  is_Some (heap w !! currentMetrics w) ->
  let w' := handleAssessment args now w in
  exists a : QuestionAnalysis,
    analyses (state (graph w')) = analyses (state (graph w)) ++ [a]
    /\ questionText a =
         Spec.firstGiven
           [full_question_text args;
            Some (currentQuestionText (state (graph w)));
            question_topic args]
           "Interview Question"
    /\ userAnswer a =
         Spec.userAnswer (userTranscriptBuffer (graph w))
                         (user_answer_summary args)
    /\ metrics a <> currentMetrics w'
    /\ heap w !! metrics a = None
    /\ heap w' !! metrics a = heap w !! currentMetrics w
    /\ heap (run w' es) !! metrics a = heap w !! currentMetrics w.
Proof.
  intros [m0 Hm0] w'.
  eexists. split; [reflexivity|]. cbn [questionText userAnswer metrics].
  split; [apply realQuestion_firstGiven|].
  split; [apply rawUserAnswer_spec|].
  assert (Hne : fresh (dom (heap w)) <> currentMetrics w).
  { intros E. rewrite <- E, fresh_unused in Hm0. discriminate. }
  assert (Hcopy : heap w' !! fresh (dom (heap w)) = heap w !! currentMetrics w).
  { subst w'. cbn [heap handleAssessment with_analysis].
    rewrite lookup_insert_eq. unfold deref. rewrite Hm0. reflexivity. }
  split; [exact Hne|]. split; [apply fresh_unused|]. split; [exact Hcopy|].
  rewrite Hm0 in *.
  assert (Hf : frozen (fresh (dom (heap w))) m0 w') by (split; assumption).
  destruct (run_frozen _ _ _ es Hf) as [H _]. exact H.
Qed.

End Runs.

Import Samples.

Lemma C4_witness :
  let d := devices (Graph.run sqrt_floor log_floor (newGraph config10 true true)
                              (opening ++ [Inbound agentAudio readings])) in
  playback d = [mkScheduled 0 5 (2400 / 24000) 5;
                mkScheduled 1 (5 + 2400 / 24000) (2400 / 24000) 5]
  /\ 5 + 2400 / 24000 <= 5 + 2400 / 24000.
Proof.
  cbv zeta. split; [vm_compute; reflexivity|].
  destruct (C4_gapless_playback sqrt_floor log_floor config10 true true
              (opening ++ [Inbound agentAudio readings])) as [_ H].
  destruct (H 0%nat (mkScheduled 0 5 (2400 / 24000) 5)
              (mkScheduled 1 (5 + 2400 / 24000) (2400 / 24000) 5))
    as [_ Hle]; [vm_compute; reflexivity|vm_compute; reflexivity|].
  exact Hle.
Defined.

Lemma C5_witness :
  Graph.duration config10 == 10
  /\ exists st : InterviewState,
       onEndCalls
         (Graph.run sqrt_floor log_floor (newGraph config10 true true)
            [Connecting 0; Connected 1 (Some 1%nat); SocketOpen;
             Inbound (saveCall "call-1" noArgs) readings;
             Inbound (saveCall "call-2" noArgs) readings;
             Inbound (saveCall "call-3" noArgs) readings;
             Timeout])
         = [st]
       /\ length (analyses st) = 3%nat
       /\ length (transcript st) = 6%nat.
Proof.
  split; [reflexivity|].
  destruct (C5_three_questions_then_wrap_up sqrt_floor log_floor config10 true
              0 1 1 noArgs noArgs noArgs "call-1" "call-2" "call-3"
              readings readings readings)
    as (_ & _ & _ & _ & _ & _ & _ & _ & (st & H1 & H2 & H3 & _) & _);
    [reflexivity|reflexivity|].
  exists st. split; [exact H1|]. split; [exact H2|exact H3].
Defined.

(** An assessment taken in a connected session, followed by a loud audio
    tick of the analysis service: the live object changes, the copy in
    the assessment does not. *)
Lemma C6_witness :
  let w := Graph.run sqrt_floor log_floor (newGraph config10 true true)
             (opening ++ [AudioInitialised (at_ms 0 quiet)]) in
  let w' := handleAssessment noArgs 1700000000000 w in
  let w'' := Graph.run sqrt_floor log_floor w' [AudioFrame (at_ms 16 loud)] in
  is_Some (heap w !! currentMetrics w)
  /\ heap w'' !! 1%nat = heap w !! currentMetrics w
  /\ heap w'' !! currentMetrics w'' <> heap w !! currentMetrics w.
Proof.
  cbv zeta.
  assert (Hs : is_Some
                 (heap (Graph.run sqrt_floor log_floor (newGraph config10 true true)
                          (opening ++ [AudioInitialised (at_ms 0 quiet)]))
                  !! currentMetrics
                       (Graph.run sqrt_floor log_floor (newGraph config10 true true)
                          (opening ++ [AudioInitialised (at_ms 0 quiet)])))).
  { eexists. vm_compute. reflexivity. }
  split; [exact Hs|].
  destruct (C6_assessment_sources sqrt_floor log_floor
              (Graph.run sqrt_floor log_floor (newGraph config10 true true)
                 (opening ++ [AudioInitialised (at_ms 0 quiet)]))
              noArgs 1700000000000 [AudioFrame (at_ms 16 loud)] Hs)
    as (a & Ha & _ & _ & _ & _ & _ & Hrun).
  assert (Hl : metrics a = 1%nat).
  { vm_compute in Ha. injection Ha as Ha. rewrite <- Ha. reflexivity. }
  rewrite Hl in Hrun. split; [exact Hrun|].
  vm_compute. intros H. discriminate H.
Defined.

(** C6 as worded fails.  The agent says its first question, the first
    assessment is saved and both scratch buffers are cleared; a second
    [save_assessment] call arrives with no question text while the
    agent-question buffer is still empty.  The wording gives the
    placeholder; the code records the first question again, read from
    the question text on display. *)
Lemma C6_counterexample :
  let w2 := Graph.run sqrt_floor log_floor (newGraph config10 true true)
              (opening ++ [Inbound (agentText "Tell me about yourself.") readings;
                           Inbound (saveCall "call-1" noArgs) readings]) in
  let w3 := Graph.step sqrt_floor log_floor w2
              (Inbound (saveCall "call-2" noArgs) readings) in
  aiTextBuffer (graph w2) = ""%string
  /\ Spec.questionText (full_question_text noArgs) (aiTextBuffer (graph w2))
     = "Interview Question"%string
  /\ map questionText (analyses (state (graph w3)))
     = ["Tell me about yourself."%string; "Tell me about yourself."%string]
  /\ (forall a, last (analyses (state (graph w3))) = Some a ->
                 questionText a <>
                 Spec.questionText (full_question_text noArgs)
                                   (aiTextBuffer (graph w2))).
Proof.
  cbv zeta. split; [vm_compute; reflexivity|].
  split; [vm_compute; reflexivity|].
  split; [vm_compute; reflexivity|].
  intros a Ha. vm_compute in Ha. injection Ha as <-.
  vm_compute. intros H. discriminate H.
Qed.

(** C2 on the code.  The client never calls [sendToolResponse]: no state
    the orchestrator can reach holds an acknowledgment sent to the remote
    agent, and handling one more inbound message sends none.  At the
    failing input, a connected session that receives one
    [save_assessment] call, the assessment is appended and nothing at all
    is sent back on the session. *)
Theorem C2_tool_call_never_acknowledged (Math_sqrt Math_log10 : Q -> Q)
    (cfg : InterviewConfig) (onEnd recognition : bool) (es : list Event)
    (m : LiveServerMessage) (r : Readings) :
  (let w := Graph.run Math_sqrt Math_log10 (newGraph cfg onEnd recognition) es in
   acks (devices w) = []
   /\ acks (devices (safeHandleMessage m r w)) = [])
  /\ (let w := Graph.run sqrt_floor log_floor (newGraph config10 true true)
                         opening in
      let w' := safeHandleMessage (saveCall "call-1" noArgs) readings w in
      isSessionOpen (liveClient w) = true
      /\ length (analyses (state (graph w'))) = 1%nat
      /\ calls (devices w') = []).
Proof.
  split; [apply no_acknowledgment|].
  cbv zeta. repeat split; vm_compute; reflexivity.
Qed.

End GraphFacts.

(** * Further properties of the code *)

Module RangeFacts.

Import JS JSFacts Analysis.

Definition whole (q : Q) : Prop := exists n : Z, q = inject_Z n.

Lemma Math_round_whole (x : Q) : whole (Math_round x).
Proof. eexists. reflexivity. Qed.

Lemma Math_round_within (x : Q) (a b : Z) :
  inject_Z a <= x -> x <= inject_Z b ->
  inject_Z a <= Math_round x /\ Math_round x <= inject_Z b.
Proof.
  intros Ha Hb. split.
  - apply Math_round_lower. lra.
  - apply Math_round_upper. lra.
Qed.

Lemma Math_max_cases (x y : Q) :
  (Math_max x y = x /\ y <= x) \/ (Math_max x y = y /\ x < y).
Proof.
  unfold Math_max. destruct (Qlt_bool x y) eqn:E.
  - right. split; [reflexivity|]. now apply Qlt_bool_iff.
  - left. split; [reflexivity|]. now apply Qlt_bool_false.
Qed.

Lemma Math_min_cases (x y : Q) :
  (Math_min x y = x /\ x <= y) \/ (Math_min x y = y /\ y < x).
Proof.
  unfold Math_min. destruct (Qlt_bool y x) eqn:E.
  - right. split; [reflexivity|]. now apply Qlt_bool_iff.
  - left. split; [reflexivity|]. now apply Qlt_bool_false.
Qed.

Lemma clamp_within (v : Q) :
  0 <= Math_max 0 (Math_min 100 v) /\ Math_max 0 (Math_min 100 v) <= 100.
Proof.
  destruct (Math_max_cases 0 (Math_min 100 v)) as [[-> H]|[-> H]];
    destruct (Math_min_cases 100 v) as [[E H']|[E H']]; rewrite ?E in *; lra.
Qed.

Lemma clamp_whole (v : Q) : whole v -> whole (Math_max 0 (Math_min 100 v)).
Proof.
  intros Hv.
  destruct (Math_max_cases 0 (Math_min 100 v)) as [[-> _]|[-> _]].
  - now exists 0%Z.
  - destruct (Math_min_cases 100 v) as [[-> _]|[-> _]]; [now exists 100%Z|exact Hv].
Qed.

Lemma toFixed1_within (x : Q) (b : Z) :
  0 <= x -> x <= inject_Z b -> 0 <= toFixed1 x /\ toFixed1 x <= inject_Z b.
Proof.
  intros H0 Hb. rewrite (toFixed1_nonneg x H0).
  assert (Hlo : (0 <= Qfloor (x * 10 + (1 # 2)))%Z).
  { change 0%Z with (Qfloor 0). apply Qfloor_resp_le. lra. }
  assert (Hhi : (Qfloor (x * 10 + (1 # 2)) <= 10 * b)%Z).
  { assert (Hlt : (Qfloor (x * 10 + (1 # 2)) < 10 * b + 1)%Z).
    { rewrite Zlt_Qlt. eapply Qle_lt_trans; [apply Qfloor_le|].
      rewrite inject_Z_plus, inject_Z_mult.
      change (inject_Z 1) with 1. change (inject_Z 10) with 10. lra. }
    lia. }
  rewrite Zle_Qle in Hlo, Hhi. rewrite inject_Z_mult in Hhi.
  change (inject_Z 10) with 10 in Hhi. change (inject_Z 0) with 0 in Hlo.
  split.
  - apply Qle_shift_div_l; lra.
  - apply Qle_shift_div_r; lra.
Qed.

Lemma speechFrames_le (h : list SpeechFrame) : (speechFrames h <= length h)%nat.
Proof. unfold speechFrames. apply length_filter. Qed.

Lemma Qnat_le (a b : nat) : (a <= b)%nat -> Qnat a <= Qnat b.
Proof. intros H. unfold Qnat. rewrite <- Zle_Qle. lia. Qed.

Lemma Qnat_nonneg (a : nat) : 0 <= Qnat a.
Proof. unfold Qnat. change 0 with (inject_Z 0). rewrite <- Zle_Qle. lia. Qed.

Lemma fraction_within (a b : nat) :
  (a <= b)%nat -> (0 < b)%nat -> 0 <= Qnat a / Qnat b /\ Qnat a / Qnat b <= 1.
Proof.
  intros Hab Hb.
  pose proof (AudioFacts.Qnat_pos b Hb) as Hp.
  pose proof (Qnat_le a b Hab) as Hle.
  pose proof (Qnat_nonneg a) as Hn.
  split.
  - apply Qle_shift_div_l; lra.
  - apply Qle_shift_div_r; lra.
Qed.

End RangeFacts.

Module MetricFacts.

Import JS JSFacts Analysis RangeFacts.

(** What the service writes stays in the range of the field. *)
Definition level_ok (a : option Q) : Prop :=
  match a with
  | Some v => whole v /\ 0 <= v /\ v <= 100
  | None => True
  end.

Definition plausible (m : AnalysisMetrics) : Prop :=
  (whole (speechRate m) /\ 0 <= speechRate m /\ speechRate m <= 150)
  /\ (0 <= pauseRatio m /\ pauseRatio m <= 100)
  /\ 0 <= volumeStability m
  /\ (whole (eyeContact m) /\ 0 <= eyeContact m /\ eyeContact m <= 100)
  /\ 0 <= confidence m
  /\ clarity m = 8
  /\ level_ok (audioLevel m).

Definition bounded (m : AnalysisMetrics) : Prop :=
  plausible m /\ volumeStability m <= 10 /\ confidence m <= 100.

Lemma initialMetrics_bounded : bounded initialMetrics.
Proof.
  unfold bounded, plausible, whole. simpl.
  repeat split; try lra; try (now exists 0%Z); try (now exists 100%Z).
Qed.

Section Ranges.

Variables Math_sqrt Math_log10 : Q -> Q.

Lemma wpm_within (sf total : nat) :
  (sf <= total)%nat ->
  let windowSeconds :=
    if (0 <? total)%nat then Qnat total / 60 else 1 # 2 in
  let wpm :=
    if Qlt_bool 0 windowSeconds
    then (Qnat sf / 60 * (5 # 2) * 60) / windowSeconds else 0 in
  0 <= wpm /\ wpm <= 150.
Proof.
  intros Hle. cbv zeta.
  destruct (Nat.ltb_spec 0 total) as [Hpos|Hz].
  - pose proof (AudioFacts.Qnat_pos total Hpos) as Hp.
    assert (Hw : 0 < Qnat total / 60) by (apply Qlt_shift_div_l; lra).
    apply Qlt_bool_iff in Hw. rewrite Hw.
    assert (E : Qnat sf / 60 * (5 # 2) * 60 / (Qnat total / 60)
                == 150 * (Qnat sf / Qnat total)).
    { field. intros Hq. rewrite Hq in Hp. exact (Qlt_irrefl _ Hp). }
    rewrite E.
    destruct (fraction_within sf total Hle Hpos). lra.
  - assert (sf = 0%nat) by lia. subst sf.
    change (Qlt_bool 0 (1 # 2)) with true. cbv iota.
    change (Qnat 0) with 0.
    assert (E : 0 / 60 * (5 # 2) * 60 / (1 # 2) == 0) by reflexivity.
    rewrite E. lra.
Qed.

Lemma pause_within (sf total : nat) :
  (sf <= total)%nat -> (0 < total)%nat ->
  0 <= (1 - Qnat sf / Qnat total) * 100
  /\ (1 - Qnat sf / Qnat total) * 100 <= 100.
Proof.
  intros Hle Hpos. destruct (fraction_within sf total Hle Hpos). lra.
Qed.

Lemma calculateAudioMetrics_plausible (clock : Z)
    (s : AnalysisService) (m : AnalysisMetrics) :
  plausible m -> plausible (calculateAudioMetrics Math_sqrt clock s m).
Proof.
  intros (Hs & Hp & Hv & He & Hc & Hcl & Hl).
  unfold calculateAudioMetrics.
  set (stability := if (1 <? length (rmsValues s))%nat then _ else 10).
  assert (Hst : 0 <= stability).
  { subst stability. destruct (1 <? length (rmsValues s))%nat; [|lra].
    match goal with |- 0 <= Math_max 0 ?v =>
      destruct (Math_max_cases 0 v) as [[-> _]|[-> H]]; lra end. }
  assert (Hfix : 0 <= toFixed1 stability).
  { rewrite (toFixed1_nonneg _ Hst).
    apply Qle_shift_div_l; [lra|].
    rewrite Qmult_0_l. change 0 with (inject_Z 0). rewrite <- Zle_Qle.
    change 0%Z with (Qfloor 0). apply Qfloor_resp_le. lra. }
  destruct (negb _).
  - unfold plausible, whole. simpl.
    repeat split; try lra; try assumption; try tauto. now exists 0%Z.
  - cbv zeta.
    pose proof (speechFrames_le (speechHistory s)) as Hle.
    pose proof (wpm_within _ _ Hle) as Hw. cbv zeta in Hw.
    unfold plausible. simpl.
    split.
    { split; [apply Math_round_whole|].
      apply (Math_round_within _ 0 150); tauto. }
    split.
    { destruct (Nat.ltb_spec 0 (length (speechHistory s))) as [Hpos|_]; [|lra].
      destruct (pause_within _ _ Hle Hpos) as [A B].
      apply (toFixed1_within _ 100); assumption. }
    repeat split; try assumption; tauto.
Qed.

Hypothesis sqrt_nonneg : forall q : Q, 0 <= Math_sqrt q.

Lemma calculateAudioMetrics_bounded (clock : Z)
    (s : AnalysisService) (m : AnalysisMetrics) :
  bounded m -> bounded (calculateAudioMetrics Math_sqrt clock s m).
Proof.
  intros (Hp & Hv & Hc).
  split; [now apply calculateAudioMetrics_plausible|].
  unfold calculateAudioMetrics.
  set (stability := if (1 <? length (rmsValues s))%nat then _ else 10).
  assert (Hst : 0 <= stability /\ stability <= 10).
  { subst stability. destruct (1 <? length (rmsValues s))%nat; [|lra].
    match goal with |- 0 <= Math_max 0 (10 - ?v / 5) /\ _ =>
      pose proof (sqrt_nonneg
        (Qsum (map (fun b => (b - Qsum (rmsValues s) / Qnat (length (rmsValues s)))
                             * (b - Qsum (rmsValues s) / Qnat (length (rmsValues s))))
                   (rmsValues s)) / Qnat (length (rmsValues s)))) as Hn;
      destruct (Math_max_cases 0 (10 - v / 5)) as [[-> _]|[-> H]]
    end; [lra|].
    split; [lra|].
    match goal with |- 10 - ?v / 5 <= 10 =>
      assert (0 <= v / 5) by (apply Qle_shift_div_l; lra) end.
    lra. }
  destruct Hst as [H0 H10].
  destruct (toFixed1_within stability 10 H0 H10) as [_ Hfix].
  destruct (negb _); simpl; split; assumption.
Qed.




Lemma set_audioLevel_plausible (v : Q) (m : AnalysisMetrics) :
  plausible m -> plausible (set_audioLevel (Math_max 0 (Math_min 100 (Math_round v))) m).
Proof.
  intros (Hs & Hp & Hv & He & Hc & Hcl & Hl).
  unfold plausible. simpl. repeat split; try tauto.
  - apply clamp_whole, Math_round_whole.
  - apply clamp_within.
  - apply clamp_within.
Qed.

Lemma processAudioLoop_plausible (t : AudioTick)
    (s : AnalysisService) (m : AnalysisMetrics) :
  plausible m -> plausible (snd (processAudioLoop Math_sqrt Math_log10 t s m)).
Proof.
  intros H. unfold processAudioLoop.
  destruct (negb (isRunning s) || negb (analyser s) || negb (dataArray s));
    [exact H|].
  cbv zeta. cbn [snd].
  apply calculateAudioMetrics_plausible, set_audioLevel_plausible, H.
Qed.

Lemma processAudioLoop_bounded (t : AudioTick)
    (s : AnalysisService) (m : AnalysisMetrics) :
  bounded m -> bounded (snd (processAudioLoop Math_sqrt Math_log10 t s m)).
Proof.
  intros H. unfold processAudioLoop.
  destruct (negb (isRunning s) || negb (analyser s) || negb (dataArray s));
    [exact H|].
  cbv zeta. cbn [snd].
  apply calculateAudioMetrics_bounded.
  destruct H as (Hp & Hv & Hc).
  split; [apply set_audioLevel_plausible, Hp|]. split; assumption.
Qed.

End Ranges.

(** The gaze history after a push is not empty. *)
Lemma pushed_nonempty (h : list bool) (b : bool) :
  let pushed := h ++ [b] in
  (0 < length (if (20 <? length pushed)%nat then tail pushed else pushed))%nat.
Proof.
  cbv zeta. destruct (Nat.ltb_spec 20 (length (h ++ [b]))) as [H|H].
  - destruct (h ++ [b]); simpl in *; lia.
  - rewrite length_app. simpl. lia.
Qed.

Lemma lookingCount_le (h : list bool) : (lookingCount h <= length h)%nat.
Proof. unfold lookingCount. apply length_filter. Qed.

Lemma eyeContactScore_within (h : list bool) :
  (0 < length h)%nat -> 0 <= eyeContactScore h /\ eyeContactScore h <= 100.
Proof.
  intros Hpos. unfold eyeContactScore.
  destruct (fraction_within _ _ (lookingCount_le h) Hpos) as [H0 H1].
  set (frac := Qnat (lookingCount h) / Qnat (length h)) in *.
  assert (Hsq : 0 <= frac * frac /\ frac * frac <= 1).
  { split; [apply Qmult_le_0_compat; assumption|].
    assert (H : frac * frac <= 1 * 1)
      by (apply Qmult_le_compat_nonneg; split; assumption).
    lra. }
  destruct (Qlt_bool frac THRESHOLD); [|lra].
  assert (E : frac * 100 * frac == 100 * (frac * frac)) by ring.
  rewrite E. lra.
Qed.

Lemma adaptConfidence_plausible (m : AnalysisMetrics) :
  plausible m -> plausible (adaptConfidence m).
Proof.
  intros (Hs & Hp & Hv & He & Hc & Hcl & Hl).
  unfold adaptConfidence, plausible.
  destruct (Qlt_bool 0 (speechRate m)); simpl; repeat split; try tauto.
  change 0 with (inject_Z 0). apply Math_round_lower.
  change (inject_Z 0) with 0.
  destruct (Qlt_bool 180 (speechRate m)), (Qlt_bool (speechRate m) 80); lra.
Qed.

Lemma adaptConfidence_bounded (m : AnalysisMetrics) :
  bounded m -> bounded (adaptConfidence m).
Proof.
  intros (Hp & Hv & Hc). split; [now apply adaptConfidence_plausible|].
  destruct Hp as (Hs & Hpa & Hv0 & He & Hc0 & Hcl & Hl).
  unfold adaptConfidence.
  destruct (Qlt_bool 0 (speechRate m)); simpl; split; try assumption; [|tauto].
  change 100 with (inject_Z 100). apply Math_round_upper.
  change (inject_Z 100) with 100.
  destruct (Qlt_bool 180 (speechRate m)), (Qlt_bool (speechRate m) 80); lra.
Qed.

Lemma set_eyeContact_plausible (h : list bool) (m : AnalysisMetrics) :
  (0 < length h)%nat ->
  plausible m -> plausible (set_eyeContact (Math_round (eyeContactScore h)) m).
Proof.
  intros Hpos (Hs & Hp & Hv & He & Hc & Hcl & Hl).
  destruct (eyeContactScore_within h Hpos) as [H0 H1].
  unfold plausible. simpl. repeat split; try tauto.
  - apply Math_round_whole.
  - apply (Math_round_within _ 0 100); assumption.
  - apply (Math_round_within _ 0 100); assumption.
Qed.

Lemma onFaceResults_plausible (r : option (list (list Landmark)))
    (s s' : AnalysisService) (m m' : AnalysisMetrics) :
  plausible m -> onFaceResults r s m = Some (s', m') -> plausible m'.
Proof.
  intros H. unfold onFaceResults.
  destruct r as [[|lm rest]|].
  - intros [= <- <-]. destruct H as (Hs & Hp & Hv & He & Hc & Hcl & Hl).
    unfold plausible. simpl. repeat split; try tauto; try lra; now exists 0%Z.
  - destruct (checkGaze lm) as [b|]; [|discriminate]. simpl.
    intros [= <- <-].
    apply adaptConfidence_plausible, set_eyeContact_plausible;
      [apply pushed_nonempty|exact H].
  - intros [= <- <-]. destruct H as (Hs & Hp & Hv & He & Hc & Hcl & Hl).
    unfold plausible. simpl. repeat split; try tauto; try lra; now exists 0%Z.
Qed.

Lemma onFaceResults_bounded (r : option (list (list Landmark)))
    (s s' : AnalysisService) (m m' : AnalysisMetrics) :
  bounded m -> onFaceResults r s m = Some (s', m') -> bounded m'.
Proof.
  intros H E. split; [exact (onFaceResults_plausible r s s' m m' (proj1 H) E)|].
  revert E. unfold onFaceResults.
  destruct H as (Hp & Hv & Hc).
  destruct r as [[|lm rest]|].
  - intros [= <- <-]. simpl. split; [assumption|lra].
  - destruct (checkGaze lm) as [b|]; [|discriminate]. simpl.
    intros [= <- <-].
    apply adaptConfidence_bounded. split; [|split; assumption].
    apply set_eyeContact_plausible; [apply pushed_nonempty|exact Hp].
  - intros [= <- <-]. simpl. split; [assumption|lra].
Qed.

End MetricFacts.

Module WorldFacts.

Import JS JSFacts Analysis Live LiveFacts Graph GraphFacts.

(** Every metrics object of the store, the live one and the copies,
    satisfies [P]. *)
Definition heap_all (P : AnalysisMetrics -> Prop) (w : World) : Prop :=
  forall (l : nat) (m : AnalysisMetrics), heap w !! l = Some m -> P m.

Lemma heap_all_same (P : AnalysisMetrics -> Prop) (w w' : World) :
  heap w' = heap w -> heap_all P w -> heap_all P w'.
Proof. unfold heap_all. intros ->. tauto. Qed.

Lemma heap_all_write (P : AnalysisMetrics -> Prop) (w w' : World)
    (l : nat) (m : AnalysisMetrics) :
  heap w' = <[ l := m ]> (heap w) -> P m -> heap_all P w -> heap_all P w'.
Proof.
  unfold heap_all. intros -> Hm H l' m'.
  destruct (decide (l = l')) as [->|Hne].
  - rewrite lookup_insert_eq. now intros [= <-].
  - rewrite lookup_insert_ne by exact Hne. apply H.
Qed.

Lemma heap_all_deref (P : AnalysisMetrics -> Prop) (w : World) (l : nat) :
  P initialMetrics -> heap_all P w -> P (deref (heap w) l).
Proof.
  intros Hi H. unfold deref. destruct (heap w !! l) as [m|] eqn:E; [|exact Hi].
  exact (H l m E).
Qed.

Lemma fold_heap_all {A} (P : AnalysisMetrics -> Prop)
    (f : World -> A -> World) (xs : list A) (w : World) :
  (forall w a, heap_all P w -> heap_all P (f w a)) ->
  heap_all P w -> heap_all P (fold_left f xs w).
Proof.
  intros H. revert w. induction xs as [|a xs IH]; intros w Hw; simpl; auto.
Qed.

Lemma handlePart_heap (r : Readings) (w : World) (p : Part) :
  heap (handlePart r w p) = heap w.
Proof.
  unfold handlePart.
  destruct (inlineData p), (partText p) as [t|]; try reflexivity;
    destruct (truthy (Some t)); reflexivity.
Qed.

Lemma onToolCall_heap_all (P : AnalysisMetrics -> Prop)
    (name : string) (args : option ToolArgs) (r : Readings) (w : World) :
  P initialMetrics -> heap_all P w -> heap_all P (onToolCall name args r w).
Proof.
  intros Hi H. unfold onToolCall.
  destruct (String.eqb name "save_assessment"); [|exact H].
  destruct args as [args|]; [|exact H].
  assert (H1 : heap_all P (handleAssessment args (dateNow r) w)).
  { eapply heap_all_write; [reflexivity| |exact H].
    now apply heap_all_deref. }
  cbv zeta.
  match goal with
  | |- context [if ?b then _ else _] => destruct b
  end; (eapply heap_all_same; [|exact H1]; reflexivity).
Qed.

Lemma safeHandleMessage_heap_all (P : AnalysisMetrics -> Prop)
    (msg : LiveServerMessage) (r : Readings) (w : World) :
  P initialMetrics -> heap_all P w -> heap_all P (safeHandleMessage msg r w).
Proof.
  intros Hi H. unfold safeHandleMessage.
  destruct (negb (isSessionOpen (liveClient w))); [exact H|].
  apply (fold_heap_all P (fun w c => onToolCall (callName c) (callArgs c) r w)).
  - intros. now apply onToolCall_heap_all.
  - apply (fold_heap_all P (handlePart r)); [|exact H].
    intros w' p Hw'. eapply heap_all_same; [apply handlePart_heap|exact Hw'].
Qed.

Section HeapInvariant.

Variables Math_sqrt Math_log10 : Q -> Q.
Variable P : AnalysisMetrics -> Prop.

Hypothesis P_initial : P initialMetrics.
Hypothesis P_tick :
  forall t s m, P m -> P (snd (processAudioLoop Math_sqrt Math_log10 t s m)).
Hypothesis P_face :
  forall r s s' m m', P m -> onFaceResults r s m = Some (s', m') -> P m'.

Lemma step_heap_all (w : World) (e : Event) :
  heap_all P w -> heap_all P (Graph.step Math_sqrt Math_log10 w e).
Proof.
  intros H. destruct e; simpl;
    try (eapply heap_all_same; [|exact H]; reflexivity).
  - unfold audioInitialised.
    pose proof (heap_all_deref P w (currentMetrics w) P_initial H) as Hd.
    unfold initAudio.
    destruct (Analysis.audioContext (analysisService w)).
    + eapply heap_all_write; [reflexivity|exact Hd|exact H].
    + pose proof (P_tick t (opened (analysisService w)) _ Hd) as Ht.
      destruct (processAudioLoop _ _ _ _ _) as [s' m'].
      eapply heap_all_write; [reflexivity|exact Ht|exact H].
  - unfold connecting.
    destruct (connect_begin _ _ _) as [[[ph|] c] d];
      (eapply heap_all_same; [|exact H]; reflexivity).
  - now apply safeHandleMessage_heap_all.
  - unfold resume. destruct (parked w !! i) as [ph|]; [|exact H].
    destruct (disconnect_resume _ _ _) as [[ph' c] d].
    eapply heap_all_same; [|exact H]; reflexivity.
  - unfold timeout. destruct (timers w) as [|t rest]; [exact H|].
    unfold wrapUpTimeout.
    destruct (stopSession_heap (with_timers rest w)) as [Hh _].
    destruct (onEnd _); (eapply heap_all_same; [|exact H]); exact Hh.
  - unfold audioFrame.
    pose proof (heap_all_deref P w (currentMetrics w) P_initial H) as Hd.
    pose proof (P_tick t (analysisService w) _ Hd) as Ht.
    destruct (processAudioLoop _ _ _ _ _) as [s' m'].
    eapply heap_all_write; [reflexivity|exact Ht|exact H].
  - unfold faceResults.
    pose proof (heap_all_deref P w (currentMetrics w) P_initial H) as Hd.
    destruct (onFaceResults _ _ _) as [[s' m']|] eqn:E; [|exact H].
    eapply heap_all_write; [reflexivity| |exact H].
    exact (P_face _ _ _ _ _ Hd E).
  - destruct (stopSession_heap w) as [Hh _].
    eapply heap_all_same; [|exact H]; exact Hh.
Qed.

Lemma reachable_heap_all (cfg : InterviewConfig) (onEnd recognition : bool)
    (es : list Event) :
  heap_all P (Graph.run Math_sqrt Math_log10 (newGraph cfg onEnd recognition) es).
Proof.
  apply fold_heap_all; [intros; now apply step_heap_all|].
  intros l m. unfold newGraph. cbn [heap].
  intros Hl. apply lookup_singleton_Some in Hl as [_ <-]. exact P_initial.
Qed.

End HeapInvariant.

End WorldFacts.

Module ReachableMetrics.

Import JS JSFacts Analysis Live Graph RangeFacts MetricFacts WorldFacts.

Section Reach.

Variables Math_sqrt Math_log10 : Q -> Q.

Abbreviation run := (Graph.run Math_sqrt Math_log10).

Lemma reachable_plausible (cfg : InterviewConfig) (onEnd recognition : bool)
    (es : list Event) :
  heap_all plausible (run (newGraph cfg onEnd recognition) es).
Proof.
  apply reachable_heap_all.
  - exact (proj1 initialMetrics_bounded).
  - intros. now apply processAudioLoop_plausible.
  - intros r s s' m m'. apply onFaceResults_plausible.
Qed.

Lemma reachable_bounded (cfg : InterviewConfig) (onEnd recognition : bool)
    (es : list Event) :
  (forall q : Q, 0 <= Math_sqrt q) ->
  heap_all bounded (run (newGraph cfg onEnd recognition) es).
Proof.
  intros Hsqrt. apply reachable_heap_all.
  - exact initialMetrics_bounded.
  - intros. now apply processAudioLoop_bounded.
  - intros r s s' m m'. apply onFaceResults_bounded.
Qed.

(** X1.  Speech rate and pause ratio.  In every state the orchestrator can
    reach, every metrics object, the live one and each snapshot kept in an
    assessment, has a speechRate that is a whole number between 0 and 150
    and a pauseRatio between 0 and 100. *)
Theorem speech_metrics_in_range (cfg : InterviewConfig)
    (onEnd recognition : bool) (es : list Event)
    (l : nat) (m : AnalysisMetrics) :
  heap (run (newGraph cfg onEnd recognition) es) !! l = Some m ->
  (exists n : Z, speechRate m = inject_Z n)
  /\ (0 <= speechRate m /\ speechRate m <= 150)
  /\ (0 <= pauseRatio m /\ pauseRatio m <= 100).
Proof.
  intros H.
  destruct (reachable_plausible cfg onEnd recognition es l m H)
    as ((Hw & Hs) & Hp & _).
  repeat split; tauto.
Qed.

(** X2.  The audio level.  In every reachable state a metrics object either
    has no audioLevel yet (no audio tick has run) or holds a whole number
    between 0 and 100. *)
Theorem audio_level_clamped (cfg : InterviewConfig)
    (onEnd recognition : bool) (es : list Event)
    (l : nat) (m : AnalysisMetrics) (v : Q) :
  heap (run (newGraph cfg onEnd recognition) es) !! l = Some m ->
  audioLevel m = Some v ->
  (exists n : Z, v = inject_Z n) /\ 0 <= v /\ v <= 100.
Proof.
  intros H Hv.
  destruct (reachable_plausible cfg onEnd recognition es l m H)
    as (_ & _ & _ & _ & _ & _ & Hl).
  rewrite Hv in Hl. exact Hl.
Qed.

(** X3.  Eye contact.  In every reachable state, eyeContact of every metrics
    object is a whole number between 0 and 100. *)
Theorem eye_contact_in_range (cfg : InterviewConfig)
    (onEnd recognition : bool) (es : list Event)
    (l : nat) (m : AnalysisMetrics) :
  heap (run (newGraph cfg onEnd recognition) es) !! l = Some m ->
  (exists n : Z, eyeContact m = inject_Z n)
  /\ 0 <= eyeContact m /\ eyeContact m <= 100.
Proof.
  intros H.
  destruct (reachable_plausible cfg onEnd recognition es l m H)
    as (_ & _ & _ & (Hw & He) & _).
  split; [exact Hw|exact He].
Qed.

(** X4.  Clarity.  No function of the service writes the clarity field: in
    every reachable state it still has the value 8 of the initial object
    literal, in the live metrics and in every snapshot. *)
Theorem clarity_never_written (cfg : InterviewConfig)
    (onEnd recognition : bool) (es : list Event)
    (l : nat) (m : AnalysisMetrics) :
  heap (run (newGraph cfg onEnd recognition) es) !! l = Some m ->
  clarity m = 8.
Proof.
  intros H.
  destruct (reachable_plausible cfg onEnd recognition es l m H)
    as (_ & _ & _ & _ & _ & Hc & _).
  exact Hc.
Qed.

(** X5.  Volume stability and confidence.  When [Math.sqrt] returns no
    negative number, volumeStability stays between 0 and 10 and confidence
    between 0 and 100 in every reachable state. *)
Theorem stability_and_confidence_in_range (cfg : InterviewConfig)
    (onEnd recognition : bool) (es : list Event)
    (l : nat) (m : AnalysisMetrics) :
  (forall q : Q, 0 <= Math_sqrt q) ->
  heap (run (newGraph cfg onEnd recognition) es) !! l = Some m ->
  (0 <= volumeStability m /\ volumeStability m <= 10)
  /\ (0 <= confidence m /\ confidence m <= 100).
Proof.
  intros Hsqrt H.
  destruct (reachable_bounded cfg onEnd recognition es Hsqrt l m H)
    as ((_ & _ & Hv & _ & Hc & _) & Hv' & Hc').
  repeat split; assumption.
Qed.

End Reach.

Import Samples.

Lemma sqrt_floor_nonneg (q : Q) : 0 <= sqrt_floor q.
Proof.
  unfold sqrt_floor. change 0 with (inject_Z 0). rewrite <- Zle_Qle.
  apply Z.sqrt_nonneg.
Qed.

(** A connected session after one loud audio tick and one face frame. *)
Definition sampled : World :=
  Graph.run sqrt_floor log_floor (newGraph config10 true true)
    (opening ++ [AudioInitialised (at_ms 0 loud); FaceResults (face facing)]).

Abbreviation sampling :=
  (opening ++ [AudioInitialised (at_ms 0 loud); FaceResults (face facing)]).

Lemma speech_metrics_witness :
  exists m : AnalysisMetrics,
    heap sampled !! 0%nat = Some m
    /\ (0 <= speechRate m /\ speechRate m <= 150)
    /\ (0 <= pauseRatio m /\ pauseRatio m <= 100).
Proof.
  eexists. split; [vm_compute; reflexivity|].
  eapply (speech_metrics_in_range sqrt_floor log_floor config10 true true
            sampling 0%nat).
  vm_compute. reflexivity.
Defined.

Lemma audio_level_witness :
  exists (m : AnalysisMetrics) (v : Q),
    heap sampled !! 0%nat = Some m /\ audioLevel m = Some v
    /\ 0 <= v /\ v <= 100.
Proof.
  eexists _, _. split; [vm_compute; reflexivity|].
  split; [vm_compute; reflexivity|].
  eapply (audio_level_clamped sqrt_floor log_floor config10 true true
            sampling 0%nat).
  - vm_compute. reflexivity.
  - vm_compute. reflexivity.
Defined.

Lemma eye_contact_witness :
  exists m : AnalysisMetrics,
    heap sampled !! 0%nat = Some m /\ 0 <= eyeContact m /\ eyeContact m <= 100.
Proof.
  eexists. split; [vm_compute; reflexivity|].
  eapply (eye_contact_in_range sqrt_floor log_floor config10 true true
            sampling 0%nat).
  vm_compute. reflexivity.
Defined.

Lemma clarity_witness :
  exists m : AnalysisMetrics, heap sampled !! 0%nat = Some m /\ clarity m = 8.
Proof.
  eexists. split; [vm_compute; reflexivity|].
  eapply (clarity_never_written sqrt_floor log_floor config10 true true
            sampling 0%nat).
  vm_compute. reflexivity.
Defined.

Lemma stability_and_confidence_witness :
  exists m : AnalysisMetrics,
    heap sampled !! 0%nat = Some m
    /\ (0 <= volumeStability m /\ volumeStability m <= 10)
    /\ (0 <= confidence m /\ confidence m <= 100).
Proof.
  eexists. split; [vm_compute; reflexivity|].
  eapply (stability_and_confidence_in_range sqrt_floor log_floor config10
            true true sampling 0%nat).
  - exact sqrt_floor_nonneg.
  - vm_compute. reflexivity.
Defined.

End ReachableMetrics.

Module PaceFacts.

Import JS JSFacts Analysis Live Graph RangeFacts MetricFacts WorldFacts
       ReachableMetrics.

Lemma adaptConfidence_not_fast (m : AnalysisMetrics) :
  speechRate m <= 150 ->
  let m' := adaptConfidence m in
  speechRate m' = speechRate m
  /\ confidence m' =
       (if Qlt_bool 0 (speechRate m') then
          Math_round (eyeContact m' * (2 # 5)
                      + volumeStability m' * 10 * (3 # 10)
                      + (if Qlt_bool (speechRate m') 80 then 60 else 100)
                        * (3 # 10))
        else eyeContact m').
Proof.
  intros H. cbv zeta. unfold adaptConfidence.
  assert (E : Qlt_bool 180 (speechRate m) = false) by (apply Qlt_bool_false; lra).
  rewrite E.
  destruct (Qlt_bool 0 (speechRate m)) eqn:E0; simpl; rewrite E0;
    split; reflexivity.
Qed.

(** X6.  The pace term of the confidence.  The speech rate never exceeds
    150, so the "too fast" penalty (pace score 70 above 180 words per
    minute) never applies: in every reachable state, after a landmark frame
    with a face, confidence is eyeContact while the speech rate is 0, and
    otherwise the rounded mix of eyeContact, volumeStability and a pace
    score that is 60 below 80 words per minute and 100 from there on. *)
Theorem pace_penalty_never_fast (Math_sqrt Math_log10 : Q -> Q)
    (cfg : InterviewConfig) (onEnd recognition : bool) (es : list Event)
    (lm : list Landmark) (rest : list (list Landmark)) (b : bool) :
  checkGaze lm = Some b ->
  let w := Graph.run Math_sqrt Math_log10 (newGraph cfg onEnd recognition) es in
  let w' := faceResults (Some (lm :: rest)) w in
  let m := deref (heap w) (currentMetrics w) in
  let m' := deref (heap w') (currentMetrics w') in
  speechRate m' = speechRate m
  /\ Qlt_bool 180 (speechRate m') = false
  /\ confidence m' =
       (if Qlt_bool 0 (speechRate m') then
          Math_round (eyeContact m' * (2 # 5)
                      + volumeStability m' * 10 * (3 # 10)
                      + (if Qlt_bool (speechRate m') 80 then 60 else 100)
                        * (3 # 10))
        else eyeContact m').
Proof.
  intros Hg w w' m m'.
  assert (Hp : plausible m).
  { apply heap_all_deref; [exact (proj1 initialMetrics_bounded)|].
    apply reachable_plausible. }
  destruct Hp as ((_ & _ & Hs) & _).
  assert (Em : m' = adaptConfidence
                     (set_eyeContact
                        (Math_round
                           (eyeContactScore
                              (let pushed := gazeHistory (analysisService w) ++ [b] in
                               if (20 <? length pushed)%nat
                               then tail pushed else pushed))) m)).
  { subst m' w'. unfold faceResults.
    rewrite (GazeFacts.onFaceResults_face _ _ lm rest b Hg).
    cbv zeta. cbn [heap currentMetrics with_analysis].
    unfold deref at 1. rewrite lookup_insert_eq. reflexivity. }
  rewrite Em.
  match goal with |- context [adaptConfidence ?x] =>
    destruct (adaptConfidence_not_fast x) as [E1 E2]; [exact Hs|] end.
  split; [rewrite E1; reflexivity|]. split; [|exact E2].
  rewrite E1. apply Qlt_bool_false. simpl. lra.
Qed.

Import Samples.

Lemma pace_penalty_witness :
  let w := sampled in
  let w' := faceResults (face facing) w in
  confidence (deref (heap w') (currentMetrics w')) = 100.
Proof.
  cbv zeta.
  destruct (pace_penalty_never_fast sqrt_floor log_floor config10 true true
              sampling facing [] true) as (_ & _ & H); [vm_compute; reflexivity|].
  unfold face, sampled. rewrite H. vm_compute. reflexivity.
Defined.

End PaceFacts.

Module WindowFacts.

Import JS JSFacts Analysis AudioFacts.

(** The last [k] elements. *)
Definition lastn {A} (k : nat) (l : list A) : list A := drop (length l - k) l.

(** A push followed by the shift that keeps at most [k] elements. *)
Definition slide {A} (k : nat) (h : list A) (x : A) : list A :=
  let pushed := h ++ [x] in
  if (k <? length pushed)%nat then tail pushed else pushed.

Lemma lastn_length {A} (k : nat) (l : list A) :
  length (lastn k l) = Nat.min k (length l).
Proof. unfold lastn. rewrite length_drop. lia. Qed.

Lemma lastn_all {A} (k : nat) (l : list A) :
  (length l <= k)%nat -> lastn k l = l.
Proof.
  intros H. unfold lastn. replace (length l - k)%nat with 0%nat by lia.
  reflexivity.
Qed.

Lemma tail_drop {A} (l : list A) : tail l = drop 1 l.
Proof. destruct l; reflexivity. Qed.

Lemma slide_lastn {A} (k : nat) (l : list A) (x : A) :
  (0 < k)%nat -> slide k (lastn k l) x = lastn k (l ++ [x]).
Proof.
  intros Hk. unfold slide. cbv zeta.
  rewrite length_app, lastn_length. simpl.
  destruct (Nat.ltb_spec k (Nat.min k (length l) + 1)) as [H|H].
  - unfold lastn. rewrite tail_drop, length_app. simpl.
    rewrite <- drop_app_le by lia.
    rewrite drop_drop. f_equal. lia.
  - rewrite lastn_all by lia.
    rewrite lastn_all; [reflexivity|]. rewrite length_app. simpl. lia.
Qed.

Lemma slide_short {A} (k : nat) (h : list A) (x : A) :
  (length h <= k)%nat -> slide k h x = lastn k (h ++ [x]).
Proof.
  intros H. destruct k as [|k].
  - destruct h; [|simpl in H; lia]. reflexivity.
  - rewrite <- (lastn_all (S k) h H) at 1. apply slide_lastn. lia.
Qed.


Local Arguments audioTicks : simpl never.
Local Arguments prune : simpl never.

(** Whether a frame is inside the window that ends at [now]. *)
Definition inWindow (now : Z) (f : SpeechFrame) : Prop :=
  (now - time f <= WINDOW_MS)%Z.

#[local] Instance inWindow_dec now f : Decision (inWindow now f).
Proof. unfold inWindow. apply _. Defined.

(** No frame is older than a frame before it. *)
Fixpoint ascending (h : list SpeechFrame) : Prop :=
  match h with
  | [] => True
  | f :: rest => Forall (fun g => (time f <= time g)%Z) rest /\ ascending rest
  end.

Lemma ascending_filter (P : SpeechFrame -> Prop) `{!forall f, Decision (P f)}
    (h : list SpeechFrame) :
  ascending h -> ascending (filter P h).
Proof.
  induction h as [|f h IH]; [exact id|].
  intros [Hf Hs]. rewrite filter_cons.
  destruct (decide (P f)); [|exact (IH Hs)].
  split; [|exact (IH Hs)].
  apply Forall_forall. intros g Hg.
  apply list_elem_of_filter in Hg as [_ Hg].
  rewrite Forall_forall in Hf. exact (Hf g Hg).
Qed.

Lemma filter_all {A} (P : A -> Prop) `{!forall a, Decision (P a)} (l : list A) :
  Forall P l -> filter P l = l.
Proof.
  induction 1 as [|a l Ha _ IH]; [reflexivity|].
  rewrite filter_cons, decide_True by exact Ha. now rewrite IH.
Qed.

Lemma prune_ascending (now : Z) (h : list SpeechFrame) :
  ascending h -> prune now h = filter (inWindow now) h.
Proof.
  induction h as [|f h IH]; [reflexivity|].
  intros [Hf Hs]. specialize (IH Hs).
  unfold prune. fold prune. rewrite filter_cons.
  destruct (Z.ltb_spec WINDOW_MS (now - time f)) as [Hout|Hin].
  - rewrite decide_False by (unfold inWindow; lia). exact IH.
  - rewrite decide_True by exact Hin. f_equal.
    symmetry. apply filter_all.
    eapply Forall_impl; [exact Hf|].
    intros g Hg. cbv beta in Hg. unfold inWindow. lia.
Qed.

Section Window.

Variables Math_sqrt Math_log10 : Q -> Q.

Abbreviation tick := (processAudioLoop Math_sqrt Math_log10).
Abbreviation ticks := (audioTicks Math_sqrt Math_log10).
Abbreviation frames := (AudioFacts.frames Math_sqrt).

Lemma frames_ascending (c : Z) (ts : list AudioTick) :
  clockOrdered c ts -> ascending (frames ts).
Proof.
  revert c. induction ts as [|t ts IH]; intros c H; [exact I|].
  simpl in H. destruct H as (H1 & H2 & H3).
  simpl. split; [|exact (IH _ H3)].
  apply Forall_map, Forall_forall. intros u Hu. simpl.
  pose proof (clockOrdered_lower _ _ H3 u) as Hl.
  apply list_elem_of_In in Hu. specialize (Hl Hu). lia.
Qed.

(** X7.  The window.  With a clock that never goes back, after each tick of
    a started service the speech history holds exactly the frames of the
    ticks taken within the last 500 ms, the frame of the tick itself
    included, in the order the ticks ran. *)
Theorem speech_window_is_last_500ms (c : Z) (ts : list AudioTick)
    (t : AudioTick) (m : AnalysisMetrics) :
  clockOrdered c (ts ++ [t]) ->
  let s := fst (ticks (ts ++ [t]) (started, m)) in
  speechHistory s = filter (inWindow (now t)) (frames (ts ++ [t]))
  /\ last (speechHistory s) = Some (mkFrame (now t) (aboveThreshold Math_sqrt t))
  /\ Forall (fun f => (now t - 500 <= time f <= now t)%Z) (speechHistory s).
Proof.
  revert t. induction ts as [|u ts IH] using rev_ind; intros t Hord.
  - cbv zeta. simpl app. rewrite audioTicks_single.
    destruct (tick_running Math_sqrt Math_log10 t started m started_running)
      as (_ & _ & Hh & _).
    rewrite Hh. simpl app.
    assert (E : prune (now t) [mkFrame (now t) (aboveThreshold Math_sqrt t)]
                = [mkFrame (now t) (aboveThreshold Math_sqrt t)]).
    { apply prune_keep. simpl. unfold WINDOW_MS. lia. }
    rewrite E. simpl. rewrite filter_cons.
    rewrite decide_True by (unfold inWindow, WINDOW_MS; simpl; lia).
    split; [reflexivity|]. split; [reflexivity|].
    constructor; [simpl; lia|constructor].
  - destruct (clockOrdered_app _ _ _ Hord) as (Hord' & _ & _ & Hup).
    destruct (IH u Hord') as (Hprev & _ & _).
    cbv zeta in *. rewrite audioTicks_snoc.
    destruct (audioTicks_tracked Math_sqrt Math_log10 (ts ++ [u]) m) as [Hrun _].
    destruct (tick_running Math_sqrt Math_log10 t _
                (snd (ticks (ts ++ [u]) (started, m))) Hrun)
      as (_ & _ & Hh & _).
    rewrite Hh, Hprev. clear Hh Hprev.
    pose proof (frames_ascending c _ Hord) as Hasc.
    assert (Hu : (now u <= now t)%Z).
    { apply Hup. apply in_or_app. right. now left. }
    assert (Hfr : frames ((ts ++ [u]) ++ [t])
                  = frames (ts ++ [u]) ++ [mkFrame (now t) (aboveThreshold Math_sqrt t)]).
    { unfold AudioFacts.frames. rewrite map_app. reflexivity. }
    assert (E1 : filter (inWindow (now u)) (frames (ts ++ [u]))
                 ++ [mkFrame (now t) (aboveThreshold Math_sqrt t)]
                 = filter (inWindow (now u)) (frames ((ts ++ [u]) ++ [t]))).
    { rewrite Hfr, filter_app. f_equal. rewrite filter_cons.
      rewrite decide_True by (unfold inWindow, WINDOW_MS; simpl; lia).
      reflexivity. }
    rewrite E1.
    assert (Hasc' : ascending (filter (inWindow (now u)) (frames ((ts ++ [u]) ++ [t])))).
    { now apply ascending_filter. }
    rewrite (prune_ascending _ _ Hasc').
    assert (E2 : filter (inWindow (now t))
                   (filter (inWindow (now u)) (frames ((ts ++ [u]) ++ [t])))
                 = filter (inWindow (now t)) (frames ((ts ++ [u]) ++ [t]))).
    { apply list_filter_filter_l. intros f. unfold inWindow. lia. }
    rewrite E2. split; [reflexivity|]. split.
    + rewrite Hfr, filter_app, filter_cons.
      rewrite decide_True by (unfold inWindow, WINDOW_MS; simpl; lia).
      rewrite filter_nil. apply last_snoc.
    + apply Forall_forall. intros f Hf.
      apply list_elem_of_filter in Hf as [Hw Hf].
      unfold inWindow, WINDOW_MS in Hw. split; [lia|].
      rewrite Hfr in Hf. apply elem_of_app in Hf as [Hf|Hf].
      * unfold AudioFacts.frames in Hf. apply list_elem_of_fmap in Hf as (v & -> & Hv).
        simpl. apply list_elem_of_In in Hv.
        destruct (clockOrdered_app _ _ _ Hord) as (_ & _ & _ & Hall).
        exact (Hall v Hv).
      * apply list_elem_of_singleton in Hf. subst f. simpl. lia.
Qed.


Lemma tick_rmsValues (t : AudioTick) (s : AnalysisService) (m : AnalysisMetrics) :
  running s ->
  rmsValues (fst (tick t s m)) =
    (if Qlt_bool 5 (rms_of Math_sqrt (data t))
     then slide 5 (rmsValues s) (rms_of Math_sqrt (data t))
     else rmsValues s).
Proof.
  intros (Hr & Ha & Hd). unfold processAudioLoop.
  rewrite Hr, Ha, Hd. reflexivity.
Qed.

(** X8.  The volume history.  After any ticks of a started service the
    history the stability is computed from holds the readings of the last
    five ticks whose level was above 5, fewer while fewer have occurred, in
    the order the ticks ran. *)
Theorem volume_history_is_last_five (ts : list AudioTick) (m : AnalysisMetrics) :
  rmsValues (fst (ticks ts (started, m))) =
    lastn 5 (List.filter (Qlt_bool 5)
                         (map (fun t => rms_of Math_sqrt (data t)) ts))
  /\ (length (rmsValues (fst (ticks ts (started, m)))) <= 5)%nat.
Proof.
  assert (H : rmsValues (fst (ticks ts (started, m))) =
              lastn 5 (List.filter (Qlt_bool 5)
                         (map (fun t => rms_of Math_sqrt (data t)) ts))).
  { induction ts as [|t ts IH] using rev_ind; [reflexivity|].
    rewrite audioTicks_snoc.
    destruct (audioTicks_tracked Math_sqrt Math_log10 ts m) as [Hrun _].
    rewrite (tick_rmsValues t _ _ Hrun), IH.
    rewrite map_app, List.filter_app. simpl.
    destruct (Qlt_bool 5 (rms_of Math_sqrt (data t))).
    - apply slide_lastn. lia.
    - now rewrite app_nil_r. }
  split; [exact H|]. rewrite H, lastn_length. lia.
Qed.

End Window.

Import Samples.

Lemma speech_window_witness :
  clockOrdered 0 three
  /\ length (speechHistory
               (fst (audioTicks sqrt_floor log_floor three
                       (started, initialMetrics)))) = 3%nat.
Proof.
  assert (H : clockOrdered 0 ([at_ms 0 loud; at_ms 16 quiet] ++ [at_ms 33 quiet])).
  { simpl. lia. }
  split; [exact H|].
  destruct (speech_window_is_last_500ms sqrt_floor log_floor 0
              [at_ms 0 loud; at_ms 16 quiet] (at_ms 33 quiet) initialMetrics H)
    as (E & _).
  unfold three. simpl app in E. rewrite E. vm_compute. reflexivity.
Defined.

End WindowFacts.

Module FaceFacts.

Import JS JSFacts Analysis GazeFacts WindowFacts.

(** *** The gaze history over a run of frames *)

Lemma watch_snoc (frames : list (list Landmark)) (lm : list Landmark)
    (sm : AnalysisService * AnalysisMetrics) :
  Samples.watch (frames ++ [lm]) sm =
    match Samples.watch frames sm with
    | Some (s, m) => onFaceResults (Samples.face lm) s m
    | None => None
    end.
Proof. unfold Samples.watch. now rewrite fold_left_app. Qed.

(** X9.  The gaze history.  Landmark frames with a face that [checkGaze]
    classifies, fed to a service whose history holds 20 entries at most:
    every frame is accepted, and the history afterwards is the last 20 of
    the old entries followed by the new classifications; eyeContact is the
    rounded score of that history. *)
Theorem gaze_history_is_last_20 (frames : list (list Landmark)) (bs : list bool)
    (s : AnalysisService) (m : AnalysisMetrics) :
  (length (gazeHistory s) <= 20)%nat ->
  Forall2 (fun lm b => checkGaze lm = Some b) frames bs ->
  exists s' m',
    Samples.watch frames (s, m) = Some (s', m')
    /\ gazeHistory s' = lastn 20 (gazeHistory s ++ bs)
    /\ (frames <> [] ->
        eyeContact m' = Math_round (eyeContactScore (gazeHistory s'))).
Proof.
  intros Hlen. revert bs.
  induction frames as [|lm frames IH] using rev_ind; intros bs HF.
  - apply Forall2_nil_inv_l in HF. subst bs.
    exists s, m. split; [reflexivity|].
    split; [|congruence]. rewrite app_nil_r. symmetry. now apply lastn_all.
  - apply Forall2_app_inv_l in HF as (bs1 & bs2 & H1 & H2 & ->).
    apply Forall2_cons_inv_l in H2 as (b & bs3 & Hb & H3 & ->).
    apply Forall2_nil_inv_l in H3. subst bs3.
    destruct (IH bs1 H1) as (s1 & m1 & Hw & Hh & _).
    rewrite watch_snoc, Hw. unfold Samples.face.
    rewrite (onFaceResults_face s1 m1 lm [] b Hb). cbv zeta.
    eexists _, _. split; [reflexivity|]. cbn [gazeHistory].
    fold (slide 20 (gazeHistory s1) b).
    rewrite Hh, slide_lastn by lia.
    split; [now rewrite app_assoc|].
    intros _. rewrite eyeContact_adaptConfidence. reflexivity.
Qed.

Lemma gaze_history_witness :
  exists s' m',
    Samples.watch (repeat Samples.facing 13 ++ repeat Samples.away 12)
                  (initialService, initialMetrics) = Some (s', m')
    /\ gazeHistory s' = repeat true 8 ++ repeat false 12.
Proof.
  destruct (gaze_history_is_last_20
              (repeat Samples.facing 13 ++ repeat Samples.away 12)
              (repeat true 13 ++ repeat false 12)
              initialService initialMetrics)
    as (s' & m' & Hw & Hh & _).
  - simpl. lia.
  - cbn [repeat app].
    repeat (constructor; [vm_compute; reflexivity|]). constructor.
  - exists s', m'. split; [exact Hw|]. rewrite Hh. vm_compute. reflexivity.
Defined.


(** *** The gaze test under a mirrored image *)

(** The landmark of the horizontally mirrored image: coordinates are
    normalised to the image width. *)
Definition mirror (p : Landmark) : Landmark := mkLandmark (1 - x p) (y p) (z p).

#[local] Instance centered_comp : Proper (Qeq ==> eq) centered.
Proof. intros a b Hab. unfold centered. now rewrite Hab. Qed.

Lemma getRatio_mirror (inner outer iris : Landmark) :
  getRatio (mirror inner) (mirror outer) (mirror iris) == getRatio inner outer iris.
Proof.
  unfold getRatio, mirror. cbn [x].
  assert (Ew : Qabs (1 - x outer - (1 - x inner)) == Qabs (x outer - x inner)).
  { rewrite <- (Qabs_opp (x outer - x inner)). apply Qabs_wd. ring. }
  assert (Ei : Qabs (1 - x iris - (1 - x inner)) == Qabs (x iris - x inner)).
  { rewrite <- (Qabs_opp (x iris - x inner)). apply Qabs_wd. ring. }
  rewrite Ew. destruct (Qlt_bool 0 (Qabs (x outer - x inner))); [|reflexivity].
  now rewrite Ew, Ei.
Qed.

Lemma headInBand_mirror (nose : Landmark) :
  headInBand (mirror nose) = headInBand nose.
Proof.
  unfold headInBand, mirror. cbn [x]. f_equal.
  destruct (Qlt_bool (x nose) (2 # 5)) eqn:E1, (Qlt_bool (3 # 5) (x nose)) eqn:E2,
           (Qlt_bool (1 - x nose) (2 # 5)) eqn:E3, (Qlt_bool (3 # 5) (1 - x nose)) eqn:E4;
    try reflexivity; exfalso;
    rewrite ?Qlt_bool_iff, ?Qlt_bool_false in *; lra.
Qed.

(** X10.  Mirroring.  [checkGaze] gives the same result on a frame and on
    its mirror image, the same classification or an exception on both:
    the head-pose band, 0.40 to 0.60, is symmetric around the centre and
    both eye ratios are taken on distances. *)
Theorem checkGaze_mirror (lm : list Landmark) :
  checkGaze (map mirror lm) = checkGaze lm.
Proof.
  unfold checkGaze. rewrite !list_lookup_fmap.
  destruct (lm !! 1%nat) as [nose|]; [|reflexivity]. simpl.
  pose proof (headInBand_mirror nose) as Hn. unfold headInBand, mirror in Hn.
  cbn [x] in Hn. apply (f_equal negb) in Hn. rewrite !negb_involutive in Hn.
  rewrite Hn.
  destruct (Qlt_bool (x nose) (2 # 5) || Qlt_bool (3 # 5) (x nose)); [reflexivity|].
  destruct (lm !! 33%nat) as [rI|]; [|reflexivity]. simpl.
  destruct (lm !! 133%nat) as [rO|]; [|reflexivity]. simpl.
  destruct (lm !! 468%nat) as [rIris|]; [|reflexivity]. simpl.
  destruct (lm !! 362%nat) as [lI|]; [|reflexivity]. simpl.
  destruct (lm !! 263%nat) as [lO|]; [|reflexivity]. simpl.
  destruct (lm !! 473%nat) as [lIris|]; [|reflexivity]. simpl.
  now rewrite !getRatio_mirror.
Qed.

(** *** Frames without iris landmarks *)

(** X11.  Frames without the iris points.  On a frame of at least 2 and at
    most 468 landmarks (the mesh without refinement) the classification
    answers "not looking" when the nose is outside the band and throws when
    it is inside; the callback then ends by that exception, and nothing is
    written. *)
Theorem checkGaze_without_iris (lm : list Landmark)
    (rest : list (list Landmark)) (s : AnalysisService) (m : AnalysisMetrics) :
  (1 < length lm <= 468)%nat ->
  exists nose : Landmark,
    lm !! 1%nat = Some nose
    /\ checkGaze lm = (if headInBand nose then None else Some false)
    /\ (headInBand nose = true ->
        onFaceResults (Some (lm :: rest)) s m = None)
    /\ (headInBand nose = false ->
        exists s' m',
          onFaceResults (Some (lm :: rest)) s m = Some (s', m')
          /\ last (gazeHistory s') = Some false).
Proof.
  intros [Hlo Hhi].
  destruct (lookup_lt_is_Some_2 lm 1 Hlo) as [nose Hn].
  assert (H468 : lm !! 468%nat = None) by (apply lookup_ge_None_2; lia).
  assert (Hg : checkGaze lm = (if headInBand nose then None else Some false)).
  { unfold checkGaze, headInBand. rewrite Hn. simpl.
    destruct (Qlt_bool (x nose) (2 # 5) || Qlt_bool (3 # 5) (x nose)); [reflexivity|].
    simpl. destruct (lm !! 33%nat); [|reflexivity]. simpl.
    destruct (lm !! 133%nat); [|reflexivity]. simpl.
    rewrite H468. reflexivity. }
  exists nose. split; [exact Hn|]. split; [exact Hg|]. split.
  - intros Hb. unfold onFaceResults. rewrite Hg, Hb. reflexivity.
  - intros Hb. rewrite Hb in Hg.
    rewrite (onFaceResults_face s m lm rest false Hg). cbv zeta.
    eexists _, _. split; [reflexivity|]. cbn [gazeHistory].
    destruct (20 <? length (gazeHistory s ++ [false]))%nat eqn:E.
    + destruct (gazeHistory s) as [|b0 h]; [discriminate E|].
      simpl. apply last_snoc.
    + apply last_snoc.
Qed.

Lemma checkGaze_without_iris_witness :
  onFaceResults (Some [repeat (mkLandmark (1 # 2) 0 0) 468])
                initialService initialMetrics = None
  /\ checkGaze (repeat (mkLandmark 0 0 0) 468) = Some false.
Proof.
  split.
  - destruct (checkGaze_without_iris (repeat (mkLandmark (1 # 2) 0 0) 468) []
                initialService initialMetrics) as (nose & Hn & _ & H & _).
    + rewrite repeat_length. lia.
    + apply H. vm_compute in Hn. injection Hn as <-. reflexivity.
  - destruct (checkGaze_without_iris (repeat (mkLandmark 0 0 0) 468) []
                initialService initialMetrics) as (nose & Hn & H & _).
    + rewrite repeat_length. lia.
    + rewrite H. vm_compute in Hn. injection Hn as <-. reflexivity.
Defined.

End FaceFacts.

Module SampleFacts.

Import JS JSFacts Live.

(** The value [downsample] stores for the input sample [s]. *)
Definition toPcm16 (s : Q) : Z :=
  ToInt16 (if Qlt_bool s 0 then s * 32768 else s * 32767).

(** The input index [downsample] reads for output index [i]. *)
Definition sourceIndex (i : nat) (inputRate outputRate : Q) : nat :=
  Z.to_nat (Qfloor (inject_Z (Z.of_nat i) * (inputRate / outputRate))).

Lemma downsample_length (buffer : list Q) (inputRate outputRate : Q) :
  length (downsample buffer inputRate outputRate) =
    Z.to_nat (Qfloor (inject_Z (Z.of_nat (length buffer))
                      / (inputRate / outputRate))).
Proof. unfold downsample. now rewrite length_map, length_seq. Qed.

Lemma downsample_lookup (buffer : list Q) (inputRate outputRate : Q) (i : nat) :
  (i < length (downsample buffer inputRate outputRate))%nat ->
  downsample buffer inputRate outputRate !! i =
    Some (match buffer !! sourceIndex i inputRate outputRate with
          | Some s => toPcm16 s
          | None => 0%Z
          end).
Proof.
  intros H. rewrite downsample_length in H.
  unfold downsample. rewrite list_lookup_fmap.
  rewrite lookup_seq_lt by exact H. reflexivity.
Qed.

(** X12.  Decimation stays inside the buffer.  With positive rates, every
    output sample of [downsample] is the conversion of an input sample that
    exists: output index [i] reads input index [floor (i * inputRate /
    outputRate)], which is below the length of the buffer.  The output has
    [floor (n * outputRate / inputRate)] samples, no more than the input
    when the input rate is the higher one. *)
Theorem downsample_reads_inside (buffer : list Q) (inputRate outputRate : Q) :
  0 < inputRate -> 0 < outputRate ->
  let out := downsample buffer inputRate outputRate in
  length out =
    Z.to_nat (Qfloor (inject_Z (Z.of_nat (length buffer)) * outputRate / inputRate))
  /\ (outputRate <= inputRate -> (length out <= length buffer)%nat)
  /\ (forall i : nat,
        (i < length out)%nat ->
        exists s : Q,
          buffer !! sourceIndex i inputRate outputRate = Some s
          /\ out !! i = Some (toPcm16 s)).
Proof.
  intros Hi Ho out.
  set (n := inject_Z (Z.of_nat (length buffer))).
  set (c := inputRate / outputRate).
  assert (Hc : 0 < c) by (apply Qlt_shift_div_l; lra).
  assert (Hn : 0 <= n).
  { subst n. change 0 with (inject_Z 0). rewrite <- Zle_Qle. lia. }
  assert (Elen : n / c == n * outputRate / inputRate).
  { subst c. field. split; intros E; rewrite E in *;
      [exact (Qlt_irrefl _ Hi)|exact (Qlt_irrefl _ Ho)]. }
  assert (Hlen : length out = Z.to_nat (Qfloor (n / c))).
  { subst out. apply downsample_length. }
  split; [rewrite Hlen; now rewrite Elen|].
  split.
  - intros Hle. rewrite Hlen.
    assert (H1 : 1 <= c) by (apply Qle_shift_div_l; lra).
    assert (H2 : n / c <= n) by (apply Qle_shift_div_r; [exact Hc|nra]).
    apply Qfloor_resp_le in H2. subst n. rewrite Qfloor_Z in H2. lia.
  - intros i Hlt.
    assert (Hi1 : inject_Z (Z.of_nat i) + 1 <= n / c).
    { rewrite Hlen in Hlt.
      assert (Hz : (Z.of_nat i + 1 <= Qfloor (n / c))%Z) by lia.
      rewrite Zle_Qle in Hz. rewrite inject_Z_plus in Hz.
      change (inject_Z 1) with 1 in Hz.
      eapply Qle_trans; [exact Hz|apply Qfloor_le]. }
    assert (Hk : 0 <= inject_Z (Z.of_nat i)).
    { change 0 with (inject_Z 0). rewrite <- Zle_Qle. lia. }
    assert (Hic : inject_Z (Z.of_nat i) * c < n).
    { assert (H3 : (inject_Z (Z.of_nat i) + 1) * c <= n).
      { assert (E : n / c * c == n).
        { field. intros E0. rewrite E0 in Hc. exact (Qlt_irrefl _ Hc). }
        rewrite <- E. apply Qmult_le_compat_r; [exact Hi1|lra]. }
      nra. }
    assert (Hidx : (sourceIndex i inputRate outputRate < length buffer)%nat).
    { unfold sourceIndex. fold c.
      assert (Hf : (Qfloor (inject_Z (Z.of_nat i) * c) < Z.of_nat (length buffer))%Z).
      { rewrite Zlt_Qlt. eapply Qle_lt_trans; [apply Qfloor_le|exact Hic]. }
      assert (H0 : (0 <= Qfloor (inject_Z (Z.of_nat i) * c))%Z).
      { change 0%Z with (Qfloor 0). apply Qfloor_resp_le. nra. }
      lia. }
    destruct (lookup_lt_is_Some_2 buffer _ Hidx) as [s Hs].
    exists s. split; [exact Hs|].
    subst out. rewrite (downsample_lookup _ _ _ _ Hlt), Hs. reflexivity.
Qed.


Lemma ToInt16_small (x : Q) :
  (-32768 <= Qtrunc x <= 32767)%Z -> ToInt16 x = Qtrunc x.
Proof.
  intros H. unfold ToInt16. cbv zeta.
  destruct (Z_lt_le_dec (Qtrunc x) 0) as [Hneg|Hpos].
  - assert (E : (Qtrunc x mod 65536 = Qtrunc x + 65536)%Z).
    { symmetry. apply (Z.mod_unique _ _ (-1)); lia. }
    rewrite E. destruct (Z.leb_spec 32768 (Qtrunc x + 65536)); lia.
  - rewrite Z.mod_small by lia.
    destruct (Z.leb_spec 32768 (Qtrunc x)); lia.
Qed.

Lemma Qfloor_nonneg (x : Q) : 0 <= x -> (0 <= Qfloor x)%Z.
Proof. intros H. change 0%Z with (Qfloor 0). now apply Qfloor_resp_le. Qed.

Lemma Qfloor_upper (x : Q) (n : Z) : x < inject_Z n + 1 -> (Qfloor x <= n)%Z.
Proof.
  intros H.
  assert (Hlt : (Qfloor x < n + 1)%Z).
  { rewrite Zlt_Qlt. eapply Qle_lt_trans; [apply Qfloor_le|].
    rewrite inject_Z_plus. exact H. }
  lia.
Qed.

Lemma Qfloor_lower (x : Q) (n : Z) : inject_Z n <= x -> (n <= Qfloor x)%Z.
Proof. intros H. rewrite <- (Qfloor_Z n). now apply Qfloor_resp_le. Qed.

(** X13.  Conversion of the samples in range.  For a sample between -1 and 1
    the stored value is the scaled sample truncated towards zero, with no
    wrap-around: it has the sign of the sample and lies between -32768 and
    32767; and the conversion keeps the order of such samples. *)
Theorem toPcm16_in_range (s : Q) :
  -1 <= s -> s <= 1 ->
  (0 <= s -> toPcm16 s = Qfloor (s * 32767) /\ (0 <= toPcm16 s <= 32767)%Z)
  /\ (s < 0 -> toPcm16 s = (- Qfloor (- (s * 32768)))%Z
               /\ (-32768 <= toPcm16 s <= 0)%Z)
  /\ (forall s' : Q, s <= s' -> s' <= 1 -> (toPcm16 s <= toPcm16 s')%Z).
Proof.
  assert (Hpos : forall a, 0 <= a -> a <= 1 ->
            toPcm16 a = Qfloor (a * 32767) /\ (0 <= toPcm16 a <= 32767)%Z).
  { intros a H0 H1. unfold toPcm16.
    assert (E : Qlt_bool a 0 = false) by (apply Qlt_bool_false; exact H0).
    rewrite E.
    assert (Et : Qtrunc (a * 32767) = Qfloor (a * 32767)).
    { unfold Qtrunc.
      assert (E' : Qlt_bool (a * 32767) 0 = false) by (apply Qlt_bool_false; lra).
      now rewrite E'. }
    assert (Hlo : (0 <= Qfloor (a * 32767))%Z) by (apply Qfloor_nonneg; lra).
    assert (Hhi : (Qfloor (a * 32767) <= 32767)%Z).
    { apply Qfloor_upper. change (inject_Z 32767) with 32767. lra. }
    rewrite ToInt16_small by (rewrite Et; lia).
    rewrite Et. split; [reflexivity|lia]. }
  assert (Hneg : forall a, -1 <= a -> a < 0 ->
            toPcm16 a = (- Qfloor (- (a * 32768)))%Z
            /\ (-32768 <= toPcm16 a <= 0)%Z).
  { intros a H0 H1. unfold toPcm16.
    assert (E : Qlt_bool a 0 = true) by (apply Qlt_bool_iff; exact H1).
    rewrite E.
    assert (Et : Qtrunc (a * 32768) = (- Qfloor (- (a * 32768)))%Z).
    { unfold Qtrunc.
      assert (E' : Qlt_bool (a * 32768) 0 = true) by (apply Qlt_bool_iff; lra).
      now rewrite E'. }
    assert (Hlo : (0 <= Qfloor (- (a * 32768)))%Z) by (apply Qfloor_nonneg; lra).
    assert (Hhi : (Qfloor (- (a * 32768)) <= 32768)%Z).
    { apply Qfloor_upper. change (inject_Z 32768) with 32768. lra. }
    rewrite ToInt16_small by (rewrite Et; lia).
    rewrite Et. split; [reflexivity|lia]. }
  intros Hlo Hhi. split; [intros H; now apply Hpos|].
  split; [intros H; now apply Hneg|].
  intros s' Hle Hhi'.
  destruct (Qlt_le_dec s 0) as [Hs|Hs], (Qlt_le_dec s' 0) as [Hs'|Hs'].
  - destruct (Hneg s Hlo Hs) as [-> _].
    destruct (Hneg s' ltac:(lra) Hs') as [-> _].
    assert (H : (Qfloor (- (s' * 32768)) <= Qfloor (- (s * 32768)))%Z)
      by (apply Qfloor_resp_le; lra).
    lia.
  - destruct (Hneg s Hlo Hs) as [_ H1].
    destruct (Hpos s' Hs' Hhi') as [_ H2]. lia.
  - exfalso. lra.
  - destruct (Hpos s Hs Hhi) as [-> _].
    destruct (Hpos s' Hs' Hhi') as [-> _].
    apply Qfloor_resp_le. lra.
Qed.

(** X14.  Samples beyond full scale.  [downsample] does not clamp: a sample
    from 32768/32767 up to (not including) 2 is stored as a negative value,
    and a sample from -2 (not included) down to -32769/32768 as a positive
    one. *)
Theorem toPcm16_wraps_beyond_full_scale (s : Q) :
  ((32768 # 32767) <= s -> s < 2 ->
   toPcm16 s = (Qfloor (s * 32767) - 65536)%Z /\ (toPcm16 s < 0)%Z)
  /\ (-2 < s -> s <= - (32769 # 32768) ->
      toPcm16 s = (65536 - Qfloor (- (s * 32768)))%Z /\ (0 < toPcm16 s)%Z).
Proof.
  split.
  - intros Hlo Hhi. unfold toPcm16.
    assert (E : Qlt_bool s 0 = false) by (apply Qlt_bool_false; lra).
    rewrite E. unfold ToInt16, Qtrunc. cbv zeta.
    assert (E' : Qlt_bool (s * 32767) 0 = false) by (apply Qlt_bool_false; lra).
    rewrite E'.
    assert (H1 : (32768 <= Qfloor (s * 32767))%Z).
    { apply Qfloor_lower. change (inject_Z 32768) with 32768. lra. }
    assert (H2 : (Qfloor (s * 32767) <= 65534)%Z).
    { apply Qfloor_upper. change (inject_Z 65534) with 65534. lra. }
    rewrite Z.mod_small by lia.
    destruct (Z.leb_spec 32768 (Qfloor (s * 32767))); lia.
  - intros Hlo Hhi. unfold toPcm16.
    assert (E : Qlt_bool s 0 = true) by (apply Qlt_bool_iff; lra).
    rewrite E. unfold ToInt16, Qtrunc. cbv zeta.
    assert (E' : Qlt_bool (s * 32768) 0 = true) by (apply Qlt_bool_iff; lra).
    rewrite E'.
    assert (H1 : (32769 <= Qfloor (- (s * 32768)))%Z).
    { apply Qfloor_lower. change (inject_Z 32769) with 32769. lra. }
    assert (H2 : (Qfloor (- (s * 32768)) <= 65535)%Z).
    { apply Qfloor_upper. change (inject_Z 65535) with 65535. lra. }
    assert (Em : ((- Qfloor (- (s * 32768))) mod 65536
                  = 65536 - Qfloor (- (s * 32768)))%Z).
    { symmetry. apply (Z.mod_unique _ _ (-1)); lia. }
    rewrite Em.
    destruct (Z.leb_spec 32768 (65536 - Qfloor (- (s * 32768)))); lia.
Qed.

Lemma downsample_reads_inside_witness :
  length (downsample (repeat 1 4096) 24000 16000) = 2730%nat
  /\ downsample (repeat 1 4096) 24000 16000 !! 2729%nat = Some 32767%Z.
Proof.
  destruct (downsample_reads_inside (repeat 1 4096) 24000 16000)
    as (Hlen & _ & Hin); [reflexivity|reflexivity|].
  split; [rewrite Hlen; vm_compute; reflexivity|].
  destruct (Hin 2729%nat) as (s & Hs & Ho).
  - rewrite Hlen. vm_compute. lia.
  - rewrite Ho. vm_compute in Hs. injection Hs as <-. reflexivity.
Defined.

Lemma toPcm16_in_range_witness :
  toPcm16 (1 # 2) = 16383%Z /\ (toPcm16 (- (1 # 2)) <= toPcm16 (1 # 2))%Z.
Proof.
  destruct (toPcm16_in_range (1 # 2)) as ((E & _) & _ & _);
    [vm_compute; discriminate|vm_compute; discriminate|vm_compute; discriminate|].
  split; [rewrite E; reflexivity|].
  destruct (toPcm16_in_range (- (1 # 2))) as (_ & _ & H);
    [vm_compute; discriminate|vm_compute; discriminate|].
  apply H; vm_compute; discriminate.
Defined.

Lemma toPcm16_wraps_witness :
  toPcm16 (3 # 2) = (-16386)%Z /\ toPcm16 (- (3 # 2)) = 16384%Z.
Proof.
  destruct (toPcm16_wraps_beyond_full_scale (3 # 2)) as [H _].
  destruct (toPcm16_wraps_beyond_full_scale (- (3 # 2))) as [_ H'].
  destruct H as [E _]; [vm_compute; discriminate|reflexivity|].
  destruct H' as [E' _]; [reflexivity|vm_compute; discriminate|].
  split; [rewrite E|rewrite E']; reflexivity.
Defined.

End SampleFacts.

Module CaptureFacts.

Import JS JSFacts Live LiveFacts.

(** The client streams: the session is open on a connection with a
    socket, the audio context exists and the handler of processor [p] is
    set. *)
Definition streaming (c : GeminiLiveClient) (d : Devices)
    (p s : nat) (ctx : AudioContext) : Prop :=
  isSessionOpen c = true /\ session c = Some s /\ is_Some (ws c)
  /\ audioContext c = Some ctx /\ processors d !! p = Some true.

(** The energy test of the capture handler. *)
Definition voiced (t : CaptureTick) : bool :=
  Qlt_bool (1 # 2500) (mean_square (input t)).

Definition audioFrame (s : nat) (ctx : AudioContext) (t : CaptureTick)
  : nat * SessionCall :=
  (s, sendRealtimeInput
        (Media "audio/pcm;rate=16000"
               (downsample (input t) (sampleRate ctx) INPUT_SAMPLE_RATE))).

Definition silentFrame (s : nat) : nat * SessionCall :=
  (s, sendRealtimeInput (Media "audio/pcm;rate=16000" (repeat 0%Z 320))).

Lemma capture_streaming (c : GeminiLiveClient) (d : Devices)
    (p s : nat) (ctx : AudioContext) (t : CaptureTick) :
  streaming c d p s ctx -> ready t = OPEN ->
  let c' := fst (capture p t c d) in
  let d' := snd (capture p t c d) in
  streaming c' d' p s ctx
  /\ lastSpeechTime c' = (if voiced t then now t else lastSpeechTime c)
  /\ isSpeaking c' =
       (if (1200 <? now t - lastSpeechTime c')%Z then false
        else if voiced t then true else isSpeaking c)
  /\ calls d' =
       calls d ++ [if isSpeaking c' then audioFrame s ctx t else silentFrame s].
Proof.
  intros (Ho & Hs & [k Hw] & Hc & Hp) Hr. cbv zeta.
  unfold capture. rewrite Hp.
  pose proof (capture_frame t c d s k ctx Ho Hs Hw Hc Hr) as Hcalls.
  revert Hcalls. unfold onaudioprocess. rewrite Ho, Hs, Hc. cbv zeta.
  fold (voiced t).
  match goal with
  | |- context [if (1200 <? ?a)%Z then false else ?b] =>
      set (sp := if (1200 <? a)%Z then false else b)
  end.
  destruct sp eqn:Esp; cbn [fst snd isSpeaking lastSpeechTime];
    intros Hcalls; (split; [|split; [reflexivity|split; [|exact Hcalls]]]).
  - unfold streaming, safeSend. cbn [isSessionOpen session ws audioContext].
    rewrite ?Ho, ?Hs, ?Hw, ?Hr, ?Hc. simpl. repeat split; try assumption. now exists k.
  - subst sp. rewrite Esp. reflexivity.
  - unfold streaming, safeSend. cbn [isSessionOpen session ws audioContext].
    rewrite ?Ho, ?Hs, ?Hw, ?Hr, ?Hc. simpl. repeat split; try assumption. now exists k.
  - subst sp. rewrite Esp. reflexivity.
Qed.


Lemma captures_cons (p : nat) (t : CaptureTick) (ticks : list (nat * CaptureTick))
    (c : GeminiLiveClient) (d : Devices) :
  captures ((p, t) :: ticks) c d =
    captures ticks (fst (capture p t c d)) (snd (capture p t c d)).
Proof.
  unfold captures. simpl. now rewrite <- surjective_pairing.
Qed.

(** While the client is speaking: buffers below the threshold that
    come within 1200 ms of the last one above it are sent as audio. *)
Lemma captures_within_hangover (p s : nat) (ctx : AudioContext)
    (ticks : list CaptureTick) (c : GeminiLiveClient) (d : Devices) :
  streaming c d p s ctx -> isSpeaking c = true ->
  Forall (fun u => ready u = OPEN /\ voiced u = false
                   /\ (now u - lastSpeechTime c <= 1200)%Z) ticks ->
  let c' := fst (captures (map (pair p) ticks) c d) in
  let d' := snd (captures (map (pair p) ticks) c d) in
  streaming c' d' p s ctx /\ isSpeaking c' = true
  /\ lastSpeechTime c' = lastSpeechTime c
  /\ calls d' = calls d ++ map (audioFrame s ctx) ticks.
Proof.
  revert c d. induction ticks as [|t ticks IH]; intros c d Hst Hsp HF.
  - simpl. split; [exact Hst|]. split; [exact Hsp|]. split; [reflexivity|].
    now rewrite app_nil_r.
  - apply Forall_cons in HF as [(Hr & Hv & Ht) HF].
    destruct (capture_streaming c d p s ctx t Hst Hr) as (Hst' & Hl & Hs & Hc).
    rewrite Hv in Hl, Hs. rewrite Hl in Hs.
    destruct (Z.ltb_spec 1200 (now t - lastSpeechTime c)) as [|_]; [lia|].
    rewrite Hsp in Hs. rewrite Hs in Hc.
    simpl map. rewrite captures_cons. cbv zeta.
    rewrite <- Hl in HF.
    destruct (IH _ _ Hst' Hs HF) as (A & B & C & D).
    split; [exact A|]. split; [exact B|]. split; [congruence|].
    rewrite D, Hc, <- app_assoc. reflexivity.
Qed.

(** While it is not: buffers below the threshold are replaced by the
    silent frame, whenever they come. *)
Lemma captures_silent (p s : nat) (ctx : AudioContext)
    (ticks : list CaptureTick) (c : GeminiLiveClient) (d : Devices) :
  streaming c d p s ctx -> isSpeaking c = false ->
  Forall (fun u => ready u = OPEN /\ voiced u = false) ticks ->
  let c' := fst (captures (map (pair p) ticks) c d) in
  let d' := snd (captures (map (pair p) ticks) c d) in
  streaming c' d' p s ctx /\ isSpeaking c' = false
  /\ calls d' = calls d ++ map (fun _ => silentFrame s) ticks.
Proof.
  revert c d. induction ticks as [|t ticks IH]; intros c d Hst Hsp HF.
  - simpl. split; [exact Hst|]. split; [exact Hsp|]. now rewrite app_nil_r.
  - apply Forall_cons in HF as [(Hr & Hv) HF].
    destruct (capture_streaming c d p s ctx t Hst Hr) as (Hst' & Hl & Hs & Hc).
    rewrite Hv, Hsp in Hs.
    assert (Hs' : isSpeaking (fst (capture p t c d)) = false).
    { rewrite Hs. now destruct (_ <? _)%Z. }
    rewrite Hs' in Hc.
    simpl map. rewrite captures_cons. cbv zeta.
    destruct (IH _ _ Hst' Hs' HF) as (A & B & D).
    split; [exact A|]. split; [exact B|].
    rewrite D, Hc, <- app_assoc. reflexivity.
Qed.

Lemma captures_app (l1 l2 : list (nat * CaptureTick))
    (c : GeminiLiveClient) (d : Devices) :
  captures (l1 ++ l2) c d =
    captures l2 (fst (captures l1 c d)) (snd (captures l1 c d)).
Proof.
  unfold captures. rewrite fold_left_app. now rewrite <- surjective_pairing.
Qed.

(** X15.  The hangover of the capture path.  On a streaming client, after a
    buffer above the energy threshold at time [now t0]: the buffers below
    the threshold that follow are still sent as decimated audio while they
    come within 1200 ms of [now t0]; the first one that comes later is
    replaced by the frame of 320 zero samples, and so is every buffer below
    the threshold after it. *)
Theorem capture_hangover_1200ms (p s : nat) (ctx : AudioContext)
    (c : GeminiLiveClient) (d : Devices)
    (t0 : CaptureTick) (ts : list CaptureTick)
    (t : CaptureTick) (us : list CaptureTick) :
  streaming c d p s ctx ->
  ready t0 = OPEN -> voiced t0 = true ->
  Forall (fun u => ready u = OPEN /\ voiced u = false
                   /\ (now u - now t0 <= 1200)%Z) ts ->
  ready t = OPEN -> voiced t = false -> (1200 < now t - now t0)%Z ->
  Forall (fun u => ready u = OPEN /\ voiced u = false) us ->
  calls (snd (captures (map (pair p) (t0 :: ts ++ t :: us)) c d)) =
    calls d ++ map (audioFrame s ctx) (t0 :: ts)
            ++ map (fun _ => silentFrame s) (t :: us).
Proof.
  intros Hst Hr0 Hv0 Hts Hr Hv Hlate Hus.
  simpl map at 1. rewrite captures_cons.
  destruct (capture_streaming c d p s ctx t0 Hst Hr0) as (Hst0 & Hl0 & Hs0 & Hc0).
  rewrite Hv0 in Hl0, Hs0. rewrite Hl0 in Hs0.
  destruct (Z.ltb_spec 1200 (now t0 - now t0)) as [|_]; [lia|].
  rewrite Hs0 in Hc0.
  set (c0 := fst (capture p t0 c d)) in *.
  set (d0 := snd (capture p t0 c d)) in *.
  rewrite map_app, captures_app.
  rewrite <- Hl0 in Hts.
  destruct (captures_within_hangover p s ctx ts c0 d0 Hst0 Hs0 Hts)
    as (Hst1 & Hs1 & Hl1 & Hc1).
  set (c1 := fst (captures (map (pair p) ts) c0 d0)) in *.
  set (d1 := snd (captures (map (pair p) ts) c0 d0)) in *.
  simpl map at 1. rewrite captures_cons.
  destruct (capture_streaming c1 d1 p s ctx t Hst1 Hr) as (Hst2 & Hl2 & Hs2 & Hc2).
  rewrite Hv in Hl2, Hs2. rewrite Hl2, Hl1, Hl0 in Hs2.
  destruct (Z.ltb_spec 1200 (now t - now t0)) as [_|]; [|lia].
  rewrite Hs2 in Hc2.
  destruct (captures_silent p s ctx us _ _ Hst2 Hs2 Hus) as (_ & _ & Hc3).
  rewrite Hc3, Hc2, Hc1, Hc0. simpl map.
  rewrite <- !app_assoc. reflexivity.
Qed.

Import Samples.

(** A voiced buffer, a quiet one half a second later and a quiet one
    1.3 s later. *)
Definition quietAt (ms : Z) : CaptureTick := mkCapture (repeat 0 8) ms OPEN.

Lemma capture_hangover_witness :
  let c := fst connectedClient in
  let d := snd connectedClient in
  let ctx := mkContext 0 OUTPUT_SAMPLE_RATE in
  calls (snd (captures (map (pair 0%nat)
                          [voicedCapture; quietAt 1000500; quietAt 1001300])
                       c d)) =
    [audioFrame 1 ctx voicedCapture; audioFrame 1 ctx (quietAt 1000500);
     silentFrame 1].
Proof.
  cbv zeta.
  etransitivity;
    [apply (capture_hangover_1200ms 0 1 (mkContext 0 OUTPUT_SAMPLE_RATE)
              (fst connectedClient) (snd connectedClient)
              voicedCapture [quietAt 1000500] (quietAt 1001300) [])
    |reflexivity].
  - repeat split; try reflexivity. now exists 1%nat.
  - reflexivity.
  - vm_compute. reflexivity.
  - constructor; [|constructor]. repeat split; vm_compute; congruence.
  - reflexivity.
  - vm_compute. reflexivity.
  - vm_compute. reflexivity.
  - constructor.
Defined.

End CaptureFacts.

Module ReconnectFacts.

Import JS JSFacts Live LiveFacts Reconnect.

Lemma advance_context (k : CallState) (c : GeminiLiveClient) (d : Devices) :
  k <> NotStarted -> (k = Finished -> audioContext c = None) ->
  (fst (fst (advance k c d)) = Finished ->
   audioContext (snd (fst (advance k c d))) = None)
  /\ fst (fst (advance k c d)) <> NotStarted.
Proof.
  destruct c as [s a ip isrc lt sp nx q o w].
  destruct k as [|[|]|]; [congruence| | |]; intros _ Hk; simpl.
  - destruct a; simpl; split; try discriminate. reflexivity.
  - split; [reflexivity|discriminate].
  - split; [exact Hk|discriminate].
Qed.

Lemma after_connect_finished (steps : list ConnectStep) (k : CallState)
    (c : GeminiLiveClient) (d : Devices) :
  (k = Finished -> audioContext c = None) ->
  k <> NotStarted ->
  fst (fst (after_connect steps k c d)) = Finished ->
  audioContext (snd (fst (after_connect steps k c d))) = None.
Proof.
  revert k c d. induction steps as [|[s w|] steps IH]; intros k c d Hk Hn.
  - simpl. exact Hk.
  - simpl. apply IH; [|exact Hn]. intros E. simpl. exact (Hk E).
  - simpl. destruct (advance_context k c d Hn Hk) as [A B].
    destruct (advance k c d) as [[k' c'] d']. simpl in A, B.
    now apply IH.
Qed.

(** X16.  Connecting again on a client that still holds a session or an
    audio context.  [connect] calls [disconnect] without waiting for it and
    then creates the new audio context; the [disconnect] call is parked on
    an [await] at that moment, and when it resumes it releases
    [this.audioContext], which by then is the new one.  Whatever the order
    in which the connection resolves and that call runs its remaining
    stretches, once the call has finished the client has no audio context:
    [startAudioInput] installs no capture and [queueAudio] schedules
    nothing.  A call that was parked on the close of the old session closes
    the new context.  On a client that holds neither, nothing is parked and
    the new context stays. *)
Theorem reconnect_loses_audio_context (ctx : nat)
    (c : GeminiLiveClient) (d : Devices) :
  let '(ph, c1, d1) := connect_begin ctx c d in
  audioContext c1 = Some (mkContext ctx OUTPUT_SAMPLE_RATE)
  /\ (session c = None -> audioContext c = None -> ph = None)
  /\ (is_Some (session c) \/ is_Some (audioContext c) ->
      is_Some ph
      /\ (forall (steps : list ConnectStep)
                 (c2 : GeminiLiveClient) (d2 : Devices),
            after_connect steps (call_state ph) c1 d1 = (Finished, c2, d2) ->
            audioContext c2 = None
            /\ startAudioInput c2 d2 = (c2, d2)
            /\ (forall (data : Base64) (t : Q),
                  queueAudio data t c2 d2 = (c2, d2)))
      /\ (is_Some (session c) ->
          ph = Some AwaitSessionClose
          /\ In ctx (closedContexts
                       (snd (after_connect [Settled] (call_state ph) c1 d1))))).
Proof.
  destruct c as [s a ip isrc lt sp nx q o w].
  unfold connect_begin, disconnect_start, stopAudioInput.
  cbn [inputProcessor session audioContext].
  destruct s as [s|], a as [a|], ip as [ip|];
    cbn [session audioContext fst snd disconnect_after_session log_call];
    (split; [reflexivity|]); (split; [try discriminate; try reflexivity|]);
    try (intros _ [=]); try (intros [=]);
    try (intros [[? [=]]|[? [=]]]; fail).
  all: intros _; (split; [eexists; reflexivity|]).
  all: split;
    [intros steps c2 d2 Hrun;
     match goal with
     | H : after_connect steps ?k ?c1 ?d1 = _ |- _ =>
         pose proof (after_connect_finished steps k c1 d1) as Hf;
         rewrite H in Hf
     end;
     assert (Hn : audioContext c2 = None)
       by (apply Hf; [discriminate|discriminate|reflexivity]);
     split; [exact Hn|];
     unfold startAudioInput, queueAudio; rewrite Hn; split; reflexivity
    |].
  all: try (intros _; split; [reflexivity|];
            simpl; apply in_or_app; right; left; reflexivity).
  all: intros [? [=]].
Qed.

Import Samples.

(** The connected sample client (audio context 0, session 1) connects
    again with audio context 1 and session 2. *)
Lemma reconnect_witness :
  let '(ph, c1, d1) := connect_begin 1 (fst connectedClient) (snd connectedClient) in
  exists c2 d2,
    after_connect [Settled; Resolved 2 (Some 2%nat); Settled] (call_state ph) c1 d1
      = (Finished, c2, d2)
    /\ session c2 = Some 2%nat
    /\ audioContext c2 = None
    /\ closedContexts d2 = [1%nat]
    /\ startAudioInput c2 d2 = (c2, d2).
Proof.
  pose proof (reconnect_loses_audio_context 1 (fst connectedClient)
                (snd connectedClient)) as H.
  destruct (connect_begin 1 (fst connectedClient) (snd connectedClient))
    as [[ph c1] d1] eqn:E.
  destruct H as (_ & _ & H).
  destruct H as (_ & H & _); [left; eexists; reflexivity|].
  vm_compute in E. injection E as <- <- <-.
  eexists _, _. split; [vm_compute; reflexivity|].
  split; [reflexivity|].
  match goal with
  | |- audioContext ?c2 = None /\ _ /\ startAudioInput ?c2 ?d2 = _ =>
      destruct (H [Settled; Resolved 2 (Some 2%nat); Settled] c2 d2) as (A & B & _);
        [vm_compute; reflexivity|]
  end.
  split; [exact A|]. split; [reflexivity|exact B].
Defined.

End ReconnectFacts.

Module SessionFacts.

Import JS JSFacts Analysis Live LiveFacts Graph GraphFacts.

(** The session state with another connection state. *)
Definition connection (cs : LiveConnectionState) (g : InterviewGraph)
  : InterviewGraph :=
  let st := state g in
  with_state
    (mkState cs (config st) (transcript st) (analyses st)
             (currentQuestionIndex st) (totalQuestions st)
             (currentQuestionText st) (realtimeInputText st)
             (realtimeOutputText st)) g.

Lemma set_connectionState_graph (cs : LiveConnectionState) (w : World) :
  graph (set_connectionState cs w) = connection cs (graph w).
Proof. reflexivity. Qed.

Lemma stopSession_graph (w : World) :
  graph (stopSession w) = connection DISCONNECTED (graph w).
Proof.
  unfold stopSession.
  destruct (disconnect_start (liveClient w) (devices w)) as [[[ph|] c] d];
    reflexivity.
Qed.

Section GraphInvariant.

Variables Math_sqrt Math_log10 : Q -> Q.
Variable P : InterviewGraph -> Prop.

Hypothesis P_connection :
  forall cs g, P g -> P (connection cs g).
Hypothesis P_transcript :
  forall text w, text <> ""%string -> P (graph w) ->
                 P (graph (onTranscript text false false w)).
Hypothesis P_result :
  forall rs w, P (graph w) -> P (graph (onresult rs w)).
Hypothesis P_tool :
  forall args r w, P (graph w) ->
                   P (graph (onToolCall "save_assessment" (Some args) r w)).

Lemma handlePart_graph_inv (r : Readings) (w : World) (p : Part) :
  P (graph w) -> P (graph (handlePart r w p)).
Proof.
  intros H. unfold handlePart.
  set (w1 := match inlineData p with Some _ => _ | None => w end).
  assert (H1 : P (graph w1)) by (subst w1; destruct (inlineData p); exact H).
  destruct (partText p) as [t|]; [|exact H1].
  destruct t as [|a t]; [exact H1|].
  apply P_transcript; [discriminate|exact H1].
Qed.

Lemma onToolCall_graph_inv (name : string) (args : option ToolArgs)
    (r : Readings) (w : World) :
  P (graph w) -> P (graph (onToolCall name args r w)).
Proof.
  intros H.
  destruct (String.eqb name "save_assessment") eqn:E.
  - apply String.eqb_eq in E. subst name.
    destruct args as [args|]; [now apply P_tool|exact H].
  - unfold onToolCall. rewrite E. exact H.
Qed.

Lemma fold_graph_inv {A} (f : World -> A -> World) (xs : list A) (w : World) :
  (forall w a, P (graph w) -> P (graph (f w a))) ->
  P (graph w) -> P (graph (fold_left f xs w)).
Proof.
  intros H. revert w. induction xs as [|a xs IH]; intros w Hw; simpl; auto.
Qed.

Lemma safeHandleMessage_graph_inv (m : LiveServerMessage) (r : Readings)
    (w : World) :
  P (graph w) -> P (graph (safeHandleMessage m r w)).
Proof.
  intros H. unfold safeHandleMessage.
  destruct (negb (isSessionOpen (liveClient w))); [exact H|].
  apply (fold_graph_inv (fun w c => onToolCall (callName c) (callArgs c) r w)).
  - intros. now apply onToolCall_graph_inv.
  - apply (fold_graph_inv (handlePart r)); [|exact H].
    intros. now apply handlePart_graph_inv.
Qed.

Lemma step_graph_inv (w : World) (e : Event) :
  P (graph w) -> P (graph (Graph.step Math_sqrt Math_log10 w e)).
Proof.
  intros H. destruct e; cbv beta iota delta [Graph.step];
    unfold sessionStarting, onopen, onclose, onerror, nextTopic, toggleMic;
    try exact H;
    try (rewrite set_connectionState_graph; now apply P_connection).
  - unfold audioInitialised. destruct (initAudio _ _ _ _ _). exact H.
  - unfold connecting.
    destruct (connect_begin _ _ _) as [[[ph|] c] d]; exact H.
  - now apply safeHandleMessage_graph_inv.
  - unfold resume. destruct (parked w !! i) as [ph|]; [|exact H].
    destruct (disconnect_resume _ _ _) as [[ph' c] d]. exact H.
  - unfold timeout. destruct (timers w) as [|t rest]; [exact H|].
    unfold wrapUpTimeout.
    assert (H1 : P (graph (stopSession (with_timers rest w)))).
    { rewrite stopSession_graph. now apply P_connection. }
    destruct (onEnd _); exact H1.
  - now apply P_result.
  - unfold audioFrame. destruct (processAudioLoop _ _ _ _ _). exact H.
  - unfold faceResults. destruct (onFaceResults _ _ _) as [[s m]|]; exact H.
  - rewrite stopSession_graph. now apply P_connection.
Qed.

Lemma run_graph_inv (w : World) (es : list Event) :
  P (graph w) -> P (graph (Graph.run Math_sqrt Math_log10 w es)).
Proof. apply fold_graph_inv. intros. now apply step_graph_inv. Qed.

End GraphInvariant.


(** *** What a [save_assessment] call leaves in the session state *)

(** The assessment [handleAssessment] builds. *)
Definition assessment (args : ToolArgs) (w : World) : QuestionAnalysis :=
  mkAnalysis (length (analyses (state (graph w))) + 1)
             (realQuestion args (state (graph w)))
             (rawUserAnswer args (graph w))
             (fresh (dom (heap w)))
             (num_or (content_score args) 5)
             (num_or (delivery_score args) 5)
             (or_lit (arg_feedback args) "No feedback provided")
             (default [] (arg_strengths args))
             (default [] (areas_for_improvement args)).

Lemma onToolCall_save (args : ToolArgs) (r : Readings) (w : World) :
  let g := graph w in
  let st := state g in
  let a := assessment args w in
  graph (onToolCall "save_assessment" (Some args) r w) =
    mkGraph
      (mkState (connectionState st) (config st)
               (transcript st ++ [mkMessage ai (questionText a) (dateNow r);
                                  mkMessage user (userAnswer a) (dateNow r)])
               (analyses st ++ [a])
               (currentQuestionIndex st + 1) (totalQuestions st)
               (currentQuestionText st) "" (realtimeOutputText st))
      (onEnd g) (recognition g) "" "".
Proof.
  cbv zeta. unfold onToolCall.
  change (String.eqb "save_assessment" "save_assessment") with true.
  cbv iota zeta.
  match goal with
  | |- context [if ?b then _ else _] => destruct b
  end; reflexivity.
Qed.

(** *** The assessment log and the transcript *)

(** The two transcript entries of an assessment. *)
Definition entries (a : QuestionAnalysis) : list (Role * string) :=
  [(ai, questionText a); (user, userAnswer a)].

Definition spoken (m : Message) : Role * string := (role m, text m).

Definition booked (g : InterviewGraph) : Prop :=
  map questionId (analyses (state g)) = seq 1 (length (analyses (state g)))
  /\ currentQuestionIndex (state g) = length (analyses (state g))
  /\ map spoken (transcript (state g)) = flat_map entries (analyses (state g)).

Lemma onresult_state (rs : list (bool * string)) (w : World) :
  let st := state (graph w) in
  let st' := state (graph (onresult rs w)) in
  connectionState st' = connectionState st /\ config st' = config st
  /\ transcript st' = transcript st /\ analyses st' = analyses st
  /\ currentQuestionIndex st' = currentQuestionIndex st
  /\ totalQuestions st' = totalQuestions st
  /\ currentQuestionText st' = currentQuestionText st.
Proof.
  cbv zeta. unfold onresult. cbv zeta.
  destruct (truthy _); repeat split.
Qed.

Lemma booked_stable (g g' : InterviewGraph) :
  analyses (state g') = analyses (state g) ->
  transcript (state g') = transcript (state g) ->
  currentQuestionIndex (state g') = currentQuestionIndex (state g) ->
  booked g -> booked g'.
Proof. unfold booked. intros -> -> ->. tauto. Qed.

Section Log.

Variables Math_sqrt Math_log10 : Q -> Q.

Lemma run_booked (w : World) (es : list Event) :
  booked (graph w) -> booked (graph (Graph.run Math_sqrt Math_log10 w es)).
Proof.
  apply run_graph_inv.
  - intros cs g. apply booked_stable; reflexivity.
  - intros text w' _. apply booked_stable; reflexivity.
  - intros rs w'. destruct (onresult_state rs w') as (_ & _ & A & B & C & _).
    now apply booked_stable.
  - intros args r w' (Hid & Hix & Htr).
    rewrite onToolCall_save. cbv zeta. unfold booked.
    cbn [state analyses transcript currentQuestionIndex].
    rewrite !map_app, !length_app, flat_map_app, seq_app, Hid, Hix, Htr.
    simpl. repeat split. repeat f_equal. lia.
Qed.

Lemma newGraph_booked (cfg : InterviewConfig) (e r : bool) :
  booked (graph (newGraph cfg e r)).
Proof. repeat split. Qed.

(** X17.  Numbering.  In every state the orchestrator is in once a
    handler has returned, the assessments saved so far carry the question
    ids 1, 2, 3, ... in the order they were saved, and the question index
    of the session state is their number.  A [save_assessment] call
    passes through one more state that the listeners get to see: the one
    [handleAssessment] publishes before the handler raises the index.
    There the ids count up as well, and the assessments are one more than
    the index says. *)
Theorem question_ids_count_up (cfg : InterviewConfig)
    (onEnd recognition : bool) (es : list Event) :
  let w := Graph.run Math_sqrt Math_log10 (newGraph cfg onEnd recognition) es in
  let st := state (graph w) in
  (map questionId (analyses st) = seq 1 (length (analyses st))
   /\ currentQuestionIndex st = length (analyses st))
  /\ (forall (args : ToolArgs) (now : Z),
        let st1 := state (graph (handleAssessment args now w)) in
        map questionId (analyses st1) = seq 1 (length (analyses st1))
        /\ length (analyses st1) = S (currentQuestionIndex st1)).
Proof.
  destruct (run_booked (newGraph cfg onEnd recognition) es
                       (newGraph_booked cfg onEnd recognition))
    as (A & B & _).
  cbv zeta. split; [split; assumption|].
  intros args now. unfold handleAssessment. cbv zeta.
  cbn [graph state analyses currentQuestionIndex with_graph with_state
       with_analysis].
  rewrite map_app, length_app, seq_app, A, B. simpl. split; [|lia].
  repeat f_equal. lia.
Qed.

(** X18.  The transcript.  In every reachable state the permanent transcript
    consists of the saved assessments in order, each contributing its
    question as an entry of the agent followed by its answer as an entry of
    the candidate: two entries per assessment and nothing else. *)
Theorem transcript_mirrors_assessments (cfg : InterviewConfig)
    (onEnd recognition : bool) (es : list Event) :
  let st := state (graph (Graph.run Math_sqrt Math_log10
                            (newGraph cfg onEnd recognition) es)) in
  map (fun m => (role m, text m)) (transcript st) =
    flat_map (fun a => [(ai, questionText a); (user, userAnswer a)]) (analyses st)
  /\ length (transcript st) = (2 * length (analyses st))%nat.
Proof.
  destruct (run_booked (newGraph cfg onEnd recognition) es
                       (newGraph_booked cfg onEnd recognition))
    as (_ & _ & C).
  cbv zeta. split; [exact C|].
  rewrite <- (length_map spoken), C.
  generalize (analyses (state (graph (Graph.run Math_sqrt Math_log10
                                        (newGraph cfg onEnd recognition) es)))).
  intros l. induction l as [|a l IH]; [reflexivity|].
  simpl. rewrite IH. lia.
Qed.


(** X19.  Append-only logs.  From any state of the orchestrator, whatever
    happens next (a stop, a new connection, more messages), the assessments
    and the transcript entries recorded so far stay where they are,
    unchanged: the later logs extend the earlier ones. *)
Theorem logs_are_append_only (w : World) (es : list Event) :
  let st := state (graph w) in
  let st' := state (graph (Graph.run Math_sqrt Math_log10 w es)) in
  (exists more, analyses st' = analyses st ++ more)
  /\ (exists said, transcript st' = transcript st ++ said).
Proof.
  cbv zeta.
  apply (run_graph_inv Math_sqrt Math_log10
           (fun g => (exists more, analyses (state g)
                                   = analyses (state (graph w)) ++ more)
                     /\ (exists said, transcript (state g)
                                      = transcript (state (graph w)) ++ said))).
  - intros cs g H. exact H.
  - intros text w' _ H. exact H.
  - intros rs w' H.
    destruct (onresult_state rs w') as (_ & _ & A & B & _).
    now rewrite A, B.
  - intros args r w' [[more Hm] [said Hs]].
    rewrite onToolCall_save. cbv zeta. cbn [state analyses transcript].
    rewrite Hm, Hs, <- !app_assoc. split; eexists; reflexivity.
  - split; exists []; now rewrite app_nil_r.
Qed.

End Log.

(** *** The question text on display *)

Lemma append_nonempty (a b : string) : b <> ""%string -> (a ++ b)%string <> ""%string.
Proof.
  intros Hb. destruct a as [|c a]; simpl; [exact Hb|discriminate].
Qed.

(** X20.  The question text.  The text on display is never empty in a
    reachable state: it starts as "Waiting for interviewer..." and is only
    ever replaced by the agent-question buffer right after a non-empty
    fragment was appended to it.  So the question text an assessment records
    is the tool-supplied text when there is one, and the text on display
    otherwise; the topic argument and the placeholder "Interview Question"
    are never used. *)
Theorem question_text_never_falls_through (Math_sqrt Math_log10 : Q -> Q)
    (cfg : InterviewConfig) (onEnd recognition : bool) (es : list Event)
    (args : ToolArgs) :
  let st := state (graph (Graph.run Math_sqrt Math_log10
                            (newGraph cfg onEnd recognition) es)) in
  currentQuestionText st <> ""%string
  /\ realQuestion args st =
       match full_question_text args with
       | Some (String a t) => String a t
       | _ => currentQuestionText st
       end.
Proof.
  cbv zeta.
  assert (H : currentQuestionText
                (state (graph (Graph.run Math_sqrt Math_log10
                                 (newGraph cfg onEnd recognition) es)))
              <> ""%string).
  { apply (run_graph_inv Math_sqrt Math_log10
             (fun g => currentQuestionText (state g) <> ""%string)).
    - intros cs g H. exact H.
    - intros text w' Ht _. unfold onTranscript. cbn [graph with_graph state
        currentQuestionText]. now apply append_nonempty.
    - intros rs w' H.
      destruct (onresult_state rs w') as (_ & _ & _ & _ & _ & _ & A).
      now rewrite A.
    - intros args' r w' H. rewrite onToolCall_save. exact H.
    - discriminate. }
  split; [exact H|].
  unfold realQuestion.
  destruct (full_question_text args) as [[|a t]|];
    destruct (currentQuestionText _) as [|b u]; try reflexivity; congruence.
Qed.

(** *** The scores *)

Lemma num_or_nonzero (a : option Q) : ~ num_or a 5 == 0.
Proof.
  unfold num_or. destruct a as [q|]; [|discriminate].
  destruct (Qeq_bool q 0) eqn:E; [discriminate|].
  intros H. apply Qeq_bool_iff in H. congruence.
Qed.

Lemma score_default (q : Q) : q == 0 -> num_or (Some q) 5 = 5.
Proof. intros H. unfold num_or. apply Qeq_bool_iff in H. now rewrite H. Qed.

Lemma score_kept (q : Q) : ~ q == 0 -> num_or (Some q) 5 = q.
Proof.
  intros H. unfold num_or. destruct (Qeq_bool q 0) eqn:E; [|reflexivity].
  apply Qeq_bool_iff in E. contradiction.
Qed.

(** X21.  Scores.  A content score or a delivery score that is missing, or
    that the agent sent as 0, is stored as 5, and any other score is
    stored as it was sent: no assessment of a reachable state has a
    content score or a delivery score equal to 0. *)
Theorem zero_score_is_stored_as_five (Math_sqrt Math_log10 : Q -> Q)
    (cfg : InterviewConfig) (onEnd recognition : bool) (es : list Event) :
  let w := Graph.run Math_sqrt Math_log10 (newGraph cfg onEnd recognition) es in
  Forall (fun a => ~ contentScore a == 0 /\ ~ deliveryScore a == 0)
         (analyses (state (graph w)))
  /\ (forall (args : ToolArgs) (now : Z),
        exists a,
          analyses (state (graph (handleAssessment args now w)))
            = analyses (state (graph w)) ++ [a]
          /\ (content_score args = None
              \/ (exists q, content_score args = Some q /\ q == 0) ->
              contentScore a = 5)
          /\ (delivery_score args = None
              \/ (exists q, delivery_score args = Some q /\ q == 0) ->
              deliveryScore a = 5)
          /\ (forall q, content_score args = Some q -> ~ q == 0 ->
              contentScore a = q)
          /\ (forall q, delivery_score args = Some q -> ~ q == 0 ->
              deliveryScore a = q)).
Proof.
  cbv zeta. split.
  - apply (run_graph_inv Math_sqrt Math_log10
             (fun g => Forall (fun a => ~ contentScore a == 0
                                        /\ ~ deliveryScore a == 0)
                              (analyses (state g)))).
    + intros cs g H. exact H.
    + intros text w' _ H. exact H.
    + intros rs w' H.
      destruct (onresult_state rs w') as (_ & _ & _ & B & _).
      now rewrite B.
    + intros args r w' H. rewrite onToolCall_save. cbv zeta.
      cbn [state analyses]. apply Forall_app. split; [exact H|].
      constructor; [|constructor]. split; apply num_or_nonzero.
    + constructor.
  - intros args now. eexists. split; [reflexivity|].
    cbn [contentScore deliveryScore].
    split; [|split; [|split]].
    + intros [-> | (q & -> & Hq)]; [reflexivity|].
      apply score_default. exact Hq.
    + intros [-> | (q & -> & Hq)]; [reflexivity|].
      apply score_default. exact Hq.
    + intros q -> Hq. apply score_kept. exact Hq.
    + intros q -> Hq. apply score_kept. exact Hq.
Qed.

End SessionFacts.

Module EndFacts.

Import JS JSFacts Analysis Live LiveFacts Graph GraphFacts SessionFacts.

(** What the completion path reads and writes: the pending timers, the
    calls of the completion callback, and the fields of the session
    state that decide about them. *)
Definition ledger (w : World)
  : list Z * list InterviewState * nat * nat * nat * bool :=
  (timers w, onEndCalls w,
   currentQuestionIndex (state (graph w)), totalQuestions (state (graph w)),
   length (analyses (state (graph w))), onEnd (graph w)).

Lemma fold_ledger {A} (f : World -> A -> World) (xs : list A) (w : World) :
  (forall w a, ledger (f w a) = ledger w) -> ledger (fold_left f xs w) = ledger w.
Proof.
  intros H. revert w. induction xs as [|a xs IH]; intros w; simpl; [reflexivity|].
  rewrite IH. apply H.
Qed.

Lemma handlePart_ledger (r : Readings) (w : World) (p : Part) :
  ledger (handlePart r w p) = ledger w.
Proof.
  unfold handlePart.
  destruct (inlineData p), (partText p) as [t|]; try reflexivity;
    destruct (truthy (Some t)); reflexivity.
Qed.

Lemma stopSession_ledger (w : World) : ledger (stopSession w) = ledger w.
Proof.
  unfold stopSession.
  destruct (disconnect_start (liveClient w) (devices w)) as [[[ph|] c] d];
    reflexivity.
Qed.

(** A [save_assessment] call on the ledger. *)
Lemma onToolCall_ledger (args : ToolArgs) (r : Readings) (w : World) :
  ledger (onToolCall "save_assessment" (Some args) r w) =
    ((if (totalQuestions (state (graph w))
          <=? currentQuestionIndex (state (graph w)) + 1)%nat
      then timers w ++ [GRACE_DELAY] else timers w),
     onEndCalls w,
     (currentQuestionIndex (state (graph w)) + 1)%nat,
     totalQuestions (state (graph w)),
     (length (analyses (state (graph w))) + 1)%nat,
     onEnd (graph w)).
Proof.
  unfold onToolCall.
  change (String.eqb "save_assessment" "save_assessment") with true.
  cbv iota zeta.
  cbn [graph state with_graph handleAssessment with_analysis with_state
       totalQuestions currentQuestionIndex].
  destruct (_ <=? _)%nat; unfold ledger; simpl; rewrite length_app; reflexivity.
Qed.


(** A state the completion callback may be called in: the session is
    disconnected and the question budget has been reached. *)
Definition complete (st : InterviewState) : Prop :=
  connectionState st = DISCONNECTED
  /\ (totalQuestions st <= length (analyses st))%nat.

Definition accounted (w : World) : Prop :=
  let '(tm, calls, idx, total, n, cb) := ledger w in
  idx = n
  /\ (cb = true -> (length calls + length tm = idx + 1 - total)%nat)
  /\ (cb = false -> calls = [])
  /\ (tm <> [] -> (total <= idx)%nat)
  /\ Forall complete calls.

Lemma accounted_same (w w' : World) :
  ledger w' = ledger w -> accounted w -> accounted w'.
Proof. unfold accounted. now intros ->. Qed.

Lemma onToolCall_accounted (name : string) (args : option ToolArgs)
    (r : Readings) (w : World) :
  accounted w -> accounted (onToolCall name args r w).
Proof.
  intros H.
  destruct (String.eqb name "save_assessment") eqn:E.
  - apply String.eqb_eq in E. subst name.
    destruct args as [args|]; [|exact H].
    unfold accounted in *. rewrite onToolCall_ledger.
    unfold ledger in H. destruct H as (Hn & Hc & Hf & Ht & Ha).
    split; [lia|].
    destruct (Nat.leb_spec (totalQuestions (state (graph w)))
                           (currentQuestionIndex (state (graph w)) + 1)).
    + split; [intros Hcb; specialize (Hc Hcb); rewrite length_app; simpl; lia|].
      split; [exact Hf|]. split; [lia|exact Ha].
    + split; [intros Hcb; specialize (Hc Hcb); lia|].
      split; [exact Hf|]. split; [|exact Ha].
      intros Hne. specialize (Ht Hne). lia.
  - unfold onToolCall. rewrite E. exact H.
Qed.

Lemma fold_accounted {A} (f : World -> A -> World) (xs : list A) (w : World) :
  (forall w a, accounted w -> accounted (f w a)) ->
  accounted w -> accounted (fold_left f xs w).
Proof.
  intros H. revert w. induction xs as [|a xs IH]; intros w Hw; simpl; auto.
Qed.

Lemma timeout_accounted (w : World) : accounted w -> accounted (timeout w).
Proof.
  intros H. unfold timeout.
  destruct (timers w) as [|t rest] eqn:Et; [exact H|].
  unfold wrapUpTimeout.
  pose proof (stopSession_ledger (with_timers rest w)) as Hl.
  pose proof (stopSession_graph (with_timers rest w)) as Hg.
  set (w1 := stopSession (with_timers rest w)) in *.
  unfold accounted, ledger in H. rewrite Et in H.
  destruct H as (Hn & Hc & Hf & Ht & Ha).
  specialize (Ht ltac:(discriminate)).
  assert (Hg1 : onEnd (graph w1) = onEnd (graph w)) by (rewrite Hg; reflexivity).
  unfold ledger in Hl. cbn [timers onEndCalls graph with_timers] in Hl.
  injection Hl as L1 L2 L3 L4 L5 L6.
  destruct (onEnd (graph w1)) eqn:Ecb.
  - unfold accounted, ledger.
    cbn [timers onEndCalls graph with_onEndCalls].
    rewrite L1, L2, L3, L4, L5, Ecb.
    split; [exact Hn|].
    split; [intros _; specialize (Hc (eq_sym Hg1)); rewrite length_app;
            simpl in *; lia|].
    split; [discriminate|]. split; [intros _; exact Ht|].
    apply Forall_app. split; [exact Ha|]. constructor; [|constructor].
    split; [rewrite Hg; reflexivity|]. rewrite L5, <- Hn. rewrite L4. exact Ht.
  - unfold accounted, ledger. rewrite L1, L2, L3, L4, L5, Ecb.
    split; [exact Hn|]. split; [discriminate|].
    split; [intros _; apply Hf; congruence|].
    split; [intros _; exact Ht|exact Ha].
Qed.

Section Completion.

Variables Math_sqrt Math_log10 : Q -> Q.

Lemma step_ledger (w : World) (e : Event) :
  match e with
  | Inbound _ _ | Timeout => True
  | _ => ledger (Graph.step Math_sqrt Math_log10 w e) = ledger w
  end.
Proof.
  destruct e; cbv beta iota delta [Graph.step]; try exact I; try reflexivity.
  - unfold audioInitialised. destruct (initAudio _ _ _ _ _). reflexivity.
  - unfold connecting.
    destruct (connect_begin _ _ _) as [[[ph|] c] d]; reflexivity.
  - unfold resume. destruct (parked w !! i) as [ph|]; [|reflexivity].
    destruct (disconnect_resume _ _ _) as [[ph' c] d]. reflexivity.
  - unfold onresult. cbv zeta. destruct (truthy _); reflexivity.
  - unfold audioFrame. destruct (processAudioLoop _ _ _ _ _). reflexivity.
  - unfold faceResults. destruct (onFaceResults _ _ _) as [[s m]|]; reflexivity.
  - apply stopSession_ledger.
Qed.

Lemma step_accounted (w : World) (e : Event) :
  accounted w -> accounted (Graph.step Math_sqrt Math_log10 w e).
Proof.
  intros H. pose proof (step_ledger w e) as Hl.
  destruct e; try (eapply accounted_same; [exact Hl|exact H]).
  - cbv beta iota delta [Graph.step]. unfold safeHandleMessage.
    destruct (negb (isSessionOpen (liveClient w))); [exact H|].
    apply (fold_accounted (fun w c => onToolCall (callName c) (callArgs c) r w)).
    + intros. now apply onToolCall_accounted.
    + apply (fold_accounted (handlePart r)); [|exact H].
      intros w' p Hw'. eapply accounted_same; [apply handlePart_ledger|exact Hw'].
  - now apply timeout_accounted.
Qed.

Lemma reachable_accounted (cfg : InterviewConfig) (onEnd recognition : bool)
    (es : list Event) :
  accounted (Graph.run Math_sqrt Math_log10 (newGraph cfg onEnd recognition) es).
Proof.
  apply fold_accounted; [intros; now apply step_accounted|].
  unfold accounted, ledger, newGraph. simpl.
  split; [reflexivity|]. split.
  - intros _. unfold totalQs.
    destruct (Qle_bool 30 _); [reflexivity|]. destruct (Qle_bool 20 _); reflexivity.
  - split; [reflexivity|]. split; [congruence|constructor].
Qed.

(** X22.  The states the completion callback sees.  Every call of the
    completion callback in a reachable state was made with a session state
    that is disconnected and holds at least as many assessments as the
    question budget; and while the question index is below the budget, the
    callback has not been called and no timer is pending. *)
Theorem completion_only_after_budget (cfg : InterviewConfig)
    (onEnd recognition : bool) (es : list Event) :
  let w := Graph.run Math_sqrt Math_log10 (newGraph cfg onEnd recognition) es in
  Forall (fun st => connectionState st = DISCONNECTED
                    /\ (totalQuestions st <= length (analyses st))%nat)
         (onEndCalls w)
  /\ ((currentQuestionIndex (state (graph w))
       < totalQuestions (state (graph w)))%nat ->
      onEndCalls w = [] /\ timers w = []).
Proof.
  cbv zeta.
  pose proof (reachable_accounted cfg onEnd recognition es) as H.
  unfold accounted, ledger in H. destruct H as (Hn & Hc & Hf & Ht & Ha).
  split; [exact Ha|].
  intros Hlt.
  assert (Htm : timers (Graph.run Math_sqrt Math_log10
                          (newGraph cfg onEnd recognition) es) = []).
  { destruct (timers _) as [|t rest]; [reflexivity|].
    specialize (Ht ltac:(discriminate)). lia. }
  split; [|exact Htm].
  destruct (Graph.onEnd (graph (Graph.run Math_sqrt Math_log10
                                  (newGraph cfg onEnd recognition) es))) eqn:E.
  - specialize (Hc eq_refl). rewrite Htm in Hc. simpl in Hc.
    destruct (onEndCalls _); [reflexivity|simpl in Hc; lia].
  - now apply Hf.
Qed.

(** X23.  How often the completion callback is called.  Every
    [save_assessment] call that brings the question index to the budget or
    beyond starts one more grace timer, and every timer that fires calls the
    completion callback once: with a callback installed, the calls made so
    far and the timers still pending add up to the number of assessments
    saved from the budget on. *)
Theorem completion_once_per_late_assessment (cfg : InterviewConfig)
    (recognition : bool) (es : list Event) :
  let w := Graph.run Math_sqrt Math_log10 (newGraph cfg true recognition) es in
  (length (onEndCalls w) + length (timers w)
   = length (analyses (state (graph w))) + 1 - totalQuestions (state (graph w)))%nat.
Proof.
  cbv zeta.
  pose proof (reachable_accounted cfg true recognition es) as H.
  unfold accounted, ledger in H. destruct H as (Hn & Hc & _).
  rewrite <- Hn. apply Hc.
  assert (Hcb : forall es', Graph.onEnd (graph (Graph.run Math_sqrt Math_log10
                    (newGraph cfg true recognition) es')) = true).
  { intros es'.
    apply (run_graph_inv Math_sqrt Math_log10 (fun g => Graph.onEnd g = true)).
    - intros cs g Hg. exact Hg.
    - intros text w' _ Hg. exact Hg.
    - intros rs w' Hg. unfold onresult. cbv zeta.
      destruct (truthy _); exact Hg.
    - intros args r w' Hg. rewrite onToolCall_save. exact Hg.
    - reflexivity. }
  apply Hcb.
Qed.

End Completion.

Import Samples.

(** Four assessments in a ten-minute interview, the fourth within the
    grace period of the third: two timers fire and the completion
    callback is called twice. *)
Lemma completion_twice_witness :
  let w := Graph.run sqrt_floor log_floor (newGraph config10 true true)
             [Connecting 0; Connected 1 (Some 1%nat); SocketOpen;
              Inbound (saveCall "call-1" noArgs) readings;
              Inbound (saveCall "call-2" noArgs) readings;
              Inbound (saveCall "call-3" noArgs) readings;
              Inbound (saveCall "call-4" noArgs) readings;
              Timeout; Timeout] in
  timers w = [] /\ length (onEndCalls w) = 2%nat.
Proof.
  cbv zeta.
  pose proof (completion_once_per_late_assessment sqrt_floor log_floor
                config10 true
                [Connecting 0; Connected 1 (Some 1%nat); SocketOpen;
                 Inbound (saveCall "call-1" noArgs) readings;
                 Inbound (saveCall "call-2" noArgs) readings;
                 Inbound (saveCall "call-3" noArgs) readings;
                 Inbound (saveCall "call-4" noArgs) readings;
                 Timeout; Timeout]) as H.
  cbv zeta in H.
  assert (Ht : timers (Graph.run sqrt_floor log_floor (newGraph config10 true true)
             [Connecting 0; Connected 1 (Some 1%nat); SocketOpen;
              Inbound (saveCall "call-1" noArgs) readings;
              Inbound (saveCall "call-2" noArgs) readings;
              Inbound (saveCall "call-3" noArgs) readings;
              Inbound (saveCall "call-4" noArgs) readings;
              Timeout; Timeout]) = []) by (vm_compute; reflexivity).
  split; [exact Ht|].
  rewrite Ht in H. simpl length in H at 2. rewrite Nat.add_0_r in H.
  rewrite H. vm_compute. reflexivity.
Defined.

End EndFacts.

Module SocketFacts.

Import JS JSFacts Analysis Live LiveFacts Graph GraphFacts.

(** The client holds no socket and nothing was transmitted. *)
Definition mute (c : GeminiLiveClient) (d : Devices) : Prop :=
  ws c = None /\ transmitted d = 0%nat.

Lemma safeSend_mute (r : ReadyState) (data : RealtimeInput)
    (c : GeminiLiveClient) (d : Devices) :
  ws c = None -> safeSend r data c d = d.
Proof.
  intros H. unfold safeSend. rewrite H.
  destruct (isSessionOpen c), (session c); reflexivity.
Qed.

Lemma capture_mute (p : nat) (t : CaptureTick)
    (c : GeminiLiveClient) (d : Devices) :
  mute c d -> mute (fst (capture p t c d)) (snd (capture p t c d)).
Proof.
  intros [Hw Ht]. unfold capture.
  destruct (processors d !! p) as [[|]|]; try (split; assumption).
  unfold onaudioprocess.
  destruct (isSessionOpen c), (session c); try (split; assumption).
  cbv zeta.
  match goal with
  | |- context [if (1200 <? ?a)%Z then false else ?b] =>
      set (sp := if (1200 <? a)%Z then false else b)
  end.
  destruct sp; [destruct (audioContext c)|]; cbn [fst snd];
    try (split; assumption);
    rewrite safeSend_mute by exact Hw; split; assumption.
Qed.

Lemma transmitted_stop (c : GeminiLiveClient) (d : Devices) :
  ws (fst (stopAudioInput c d)) = ws c
  /\ transmitted (snd (stopAudioInput c d)) = transmitted d.
Proof. unfold stopAudioInput. destruct (inputProcessor c); split; reflexivity. Qed.

Lemma disconnect_start_mute (c : GeminiLiveClient) (d : Devices) :
  mute c d ->
  mute (snd (fst (disconnect_start c d))) (snd (disconnect_start c d)).
Proof.
  intros [Hw Ht]. destruct (disconnect_start_closed c d) as [_ Htr].
  split; [|congruence].
  destruct c as [s a ip isrc lt sp nx q o w]. simpl in Hw. subst w.
  destruct s, a, ip; reflexivity.
Qed.

Lemma disconnect_resume_mute (ph : DisconnectPhase)
    (c : GeminiLiveClient) (d : Devices) :
  mute c d ->
  mute (snd (fst (disconnect_resume ph c d))) (snd (disconnect_resume ph c d)).
Proof.
  intros [Hw Ht].
  destruct c as [s a ip isrc lt sp nx q o w]. simpl in Hw. subst w.
  destruct ph; [destruct a|]; split; try reflexivity; exact Ht.
Qed.

Lemma queueAudio_mute (data : Base64) (t : Q)
    (c : GeminiLiveClient) (d : Devices) :
  mute c d -> mute (fst (queueAudio data t c d)) (snd (queueAudio data t c d)).
Proof.
  intros [Hw Ht]. unfold queueAudio.
  destruct (audioContext c), (isSessionOpen c); try (split; assumption).
  destruct (bufferDuration data); split; assumption.
Qed.

Definition silent (w : World) : Prop := mute (liveClient w) (devices w).

Lemma silent_same (w w' : World) :
  liveClient w' = liveClient w -> devices w' = devices w -> silent w -> silent w'.
Proof. unfold silent. now intros -> ->. Qed.

Lemma fold_silent {A} (f : World -> A -> World) (xs : list A) (w : World) :
  (forall w a, silent w -> silent (f w a)) -> silent w -> silent (fold_left f xs w).
Proof.
  intros H. revert w. induction xs as [|a xs IH]; intros w Hw; simpl; auto.
Qed.

Lemma handlePart_silent (r : Readings) (w : World) (p : Part) :
  silent w -> silent (handlePart r w p).
Proof.
  intros H. unfold handlePart.
  set (w1 := match inlineData p with Some _ => _ | None => w end).
  assert (H1 : silent w1).
  { subst w1. destruct (inlineData p) as [data|]; [|exact H].
    exact (queueAudio_mute data (currentTime r) _ _ H). }
  destruct (partText p) as [t|]; [|exact H1].
  destruct (truthy (Some t)); [|exact H1].
  eapply silent_same; [| |exact H1]; reflexivity.
Qed.

Lemma onToolCall_silent (name : string) (args : option ToolArgs) (r : Readings)
    (w : World) :
  silent w -> silent (onToolCall name args r w).
Proof.
  intros H. unfold onToolCall.
  destruct (String.eqb name "save_assessment"); [|exact H].
  destruct args as [args|]; [|exact H].
  cbv zeta.
  match goal with
  | |- context [if ?b then _ else _] => destruct b
  end.
  - unfold silent, sendControlMessage.
    cbn [liveClient devices with_timers with_live with_graph handleAssessment
         with_analysis fst snd].
    rewrite safeSend_mute by exact (proj1 H). exact H.
  - eapply silent_same; [| |exact H]; reflexivity.
Qed.

Lemma stopSession_silent (w : World) : silent w -> silent (stopSession w).
Proof.
  intros H. unfold stopSession.
  pose proof (disconnect_start_mute _ _ H) as Hd.
  destruct (disconnect_start (liveClient w) (devices w)) as [[[ph|] c] d];
    exact Hd.
Qed.

(** An event that does not hand the client a connection with a socket. *)
Definition socketless (e : Event) : Prop :=
  match e with
  | Connected _ (Some _) => False
  | _ => True
  end.

Section Runs.

Variables Math_sqrt Math_log10 : Q -> Q.

Lemma step_silent (w : World) (e : Event) :
  socketless e -> silent w -> silent (Graph.step Math_sqrt Math_log10 w e).
Proof.
  intros He H. destruct e; cbv beta iota delta [Graph.step];
    unfold sessionStarting, onopen, onclose, onerror, nextTopic, toggleMic;
    try (eapply silent_same; [| |exact H]; reflexivity).
  - unfold audioInitialised. destruct (initAudio _ _ _ _ _).
    eapply silent_same; [| |exact H]; reflexivity.
  - unfold connecting, connect_begin.
    pose proof (disconnect_start_mute _ _ H) as Hd.
    destruct (disconnect_start (liveClient w) (devices w)) as [[[ph|] c] d];
      exact Hd.
  - destruct w0 as [k|]; [destruct He|]. split; [reflexivity|exact (proj2 H)].
  - unfold silent, startAudioInput. cbn [liveClient devices with_live].
    destruct (audioContext (liveClient w)); exact H.
  - unfold safeHandleMessage.
    destruct (negb (isSessionOpen (liveClient w))); [exact H|].
    apply (fold_silent (fun w c => onToolCall (callName c) (callArgs c) r w)).
    + intros. now apply onToolCall_silent.
    + apply (fold_silent (handlePart r)); [|exact H].
      intros. now apply handlePart_silent.
  - exact (capture_mute p t _ _ H).
  - exact H.
  - exact H.
  - exact H.
  - exact H.
  - unfold resume. destruct (parked w !! i) as [ph|]; [|exact H].
    pose proof (disconnect_resume_mute ph _ _ H) as Hd.
    destruct (disconnect_resume ph (liveClient w) (devices w)) as [[ph' c] d].
    exact Hd.
  - unfold timeout. destruct (timers w) as [|t rest]; [exact H|].
    unfold wrapUpTimeout.
    assert (H1 : silent (stopSession (with_timers rest w))).
    { apply stopSession_silent. exact H. }
    destruct (onEnd _); exact H1.
  - unfold audioFrame. destruct (processAudioLoop _ _ _ _ _). exact H.
  - unfold faceResults. destruct (onFaceResults _ _ _) as [[s m]|]; exact H.
  - now apply stopSession_silent.
  - unfold silent, sendControlMessage. cbn [liveClient devices with_live fst snd].
    rewrite safeSend_mute by exact (proj1 H). exact H.
  - unfold silent. cbn [liveClient devices with_live].
    destruct (transmitted_stop (liveClient w) (devices w)) as [A B].
    split; [rewrite A; exact (proj1 H)|rewrite B; exact (proj2 H)].
Qed.

(** X24.  A connection object without a socket.  [safeSend] sends only while
    the client holds the [websocket] of the connection.  As long as no
    connection has resolved with one, nothing is transmitted, whatever else
    happens: no captured audio, no control message, no wrap-up. *)
Theorem nothing_sent_without_socket (cfg : InterviewConfig)
    (onEnd recognition : bool) (es : list Event) :
  Forall socketless es ->
  let w := Graph.run Math_sqrt Math_log10 (newGraph cfg onEnd recognition) es in
  ws (liveClient w) = None /\ transmitted (devices w) = 0%nat.
Proof.
  intros HF. cbv zeta. unfold Graph.run.
  assert (H0 : silent (newGraph cfg onEnd recognition)) by (split; reflexivity).
  revert H0. generalize (newGraph cfg onEnd recognition).
  induction HF as [|e es He _ IH]; intros w Hw; [exact Hw|].
  simpl. apply IH. now apply step_silent.
Qed.

End Runs.

Import Samples.

(** A session whose connection object has no [websocket]: three
    assessments are saved, the wrap-up is due, and nothing was sent. *)
Lemma nothing_sent_witness :
  let w := Graph.run sqrt_floor log_floor (newGraph config10 true true)
             [SessionStarting; Connecting 0; Connected 1 None; SocketOpen;
              AudioInputStarted; Capture 0 voicedCapture;
              Inbound (saveCall "call-1" noArgs) readings;
              Inbound (saveCall "call-2" noArgs) readings;
              Inbound (saveCall "call-3" noArgs) readings] in
  length (analyses (state (graph w))) = 3%nat
  /\ timers w = [GRACE_DELAY]
  /\ transmitted (devices w) = 0%nat.
Proof.
  cbv zeta. split; [vm_compute; reflexivity|]. split; [vm_compute; reflexivity|].
  apply (nothing_sent_without_socket sqrt_floor log_floor config10 true true).
  repeat constructor.
Defined.

End SocketFacts.

Module FeedbackFacts.

Import JS JSFacts Analysis Graph RangeFacts MetricFacts WorldFacts
       ReachableMetrics Feedback.

Lemma or_zero_eq (x : Q) : or_zero x == x.
Proof.
  unfold or_zero. destruct (Qeq_bool x 0) eqn:E; [|reflexivity].
  apply Qeq_bool_iff in E. now rewrite E.
Qed.

Lemma sum_from_bounds {A} (f : A -> Q) (lo hi : Q) (l : list A) (init : Q) :
  Forall (fun a => lo <= f a /\ f a <= hi) l ->
  init + Qnat (length l) * lo <= fold_left (fun acc curr => acc + f curr) l init
  /\ fold_left (fun acc curr => acc + f curr) l init
     <= init + Qnat (length l) * hi.
Proof.
  intros HF. revert init. induction HF as [|a l [Ha Hb] _ IH]; intros init.
  - simpl. change (Qnat 0) with 0. lra.
  - simpl fold_left. destruct (IH (init + f a)) as [I1 I2].
    assert (E : Qnat (length (a :: l)) == Qnat (length l) + 1).
    { unfold Qnat. simpl length. rewrite Nat2Z.inj_succ, <- Z.add_1_r.
      rewrite inject_Z_plus. reflexivity. }
    rewrite E. lra.
Qed.

Lemma average_within {A} (f : A -> Q) (hi : Q) (l : list A) :
  0 <= hi ->
  Forall (fun a => 0 <= f a /\ f a <= hi) l ->
  0 <= sumOf f l / Qnat (Nat.max 1 (length l))
  /\ sumOf f l / Qnat (Nat.max 1 (length l)) <= hi.
Proof.
  intros Hhi HF. unfold sumOf.
  destruct (sum_from_bounds f 0 hi l 0 HF) as [H1 H2].
  assert (Hn : 0 < Qnat (Nat.max 1 (length l))) by (apply AudioFacts.Qnat_pos; lia).
  assert (Hle : Qnat (length l) <= Qnat (Nat.max 1 (length l))) by (apply Qnat_le; lia).
  pose proof (Qnat_nonneg (length l)) as H0.
  split.
  - apply Qle_shift_div_l; [exact Hn|]. lra.
  - apply Qle_shift_div_r; [exact Hn|]. nra.
Qed.

(** The scores of an assessment are on the scale of 0 to 10. *)
Definition scored (a : QuestionAnalysis) : Prop :=
  (0 <= contentScore a /\ contentScore a <= 10)
  /\ (0 <= deliveryScore a /\ deliveryScore a <= 10).

Lemma report_within (l : list (QuestionAnalysis * AnalysisMetrics)) :
  Forall (fun p => scored (fst p)) l ->
  Forall (fun p => bounded (snd p)) l ->
  let r := report l in
  (0 <= avgContent r /\ avgContent r <= 10)
  /\ (0 <= avgDelivery r /\ avgDelivery r <= 10)
  /\ (0 <= fluencyScore r /\ fluencyScore r <= 100)
  /\ (0 <= confidenceMetric r /\ confidenceMetric r <= 100)
  /\ (0 <= overallScore r /\ overallScore r <= 100).
Proof.
  intros Hs Hb. cbv zeta. unfold report. cbv zeta.
  cbn [avgContent avgDelivery fluencyScore confidenceMetric overallScore].
  set (n := Qnat (Nat.max 1 (length l))).
  assert (Hc : 0 <= sumOf (fun curr => contentScore (fst curr)) l / n
               /\ sumOf (fun curr => contentScore (fst curr)) l / n <= 10).
  { apply average_within; [lra|].
    eapply Forall_impl; [exact Hs|]. intros p H. exact (proj1 H). }
  assert (Hd : 0 <= sumOf (fun curr => deliveryScore (fst curr)) l / n
               /\ sumOf (fun curr => deliveryScore (fst curr)) l / n <= 10).
  { apply average_within; [lra|].
    eapply Forall_impl; [exact Hs|]. intros p H. exact (proj2 H). }
  assert (He : 0 <= sumOf (fun curr => eyeContact (snd curr)) l / n
               /\ sumOf (fun curr => eyeContact (snd curr)) l / n <= 100).
  { apply average_within; [lra|].
    eapply Forall_impl; [exact Hb|]. intros p H.
    destruct H as ((_ & _ & _ & (_ & A) & _) & _). exact A. }
  assert (Hv : 0 <= sumOf (fun curr => volumeStability (snd curr)) l / n
               /\ sumOf (fun curr => volumeStability (snd curr)) l / n <= 10).
  { apply average_within; [lra|].
    eapply Forall_impl; [exact Hb|]. intros p H.
    destruct H as ((_ & _ & A & _) & B & _). split; assumption. }
  assert (Hr : 0 <= sumOf (fun curr => speechRate (snd curr)) l / n
               /\ sumOf (fun curr => speechRate (snd curr)) l / n <= 150).
  { apply average_within; [lra|].
    eapply Forall_impl; [exact Hb|]. intros p H.
    destruct H as (((_ & A) & _) & _). exact A. }
  assert (Hp : 0 <= sumOf (fun curr => pauseRatio (snd curr)) l / n
               /\ sumOf (fun curr => pauseRatio (snd curr)) l / n <= 100).
  { apply average_within; [lra|].
    eapply Forall_impl; [exact Hb|]. intros p H.
    destruct H as ((_ & A & _) & _). exact A. }
  assert (Hk : 0 <= sumOf (fun curr => confidence (snd curr)) l / n
               /\ sumOf (fun curr => confidence (snd curr)) l / n <= 100).
  { apply average_within; [lra|].
    eapply Forall_impl; [exact Hb|]. intros p H.
    destruct H as ((_ & _ & _ & _ & A & _) & _ & B). split; assumption. }
  set (c := or_zero (Math_round (sumOf (fun curr => contentScore (fst curr)) l / n))).
  set (d := or_zero (Math_round (sumOf (fun curr => deliveryScore (fst curr)) l / n))).
  set (e := or_zero (Math_round (sumOf (fun curr => eyeContact (snd curr)) l / n))).
  set (v := or_zero (sumOf (fun curr => volumeStability (snd curr)) l / n)).
  set (s := or_zero (sumOf (fun curr => speechRate (snd curr)) l / n)).
  set (p := or_zero (sumOf (fun curr => pauseRatio (snd curr)) l / n)).
  set (k := or_zero (Math_round (sumOf (fun curr => confidence (snd curr)) l / n))).
  assert (Hc' : 0 <= c /\ c <= 10).
  { subst c. rewrite or_zero_eq. apply (Math_round_within _ 0 10); tauto. }
  assert (Hd' : 0 <= d /\ d <= 10).
  { subst d. rewrite or_zero_eq. apply (Math_round_within _ 0 10); tauto. }
  assert (He' : 0 <= e /\ e <= 100).
  { subst e. rewrite or_zero_eq. apply (Math_round_within _ 0 100); tauto. }
  assert (Hv' : 0 <= v /\ v <= 10) by (subst v; rewrite or_zero_eq; exact Hv).
  assert (Hr' : 0 <= s /\ s <= 150) by (subst s; rewrite or_zero_eq; exact Hr).
  assert (Hp' : 0 <= p /\ p <= 100) by (subst p; rewrite or_zero_eq; exact Hp).
  assert (Hk' : 0 <= k /\ k <= 100).
  { subst k. rewrite or_zero_eq. apply (Math_round_within _ 0 100); tauto. }
  clearbody c d e v s p k. clear Hc Hd He Hv Hr Hp Hk.
  set (srn := Math_min 100 (s / 150 * 100)).
  assert (Hsrn : 0 <= srn /\ srn <= 100).
  { subst srn. destruct (Math_min_cases 100 (s / 150 * 100)) as [[-> H]|[-> H]];
      [lra|]. split; [|lra].
    assert (0 <= s / 150) by (apply Qle_shift_div_l; lra). lra. }
  set (prn := Math_max 0 (100 - p * (5 # 2))).
  assert (Hprn : 0 <= prn /\ prn <= 100).
  { subst prn. destruct (Math_max_cases 0 (100 - p * (5 # 2))) as [[-> H]|[-> H]];
      lra. }
  clearbody srn prn.
  set (fl := Math_round ((3 # 5) * srn + (2 # 5) * prn)).
  assert (Hfl : 0 <= fl /\ fl <= 100).
  { subst fl. apply (Math_round_within _ 0 100);
      change (inject_Z 0) with 0; change (inject_Z 100) with 100; lra. }
  clearbody fl.
  set (cm := if Qlt_bool 0 k then k
             else Math_round ((9 # 20) * e + (7 # 20) * (v * 10) + (1 # 5) * fl)).
  assert (Hcm : 0 <= cm /\ cm <= 100).
  { subst cm. destruct (Qlt_bool 0 k); [exact Hk'|].
    apply (Math_round_within _ 0 100);
      change (inject_Z 0) with 0; change (inject_Z 100) with 100; lra. }
  clearbody cm.
  split; [exact Hc'|]. split; [exact Hd'|]. split; [exact Hfl|].
  split; [exact Hcm|].
  apply (Math_round_within _ 0 100);
    change (inject_Z 0) with 0; change (inject_Z 100) with 100.
  - assert (0 <= (c + d + (1 # 10) * cm) / 3) by (apply Qle_shift_div_l; lra). lra.
  - assert ((c + d + (1 # 10) * cm) / 3 <= 10) by (apply Qle_shift_div_r; lra). lra.
Qed.

(** X25.  The report.  For the assessments a reachable state hands to the
    feedback page, when [Math.sqrt] returns no negative number and every
    content and delivery score is between 0 and 10: the average content and
    delivery scores are between 0 and 10, and the fluency score, the
    confidence shown and the overall score are between 0 and 100. *)
Theorem report_scores_in_range (Math_sqrt Math_log10 : Q -> Q)
    (cfg : InterviewConfig) (onEnd recognition : bool) (es : list Event) :
  (forall q : Q, 0 <= Math_sqrt q) ->
  let w := Graph.run Math_sqrt Math_log10 (newGraph cfg onEnd recognition) es in
  Forall (fun a => (0 <= contentScore a /\ contentScore a <= 10)
                   /\ (0 <= deliveryScore a /\ deliveryScore a <= 10))
         (analyses (state (graph w))) ->
  let r := report (handedOver w) in
  (0 <= avgContent r /\ avgContent r <= 10)
  /\ (0 <= avgDelivery r /\ avgDelivery r <= 10)
  /\ (0 <= fluencyScore r /\ fluencyScore r <= 100)
  /\ (0 <= confidenceMetric r /\ confidenceMetric r <= 100)
  /\ (0 <= overallScore r /\ overallScore r <= 100).
Proof.
  intros Hsqrt w Hs. apply report_within.
  - unfold handedOver. apply Forall_map. exact Hs.
  - unfold handedOver. apply Forall_map, Forall_forall. intros a _. cbn [snd].
    apply heap_all_deref; [exact initialMetrics_bounded|].
    now apply reachable_bounded.
Qed.

Import Samples.

(** A session with two assessments, scored 8/7 and 6/9, taken after a
    loud audio tick and a face frame. *)
Definition scoredCall (id : string) (content delivery : Q) : LiveServerMessage :=
  saveCall id (mkArgs None None None (Some content) (Some delivery) None None None).

Definition reviewed : list Event :=
  sampling ++ [Inbound (scoredCall "call-1" 8 7) readings;
               Inbound (scoredCall "call-2" 6 9) readings].

Lemma report_witness :
  let r := report (handedOver (Graph.run sqrt_floor log_floor
                                 (newGraph config10 true true) reviewed)) in
  avgContent r = 7 /\ avgDelivery r = 8
  /\ 0 <= overallScore r /\ overallScore r <= 100.
Proof.
  cbv zeta. split; [vm_compute; reflexivity|]. split; [vm_compute; reflexivity|].
  apply (report_scores_in_range sqrt_floor log_floor config10 true true reviewed
           sqrt_floor_nonneg).
  unfold reviewed. vm_compute analyses.
  repeat constructor; vm_compute; discriminate.
Defined.

End FeedbackFacts.

Module FileFacts.

Import JS Files.

Local Open Scope string_scope.

(** Every white-space character of [s] is a space character that comes
    after a character that is not white space; with [after_blank] set,
    the position before [s] counts as white space.  [closed] asks in
    addition that [s] does not end in white space. *)
Fixpoint spaced (closed after_blank : bool) (s : string) : Prop :=
  match s with
  | EmptyString => closed = true -> after_blank = false
  | String c s' =>
      if is_space c
      then c = " "%char /\ after_blank = false /\ spaced closed true s'
      else spaced closed false s'
  end.

(** The text is empty, or it starts and ends with characters that are not
    white space and its only white space is single space characters. *)
Definition normal (s : string) : Prop :=
  match s with
  | EmptyString => True
  | _ => spaced true true s
  end.

(** The characters that are not white space, in order. *)
Fixpoint inked (s : string) : string :=
  match s with
  | EmptyString => EmptyString
  | String c s' => if is_space c then inked s' else String c (inked s')
  end.

Lemma collapse_spaced (b : bool) (s : string) : spaced false b (collapse_from b s).
Proof.
  revert b. induction s as [|c s IH]; intros b; simpl; [discriminate|].
  destruct (is_space c) eqn:E.
  - destruct b; [apply IH|]. simpl. split; [reflexivity|]. split; [reflexivity|apply IH].
  - simpl. rewrite E. apply IH.
Qed.

Lemma spaced_after (closed b : bool) (s : string) :
  spaced closed b s -> s <> EmptyString -> spaced closed false s.
Proof.
  destruct s as [|c s]; [congruence|]. simpl.
  destruct (is_space c); [|tauto]. intros (A & -> & B) _. tauto.
Qed.

Lemma trim_start_spaced (b : bool) (s : string) :
  spaced false b s -> spaced false true (trim_start s).
Proof.
  revert b. induction s as [|c s IH]; intros b; simpl; [discriminate|].
  destruct (is_space c) eqn:E.
  - intros (_ & _ & H). exact (IH _ H).
  - intros H. simpl. rewrite E. exact H.
Qed.

Lemma trim_end_spaced (b : bool) (s : string) :
  spaced false b s ->
  match trim_end_aux s with
  | Some u => spaced true b u /\ u <> EmptyString
  | None => True
  end.
Proof.
  revert b. induction s as [|c s IH]; intros b; simpl; [exact (fun _ => I)|].
  destruct (is_space c) eqn:E.
  - intros (A & B & H). specialize (IH _ H).
    destruct (trim_end_aux s) as [u|]; [|exact I].
    simpl. rewrite E. split; [|discriminate]. tauto.
  - intros H. specialize (IH _ H).
    destruct (trim_end_aux s) as [u|]; simpl; rewrite E.
    + split; [tauto|discriminate].
    + split; [reflexivity|discriminate].
Qed.

Lemma clean_normal (s : string) : normal (clean s).
Proof.
  unfold clean, trim, trim_end, collapse.
  pose proof (trim_end_spaced true _
                (trim_start_spaced false _ (collapse_spaced false s))) as H.
  destruct (trim_end_aux _) as [u|]; [|exact I].
  destruct H as [H Hne]. destruct u; [congruence|exact H].
Qed.

Lemma inked_collapse (b : bool) (s : string) : inked (collapse_from b s) = inked s.
Proof.
  revert b. induction s as [|c s IH]; intros b; simpl; [reflexivity|].
  destruct (is_space c) eqn:E.
  - destruct b; [apply IH|]. simpl. apply IH.
  - simpl. rewrite E. now rewrite IH.
Qed.

Lemma inked_trim_start (s : string) : inked (trim_start s) = inked s.
Proof.
  induction s as [|c s IH]; simpl; [reflexivity|].
  destruct (is_space c) eqn:E; [exact IH|]. simpl. now rewrite E.
Qed.

Lemma inked_trim_end (s : string) : inked (trim_end s) = inked s.
Proof.
  unfold trim_end.
  assert (H : match trim_end_aux s with
              | Some u => inked u = inked s
              | None => inked s = EmptyString
              end).
  { induction s as [|c s IH]; simpl; [reflexivity|].
    destruct (trim_end_aux s) as [u|]; destruct (is_space c) eqn:E;
      simpl; rewrite ?E; try assumption; now rewrite IH. }
  destruct (trim_end_aux s); [exact H|now rewrite H].
Qed.

Lemma ceil4_bounds (n : nat) : (n <= 4 * ceil4 n < n + 4)%nat.
Proof.
  unfold ceil4.
  pose proof (Nat.div_mod_eq (n + 3) 4) as H.
  pose proof (Nat.mod_upper_bound (n + 3) 4 ltac:(lia)) as Hm.
  lia.
Qed.

(** X26.  The cleaned text.  Whatever the file holds, the text [processFile]
    returns is empty, or starts and ends with a character that is not white
    space and has single space characters as its only white space; it holds
    the characters of the file that are not white space, all of them and in
    their order; and [tokens] is the least number of blocks of four
    characters that cover it. *)
Theorem processFile_normalises (name text : string) :
  exists doc : ParsedDocument,
    processFile name (inl text) = inl doc
    /\ fileName doc = name
    /\ normal (Files.text doc)
    /\ inked (Files.text doc) = inked text
    /\ (String.length (Files.text doc) <= 4 * tokens doc
        < String.length (Files.text doc) + 4)%nat.
Proof.
  eexists. split; [reflexivity|]. cbn [fileName Files.text tokens].
  split; [reflexivity|]. split; [apply clean_normal|].
  split; [|apply ceil4_bounds].
  unfold clean, trim, collapse.
  now rewrite inked_trim_end, inked_trim_start, inked_collapse.
Qed.

Lemma spaced_collapse_fixed (b : bool) (s : string) :
  spaced true b s -> s <> EmptyString -> collapse_from b s = s.
Proof.
  revert b. induction s as [|c s IH]; intros b; [congruence|]. simpl.
  destruct (is_space c) eqn:E.
  - intros (-> & -> & H) _. f_equal.
    destruct s as [|c' s]; [simpl in H; specialize (H eq_refl); discriminate|].
    apply IH; [exact H|discriminate].
  - intros H _. f_equal.
    destruct s as [|c' s]; [reflexivity|]. apply IH; [exact H|discriminate].
Qed.

Lemma spaced_trim_end_fixed (b : bool) (s : string) :
  spaced true b s -> s <> EmptyString -> trim_end_aux s = Some s.
Proof.
  revert b. induction s as [|c s IH]; intros b; [congruence|]. simpl.
  destruct (is_space c) eqn:E.
  - intros (_ & _ & H) _.
    destruct s as [|c' s]; [simpl in H; specialize (H eq_refl); discriminate|].
    rewrite (IH true H) by discriminate. reflexivity.
  - intros H _.
    destruct s as [|c' s]; [reflexivity|].
    rewrite (IH false H) by discriminate. reflexivity.
Qed.

Lemma normal_clean_fixed (s : string) : normal s -> clean s = s.
Proof.
  destruct s as [|c s]; [reflexivity|]. intros H. unfold normal in H.
  unfold clean, collapse.
  rewrite (spaced_collapse_fixed false (String c s)
             (spaced_after _ _ _ H ltac:(discriminate)) ltac:(discriminate)).
  unfold trim.
  assert (Hs : trim_start (String c s) = String c s).
  { simpl in *. destruct (is_space c); [|reflexivity].
    destruct H as (_ & [=] & _). }
  rewrite Hs. unfold trim_end.
  now rewrite (spaced_trim_end_fixed true _ H) by discriminate.
Qed.

(** X27.  Cleaning twice.  A text that [processFile] returned is left as it
    is when it is processed again. *)
Theorem processFile_idempotent (name name' text : string) :
  exists doc doc' : ParsedDocument,
    processFile name (inl text) = inl doc
    /\ processFile name' (inl (Files.text doc)) = inl doc'
    /\ Files.text doc' = Files.text doc
    /\ tokens doc' = tokens doc.
Proof.
  eexists _, _. split; [reflexivity|]. split; [reflexivity|].
  cbn [Files.text tokens].
  rewrite (normal_clean_fixed _ (clean_normal text)). split; reflexivity.
Qed.

End FileFacts.

Module ObserverFacts.

Import Graph Observers.

Lemma seenBy_app (l : nat) (st : InterviewState) (ls : list nat)
    (ds : list (nat * InterviewState)) (c : InterviewState) :
  map snd (List.filter (fun d => Nat.eqb (fst d) l)
                       (ds ++ map (fun k => (k, st)) ls)) =
    map snd (List.filter (fun d => Nat.eqb (fst d) l) ds)
    ++ repeat st (length (List.filter (fun k => Nat.eqb k l) ls)).
Proof.
  rewrite List.filter_app, map_app. f_equal.
  induction ls as [|k ls IH]; [reflexivity|].
  simpl. destruct (Nat.eqb k l); simpl; now rewrite IH.
Qed.

Lemma In_filter_length (l : nat) (ls : list nat) :
  In l ls -> (0 < length (List.filter (fun k => Nat.eqb k l) ls))%nat.
Proof.
  induction ls as [|k ls IH]; [intros []|].
  intros [->|H]; simpl.
  - rewrite Nat.eqb_refl. simpl. lia.
  - destruct (Nat.eqb k l); simpl; [lia|now apply IH].
Qed.

Lemma last_repeat {A} (a : A) (n : nat) (l : list A) :
  (0 < n)%nat -> last (l ++ repeat a n) = Some a.
Proof.
  intros H. destruct n as [|n]; [lia|].
  replace (repeat a (S n)) with (repeat a n ++ [a]).
  - rewrite app_assoc. apply last_snoc.
  - clear. induction n as [|n IH]; [reflexivity|]. simpl. now rewrite IH.
Qed.

(** Every registered listener has the current state as the last state
    it was given. *)
Definition upToDate (o : Store) : Prop :=
  forall l : nat, In l (listeners o) -> last (seenBy l o) = Some (current o).

Lemma call_upToDate (o : Store) (k : Call) : upToDate o -> upToDate (call o k).
Proof.
  intros H l Hl. destruct k as [cb|cb|p]; simpl in *.
  - unfold seenBy. cbn [delivered subscribe current].
    rewrite List.filter_app, map_app. simpl.
    destruct (Nat.eqb_spec cb l) as [->|Hne].
    + simpl. apply last_snoc.
    + simpl. rewrite app_nil_r. apply in_app_or in Hl as [Hl|[E|[]]];
        [exact (H l Hl)|congruence].
  - apply List.filter_In in Hl as [Hl _]. exact (H l Hl).
  - unfold seenBy. cbn [delivered updateState current].
    rewrite (seenBy_app l _ _ _ (current o)).
    apply last_repeat. now apply In_filter_length.
Qed.

(** X28.  Listeners see the current state.  After any sequence of
    [subscribe], unsubscribe and [updateState] calls on a new orchestrator,
    the last state each registered listener was given is the current state:
    [subscribe] calls the new listener at once and every update is passed on
    to all listeners. *)
Theorem listeners_see_current_state (st : InterviewState) (ks : list Call)
    (l : nat) :
  let o := calls ks (mkStore st [] []) in
  In l (listeners o) -> last (seenBy l o) = Some (current o).
Proof.
  cbv zeta. revert l.
  change (upToDate (calls ks (mkStore st [] []))).
  unfold calls.
  assert (H0 : upToDate (mkStore st [] [])) by (intros l []).
  revert H0. generalize (mkStore st [] []).
  induction ks as [|k ks IH]; intros o Ho; [exact Ho|].
  simpl. apply IH. now apply call_upToDate.
Qed.

Lemma unsubscribe_removes (cb : nat) (o : Store) :
  ~ In cb (listeners (unsubscribe cb o)).
Proof.
  unfold unsubscribe. cbn [listeners]. intros H.
  apply List.filter_In in H as [_ H]. rewrite Nat.eqb_refl in H. discriminate.
Qed.

Lemma quiet_call (cb : nat) (o : Store) (k : Call) :
  ~ In cb (listeners o) -> k <> Subscribe cb ->
  ~ In cb (listeners (call o k)) /\ seenBy cb (call o k) = seenBy cb o.
Proof.
  intros Hn Hk. destruct k as [c|c|p]; simpl.
  - assert (Hc : c <> cb) by congruence. split.
    + intros H. apply in_app_or in H as [H|[E|[]]]; [tauto|congruence].
    + unfold seenBy. cbn [delivered subscribe].
      rewrite List.filter_app, map_app. simpl.
      destruct (Nat.eqb_spec c cb); [congruence|]. simpl. apply app_nil_r.
  - split; [|reflexivity]. intros H. apply List.filter_In in H as [H _]. tauto.
  - split; [exact Hn|]. unfold seenBy. cbn [delivered updateState].
    rewrite (seenBy_app cb _ _ _ (current o)).
    assert (E : List.filter (fun k => Nat.eqb k cb) (listeners o) = []).
    { induction (listeners o) as [|k ls IH]; [reflexivity|].
      simpl. destruct (Nat.eqb_spec k cb) as [->|Hne].
      - exfalso. apply Hn. now left.
      - apply IH. intros H. apply Hn. now right. }
    rewrite E. simpl. apply app_nil_r.
Qed.

(** X29.  Unsubscribing.  The function [subscribe] returned removes every
    registration of its callback, also when the callback was subscribed more
    than once; whatever updates and other subscriptions follow, the callback
    is called no more until it is subscribed again. *)
Theorem unsubscribed_listener_is_not_called (cb : nat) (o : Store)
    (ks : list Call) :
  Forall (fun k => k <> Subscribe cb) ks ->
  let o' := calls ks (unsubscribe cb o) in
  ~ In cb (listeners o') /\ seenBy cb o' = seenBy cb o.
Proof.
  intros HF. cbv zeta. unfold calls.
  assert (H0 : ~ In cb (listeners (unsubscribe cb o))
               /\ seenBy cb (unsubscribe cb o) = seenBy cb o)
    by (split; [apply unsubscribe_removes|reflexivity]).
  revert H0. generalize (unsubscribe cb o).
  induction HF as [|k ks Hk _ IH]; intros o1 [Hn Hs]; [split; assumption|].
  simpl. destruct (quiet_call cb o1 k Hn Hk) as [A B].
  apply IH. split; [exact A|congruence].
Qed.

Import Samples.

(** The session state of a new ten-minute orchestrator, and an update
    of the connection state alone. *)
Definition fresh_state : InterviewState :=
  state (graph (newGraph config10 true true)).

Definition connected : Partial :=
  mkPartial (Some CONNECTED) None None None None None None None None.

Lemma listeners_witness :
  let o := calls [Subscribe 7; UpdateState connected] (mkStore fresh_state [] []) in
  In 7%nat (listeners o)
  /\ connectionState (current o) = CONNECTED
  /\ last (seenBy 7 o) = Some (current o).
Proof.
  cbv zeta.
  assert (H : In 7%nat (listeners (calls [Subscribe 7; UpdateState connected]
                                         (mkStore fresh_state [] []))))
    by (left; reflexivity).
  split; [exact H|]. split; [reflexivity|].
  exact (listeners_see_current_state fresh_state
           [Subscribe 7; UpdateState connected] 7 H).
Defined.

Lemma unsubscribed_witness :
  let o := calls [Subscribe 7; Subscribe 7] (mkStore fresh_state [] []) in
  let o' := calls [UpdateState connected; Subscribe 8; UpdateState connected]
                  (unsubscribe 7 o) in
  listeners o = [7%nat; 7%nat] /\ listeners o' = [8%nat]
  /\ length (seenBy 7 o') = 2%nat.
Proof.
  cbv zeta. split; [reflexivity|]. split; [reflexivity|].
  destruct (unsubscribed_listener_is_not_called 7
              (calls [Subscribe 7; Subscribe 7] (mkStore fresh_state [] []))
              [UpdateState connected; Subscribe 8; UpdateState connected])
    as [_ H].
  - repeat constructor; discriminate.
  - rewrite H. reflexivity.
Defined.

End ObserverFacts.

Module TurnFacts.

Import JS JSFacts Analysis Live Graph GraphFacts SessionFacts Turns.

Local Open Scope string_scope.

Lemma append_empty_r (s : string) : s ++ "" = s.
Proof.
  induction s as [|c s IH]; [reflexivity|].
  change (String c (s ++ "") = String c s). now rewrite IH.
Qed.

Lemma append_assoc (a b c : string) : (a ++ b) ++ c = a ++ b ++ c.
Proof.
  induction a as [|x a IH]; [reflexivity|].
  change (String x ((a ++ b) ++ c) = String x (a ++ b ++ c)). now rewrite IH.
Qed.

(** The final results, each followed by a space. *)
Definition finals (results : list (bool * string)) : string :=
  fold_left (fun (b : string) (r : bool * string) =>
               if fst r then b ++ snd r ++ " " else b)
            results "".

(** What the agent wrote and what the candidate said, in order. *)
Fixpoint agentSaid (hs : list Heard) : string :=
  match hs with
  | [] => ""
  | AgentText t :: rest => t ++ agentSaid rest
  | Speech _ :: rest => agentSaid rest
  end.

Fixpoint candidateSaid (hs : list Heard) : string :=
  match hs with
  | [] => ""
  | AgentText _ :: rest => candidateSaid rest
  | Speech results :: rest => finals results ++ candidateSaid rest
  end.

Lemma finals_from (results : list (bool * string)) (b : string) :
  fold_left (fun (b : string) (r : bool * string) =>
               if fst r then b ++ snd r ++ " " else b)
            results b
  = b ++ finals results.
Proof.
  unfold finals. revert b.
  induction results as [|r rs IH]; intros b; simpl; [now rewrite append_empty_r|].
  rewrite IH. rewrite (IH (if fst r then _ else _)).
  destruct (fst r); simpl; [|reflexivity]. now rewrite !append_assoc.
Qed.

Lemma hear_buffers (r : Readings) (hs : list Heard) (w : World) :
  let w' := fold_left (hear r) hs w in
  aiTextBuffer (graph w') = aiTextBuffer (graph w) ++ agentSaid hs
  /\ userTranscriptBuffer (graph w')
     = userTranscriptBuffer (graph w) ++ candidateSaid hs
  /\ currentQuestionText (state (graph w'))
     = (if String.eqb (agentSaid hs) "" then currentQuestionText (state (graph w))
        else aiTextBuffer (graph w) ++ agentSaid hs)
  /\ analyses (state (graph w')) = analyses (state (graph w)).
Proof.
  revert w. induction hs as [|h hs IH]; intros w.
  - simpl. rewrite !append_empty_r. repeat split.
  - simpl fold_left. destruct (IH (hear r w h)) as (A & B & C & D).
    cbv zeta. rewrite A, B, C, D. clear A B C D IH.
    destruct h as [t|results]; simpl hear.
    + unfold handlePart. cbn [inlineData partText].
      destruct t as [|c t].
      * simpl. repeat split.
      * cbn [truthy]. unfold onTranscript.
        cbn [graph with_graph aiTextBuffer userTranscriptBuffer state
             currentQuestionText analyses agentSaid candidateSaid].
        rewrite !append_assoc. split; [reflexivity|]. split; [reflexivity|].
        split; [|reflexivity].
        destruct (String.eqb_spec (agentSaid hs) "") as [E|E].
        -- rewrite E, append_empty_r. reflexivity.
        -- simpl. reflexivity.
    + destruct (onresult_state results w) as (_ & _ & _ & B & _ & _ & C).
      rewrite B, C.
      assert (Ea : aiTextBuffer (graph (onresult results w)) = aiTextBuffer (graph w)).
      { unfold onresult. cbv zeta. destruct (truthy _); reflexivity. }
      assert (Eu : userTranscriptBuffer (graph (onresult results w))
                   = userTranscriptBuffer (graph w) ++ finals results).
      { unfold onresult. cbv zeta. destruct (truthy _);
          cbn [graph with_graph userTranscriptBuffer]; apply finals_from. }
      rewrite Ea, Eu. cbn [agentSaid candidateSaid].
      rewrite append_assoc. repeat split.
Qed.

(** X30.  What an assessment records of the turn.  After a [save_assessment]
    call both scratch buffers are empty.  From then on the text fragments of
    the agent are appended to the one, and the final results of the speech
    recogniser, each followed by a space, to the other; interim results are
    not.  The next [save_assessment] call records as the answer what the
    candidate said since the previous call, trimmed, when that is not blank;
    and when it brings no question text, it records as the question what the
    agent wrote since the previous call, when the agent wrote anything. *)
Theorem assessment_records_the_turn (w : World)
    (args1 : ToolArgs) (r1 : Readings) (r : Readings) (hs : list Heard)
    (args2 : ToolArgs) (r2 : Readings) :
  let w1 := onToolCall "save_assessment" (Some args1) r1 w in
  let w2 := fold_left (hear r) hs w1 in
  let w3 := onToolCall "save_assessment" (Some args2) r2 w2 in
  aiTextBuffer (graph w1) = "" /\ userTranscriptBuffer (graph w1) = ""
  /\ aiTextBuffer (graph w2) = agentSaid hs
  /\ userTranscriptBuffer (graph w2) = candidateSaid hs
  /\ exists a : QuestionAnalysis,
       analyses (state (graph w3)) = (analyses (state (graph w1)) ++ [a])%list
       /\ (trim (candidateSaid hs) <> "" -> userAnswer a = trim (candidateSaid hs))
       /\ (full_question_text args2 = None -> agentSaid hs <> "" ->
           questionText a = agentSaid hs).
Proof.
  cbv zeta.
  set (w1 := onToolCall "save_assessment" (Some args1) r1 w).
  assert (Ha : aiTextBuffer (graph w1) = "")
    by (subst w1; now rewrite onToolCall_save).
  assert (Hu : userTranscriptBuffer (graph w1) = "")
    by (subst w1; now rewrite onToolCall_save).
  destruct (hear_buffers r hs w1) as (A & B & C & D). cbv zeta in A, B, C, D.
  rewrite Ha in A, C. rewrite Hu in B.
  change ("" ++ agentSaid hs) with (agentSaid hs) in A, C.
  change ("" ++ candidateSaid hs) with (candidateSaid hs) in B.
  set (w2 := fold_left (hear r) hs w1) in *.
  split; [exact Ha|]. split; [exact Hu|]. split; [exact A|]. split; [exact B|].
  rewrite onToolCall_save. cbv zeta. cbn [state analyses].
  eexists. split; [rewrite D; reflexivity|].
  cbn [userAnswer questionText assessment]. split.
  - intros Hne. unfold rawUserAnswer. rewrite B.
    destruct (trim (candidateSaid hs)) as [|c t]; [congruence|reflexivity].
  - intros Hq Hne. unfold realQuestion. rewrite Hq, C.
    destruct (String.eqb_spec (agentSaid hs) "") as [E|_]; [congruence|].
    destruct (agentSaid hs); [congruence|reflexivity].
Qed.

Import Samples.

Lemma assessment_turn_witness :
  let w := Graph.run sqrt_floor log_floor (newGraph config10 true true) opening in
  let w1 := onToolCall "save_assessment" (Some noArgs) readings w in
  let hs := [AgentText "Why this role?";
             Speech [(false, "I lik"); (true, "I like it")];
             Speech [(true, "a lot")]] in
  let w3 := onToolCall "save_assessment" (Some noArgs) readings
                       (fold_left (hear readings) hs w1) in
  map (fun a => (questionText a, userAnswer a)) (analyses (state (graph w3)))
  = [("Waiting for interviewer...", "(No audio response detected)");
     ("Why this role?", "I like it a lot")].
Proof.
  cbv zeta.
  destruct (assessment_records_the_turn
              (Graph.run sqrt_floor log_floor (newGraph config10 true true) opening)
              noArgs readings readings
              [AgentText "Why this role?";
               Speech [(false, "I lik"); (true, "I like it")];
               Speech [(true, "a lot")]]
              noArgs readings)
    as (_ & _ & _ & _ & a & Ha & Hans & Hq).
  rewrite Ha, map_app. cbn [map].
  rewrite Hans by (vm_compute; discriminate).
  rewrite Hq by (try reflexivity; vm_compute; discriminate).
  vm_compute. reflexivity.
Defined.

End TurnFacts.
